(** * knowmadwriter: placeholder engine and conversation state manager

    A shallow embedding of
    - [placeholder_bot.py] (regex detection and strict rendering),
    - [telegram_bot/utils/html_processor.py] (builtin catalog, template
      scan, lenient rendering, value validation),
    - [telegram_bot/models/placeholder.py] ([CustomPlaceholder]),
    - [telegram_bot/core/states.py] ([StateManager]),
    - the commit step of [configure_next_custom_placeholder] in
      [telegram_bot/core/handlers.py],
    together with the properties that hold of them. *)

From Stdlib Require Import ZArith Ascii String List Bool Lia DecimalString.
From stdpp Require Import base option list gmap strings.

Local Open Scope list_scope.
Local Open Scope char_scope.

(** ** Python values used by the embedding *)

(** A Python [str] is a sequence of characters; the text algorithms below
    work on [list ascii]. *)
Abbreviation text := (list ascii).

Definition str (s : string) : text := list_ascii_of_string s.

(** Exceptions the modelled code can raise. *)
Inductive exn :=
| ValueError (msg : text)
| KeyError (key : text)
| TypeError
| DbError.

Inductive result (A : Type) :=
| Ok (a : A)
| Raise (e : exn).
Arguments Ok {A} a.
Arguments Raise {A} e.

Definition bind {A B} (r : result A) (k : A -> result B) : result B :=
  match r with
  | Ok a => k a
  | Raise e => Raise e
  end.

Notation "x <- r ;;; k" := (bind r (fun x => k))
  (at level 100, r at next level, right associativity).

(** Values found in the mappings handed to the renderers. *)
Inductive PyVal :=
| PyNone
| PyStr (s : text)
| PyInt (z : Z).

(** The text [str(value)] returns when it returns. *)
Definition py_str (v : PyVal) : text :=
  match v with
  | PyNone => str "None"
  | PyStr s => s
  | PyInt z => str (NilZero.string_of_int (Z.to_int z))
  end.

(** [sys.get_int_max_str_digits()], the interpreter's default. *)
Definition int_max_str_digits : nat := 4300.

(** The number of decimal digits of an integer, its sign apart. *)
Definition int_digits (z : Z) : nat := length (py_str (PyInt (Z.abs z))).

(** [str(value)]: converting an integer of more than
    [int_max_str_digits] digits raises a [ValueError]. *)
Definition str_value (v : PyVal) : result text :=
  match v with
  | PyInt z =>
      if (int_max_str_digits <? int_digits z)%nat
      then Raise (ValueError
                    (str "Exceeds the limit (4300 digits) for integer string conversion"))
      else Ok (py_str v)
  | _ => Ok (py_str v)
  end.

(** A [dict] with [str] keys, in insertion order. *)
Abbreviation dict V := (list (text * V)).

Fixpoint dict_get {V} (d : dict V) (k : text) : option V :=
  match d with
  | [] => None
  | (k', v) :: d' => if decide (k' = k) then Some v else dict_get d' k
  end.

(** [k in d] *)
Definition dict_mem {V} (d : dict V) (k : text) : bool :=
  match dict_get d k with Some _ => true | None => false end.

(** [sep.join(parts)] *)
Fixpoint join (sep : text) (parts : list text) : text :=
  match parts with
  | [] => []
  | [p] => p
  | p :: ps => p ++ sep ++ join sep ps
  end.

(** [s.startswith(p)] *)
Fixpoint startswith (p s : text) : bool :=
  match p, s with
  | [], _ => true
  | a :: p', b :: s' => if decide (a = b) then startswith p' s' else false
  | _ :: _, [] => false
  end.

(** [m in t]: [m] is a contiguous part of [t]. *)
Definition occurs_in (m t : text) : Prop :=
  exists pre post, t = pre ++ m ++ post.

(** A name written with its delimiters. *)
Definition token (name : text) : text := str "{{" ++ name ++ str "}}".

(** ** Left-to-right scanning for non-overlapping matches

    [re.finditer], [re.findall], [re.sub] and [str.replace] all walk the
    subject from left to right: at the current position they try to match;
    after a match they resume just behind it, otherwise they step over one
    character.  [match_at s] is the attempt at the head of [s] and returns
    the payload of the match and the number of characters it spans. *)

Section Scan.
Context {A : Type}.
Variable match_at : text -> option (A * nat).

Inductive piece :=
| Lit (c : ascii)
| Hit (a : A) (m : text).

Fixpoint scan_from (skip : nat) (s : text) : list piece :=
  match s with
  | [] => []
  | c :: s' =>
      match skip with
      | S k => scan_from k s'
      | O =>
          match match_at s with
          | Some (a, n) => Hit a (take n s) :: scan_from (pred n) s'
          | None => Lit c :: scan_from 0 s'
          end
      end
  end.

Definition finditer (s : text) : list piece := scan_from 0 s.

(** The subject text a piece stands for. *)
Definition piece_src (p : piece) : text :=
  match p with
  | Lit c => [c]
  | Hit _ m => m
  end.

(** Payloads of the matches, in order ([findall]). *)
Fixpoint hits (ps : list piece) : list A :=
  match ps with
  | [] => []
  | Lit _ :: ps' => hits ps'
  | Hit a _ :: ps' => a :: hits ps'
  end.

(** [re.sub] with a callable replacement that may raise. *)
Fixpoint sub_pieces (repl : A -> result text) (ps : list piece) : result text :=
  match ps with
  | [] => Ok []
  | Lit c :: ps' =>
      out <- sub_pieces repl ps' ;;; Ok (c :: out)
  | Hit a _ :: ps' =>
      r <- repl a ;;;
      out <- sub_pieces repl ps' ;;; Ok (r ++ out)
  end.
End Scan.

Arguments Lit {A} c.
Arguments Hit {A} a m.

(** ** placeholder_bot.py *)

Module PlaceholderBot.

(** The lazy group of [\{\{(.*?)\}\}]: the shortest run of characters
    other than a newline that is followed by the closing braces. *)
Fixpoint lazy_group (r : text) : option text :=
  match r with
  | [] => None
  | c :: r' =>
      if startswith (str "}}") r then Some []
      else if decide (c = "010") then None
      else option_map (cons c) (lazy_group r')
  end.

(** [PLACEHOLDER_PATTERN.match] at the head of [s]; payload is group 1. *)
Definition PLACEHOLDER_PATTERN (s : text) : option (text * nat) :=
  match s with
  | "{" :: "{" :: r =>
      match lazy_group r with
      | Some g => Some (g, 4 + length g)
      | None => None
      end
  | _ => None
  end.

(** [PLACEHOLDER_PATTERN.findall(template)] *)
Definition detect_placeholders (template : text) : list text :=
  hits (finditer PLACEHOLDER_PATTERN template).

(** The nested [replacer]: [str(data[key])], a [KeyError] when absent. *)
Definition replacer (data : dict PyVal) (key : text) : result text :=
  match dict_get data key with
  | Some v => str_value v
  | None => Raise (KeyError key)
  end.

Definition fill_template (template : text) (data : dict PyVal) : result text :=
  let placeholders := detect_placeholders template in
  let missing := filter (fun ph => dict_mem data ph = false) placeholders in
  match missing with
  | _ :: _ =>
      Raise (ValueError (str "Faltan datos para: " ++ join (str ", ") missing))
  | [] =>
      sub_pieces (replacer data) (finditer PLACEHOLDER_PATTERN template)
  end.

(** What one scanned piece contributes to the text [re.sub] builds:
    a literal character is copied, a match is replaced by the text of
    the value stored under its name. *)
Definition render_piece (data : dict PyVal) (p : @piece text) : text :=
  match p with
  | Lit c => [c]
  | Hit a _ =>
      match dict_get data a with
      | Some v => py_str v
      | None => []
      end
  end.

End PlaceholderBot.

(** ** telegram_bot/utils/html_processor.py *)

Module HtmlProcessor.

Record PlaceholderInfo := {
  description : string;
  required : bool
}.

(** The module-level table, in source order. *)
Definition PLACEHOLDERS : dict PlaceholderInfo :=
  [ (str "{{TITLE}}",
      {| description := "Título del post"; required := true |});
    (str "{{SITE_NAME}}",
      {| description := "Nombre del sitio"; required := true |});
    (str "{{META_DESCRIPTION}}",
      {| description := "Meta descripción del post"; required := true |});
    (str "{{FEATURE_IMAGE}}",
      {| description := "Imagen principal del post"; required := true |});
    (str "{{PUBLISHED_TIME}}",
      {| description := "Fecha de publicación"; required := true |});
    (str "{{CATEGORY}}",
      {| description := "Categoría asignada"; required := true |});
    (str "{{LAST_MODIFIED}}",
      {| description := "Última fecha de modificación"; required := false |});
    (str "{{SITE_URL}}",
      {| description := "Dominio del sitio"; required := true |});
    (str "{{ARTICLE_URL}}",
      {| description := "URL final del artículo (dominio + slug)";
         required := true |});
    (str "{{CONTENT}}",
      {| description := "Contenido en HTML"; required := true |});
    (str "{{FEATURE_IMAGE_ALT}}",
      {| description := "Texto alternativo de imagen"; required := false |});
    (str "{{READING_TIME}}",
      {| description := "Tiempo estimado de lectura"; required := false |});
    (str "{{SOURCE_LIST}}",
      {| description := "Lista de fuentes"; required := false |});
    (str "{{SLUG}}",
      {| description := "URL amigable generado a partir del título";
         required := true |});
    (str "{{POST_MONTH}}",
      {| description := "Nombre del mes de publicación (Ej: Ene, Feb)";
         required := false |}) ].

(** Keys of the table whose [required] flag equals [b], in table
    order. *)
Definition keys_with_flag (b : bool) : list text :=
  (List.filter (fun e => Bool.eqb (required e.2) b) PLACEHOLDERS).*1.

(** The character class [[A-Z_]]. *)
Definition is_upper_us (c : ascii) : bool :=
  let n := nat_of_ascii c in
  ((65 <=? n)%nat && (n <=? 90)%nat) || (n =? 95)%nat.

(** Names the scan pattern accepts between the braces: [[A-Z_]+]. *)
Definition upper_name (N : text) : Prop :=
  N <> [] /\ forallb is_upper_us N = true.

(** Longest prefix made of characters satisfying [f] (a greedy class
    repetition). *)
Fixpoint span_while (f : ascii -> bool) (s : text) : text :=
  match s with
  | c :: s' => if f c then c :: span_while f s' else []
  | [] => []
  end.

(** [re.match(r"{{[A-Z_]+}}", s)]: the class repetition is greedy, and
    since the closing brace is outside the class only the longest run
    can be followed by the closing braces.  Payload is the whole match. *)
Definition pattern (s : text) : option (text * nat) :=
  match s with
  | "{" :: "{" :: r =>
      let run := span_while is_upper_us r in
      match run with
      | [] => None
      | _ :: _ =>
          if startswith (str "}}") (drop (length run) r)
          then Some (str "{{" ++ run ++ str "}}", 4 + length run)
          else None
      end
  | _ => None
  end.

Record ScanResult := {
  sr_required : list text;
  sr_optional : list text;
  sr_missing : list text;
  sr_unknown : list text
}.

(** One turn of the loop over [PLACEHOLDERS]. *)
Definition classify_builtin (found : gset text) (acc : ScanResult)
    (entry : text * PlaceholderInfo) : ScanResult :=
  let placeholder := entry.1 in
  if decide (placeholder ∈ found) then
    if required entry.2 then
      {| sr_required := sr_required acc ++ [placeholder];
         sr_optional := sr_optional acc;
         sr_missing := sr_missing acc;
         sr_unknown := sr_unknown acc |}
    else
      {| sr_required := sr_required acc;
         sr_optional := sr_optional acc ++ [placeholder];
         sr_missing := sr_missing acc;
         sr_unknown := sr_unknown acc |}
  else
    {| sr_required := sr_required acc;
       sr_optional := sr_optional acc;
       sr_missing := sr_missing acc ++ [placeholder];
       sr_unknown := sr_unknown acc |}.

(** One turn of the loop over the found set. *)
Definition classify_found (acc : ScanResult) (found : text) : ScanResult :=
  if dict_mem PLACEHOLDERS found then acc
  else
    {| sr_required := sr_required acc;
       sr_optional := sr_optional acc;
       sr_missing := sr_missing acc;
       sr_unknown := sr_unknown acc ++ [found] |}.

(** [set(re.findall(pattern, template))] *)
Definition found_placeholders (template : text) : gset text :=
  list_to_set (hits (finditer pattern template)).

Definition find_placeholders_in_template (template : text) : ScanResult :=
  let result :=
    {| sr_required := []; sr_optional := []; sr_missing := [];
       sr_unknown := [] |} in
  let found := found_placeholders template in
  let result := fold_left (classify_builtin found) PLACEHOLDERS result in
  fold_left classify_found (elements found) result.

(** [s.replace(old, new)] *)
Definition replace_at (old : text) (s : text) : option (unit * nat) :=
  if startswith old s then Some (tt, length old) else None.

Definition replace_piece (new : text) (p : @piece unit) : text :=
  match p with
  | Lit c => [c]
  | Hit _ _ => new
  end.

Definition str_replace (old new s : text) : text :=
  match old with
  | [] => new ++ flat_map (fun c => c :: new) s
  | _ :: _ => flat_map (replace_piece new) (finditer (replace_at old) s)
  end.

(** The search text a key of [values] stands for. *)
Definition wrap_key (placeholder : text) : text :=
  if startswith (str "{{") placeholder then placeholder
  else str "{{" ++ placeholder ++ str "}}".

(** The text of [str(value) if value is not None else ""] when the
    conversion returns. *)
Definition value_text (value : PyVal) : text :=
  match value with
  | PyNone => []
  | _ => py_str value
  end.

(** [str(value) if value is not None else ""] *)
Definition value_str (value : PyVal) : result text :=
  match value with
  | PyNone => Ok []
  | _ => str_value value
  end.

(** The loop over [values.items()], from the text built so far. *)
Fixpoint replace_loop (acc : text) (values : dict PyVal) : result text :=
  match values with
  | [] => Ok acc
  | (placeholder, value) :: rest =>
      v <- value_str value ;;;
      replace_loop (str_replace (wrap_key placeholder) v acc) rest
  end.

Definition replace_placeholders (template : text) (values : dict PyVal)
    : result text :=
  replace_loop template values.

(** The text the loop builds when every conversion returns. *)
Definition replaced (template : text) (values : dict PyVal) : text :=
  fold_left
    (fun acc kv => str_replace (wrap_key kv.1) (value_text kv.2) acc)
    values template.

(** Every value of the mapping can be converted. *)
Definition convertible (values : dict PyVal) : Prop :=
  Forall (fun kv => value_str kv.2 = Ok (value_text kv.2)) values.

(** Names without a brace character. *)
Definition brace_free (N : text) : Prop :=
  Forall (fun c => c <> "{" /\ c <> "}") N.

(** [k] is the key for the name [K]: the name itself or the name with
    its delimiters, the two spellings the function accepts. *)
Definition key_for (k K : text) : Prop :=
  brace_free K /\ (k = K \/ k = token K).

(** Characters [str.strip] removes (code points below 256). *)
Definition is_space (c : ascii) : bool :=
  let n := nat_of_ascii c in
  ((9 <=? n)%nat && (n <=? 13)%nat) || ((28 <=? n)%nat && (n <=? 32)%nat)
  || (n =? 133)%nat || (n =? 160)%nat.

Fixpoint lstrip (s : text) : text :=
  match s with
  | c :: s' => if is_space c then lstrip s' else s
  | [] => []
  end.

Definition strip (s : text) : text := rev (lstrip (rev (lstrip s))).

(** [s.split(sep)] for a one-character separator. *)
Fixpoint split (sep : ascii) (s : text) : list text :=
  match s with
  | [] => [[]]
  | c :: s' =>
      if decide (c = sep) then [] :: split sep s'
      else match split sep s' with
           | h :: t => (c :: h) :: t
           | [] => [[c]]
           end
  end.

(** Truth value of an optional string ([None] and [""] are falsy). *)
Definition truthy (v : option text) : bool :=
  match v with
  | Some (_ :: _) => true
  | _ => false
  end.

Section Validate.
(** [float(value)] succeeds; the builtin is taken as given. *)
Variable float_parses : text -> bool.

Definition validate_placeholder_value (placeholder_type : text)
    (value : option text) (options : option text) : bool :=
  match value with
  | Some ((_ :: _) as v) =>
      if decide (placeholder_type = str "numero") then float_parses v
      else if decide (placeholder_type = str "url") then
        startswith (str "http://") v || startswith (str "https://") v
      else if decide (placeholder_type = str "desplegable") then
        match options with
        | Some ((_ :: _) as opts) =>
            let options_list := map strip (split "," opts) in
            bool_decide (v ∈ options_list)
        | _ => true
        end
      else true
  | _ => true
  end.
End Validate.

End HtmlProcessor.

(** ** telegram_bot/models/placeholder.py *)

Module Placeholder.
Import HtmlProcessor.

Record CustomPlaceholder := {
  id : option Z;
  site_id : Z;
  placeholder_name : text;
  display_name : text;
  placeholder_type : text;
  options : option text
}.

Section Validate.
Variable float_parses : text -> bool.

Definition validate_value (self : CustomPlaceholder) (value : option text) : bool :=
  match value with
  | Some ((_ :: _) as v) =>
      if decide (placeholder_type self = str "numero") then float_parses v
      else if decide (placeholder_type self = str "url") then
        startswith (str "http://") v || startswith (str "https://") v
      else if decide (placeholder_type self = str "desplegable") then
        let options_list :=
          match options self with
          | Some ((_ :: _) as opts) => map strip (split "," opts)
          | _ => []
          end in
        bool_decide (v ∈ options_list)
      else true
  | _ => true
  end.
End Validate.
End Placeholder.

(** ** The process state: memory, row store, log, outgoing messages *)

Module Runtime.
Import Placeholder.

(** [core.states.State]; [auto()] numbers the members from 1. *)
Inductive State :=
| IDLE
| REGISTERING
| CONFIGURING_SITE
| CONFIGURING_SFTP
| UPLOADING_TEMPLATE
| CREATING_CONTENT
| UPLOADING_IMAGE
| EDITING_CONTENT
| MANAGING_CATEGORIES
| MANAGING_FEATURED
| CONFIRMING_PUBLISH
| CONFIGURING_CUSTOM_PLACEHOLDER.

Definition State_value (s : State) : Z :=
  match s with
  | IDLE => 1
  | REGISTERING => 2
  | CONFIGURING_SITE => 3
  | CONFIGURING_SFTP => 4
  | UPLOADING_TEMPLATE => 5
  | CREATING_CONTENT => 6
  | UPLOADING_IMAGE => 7
  | EDITING_CONTENT => 8
  | MANAGING_CATEGORIES => 9
  | MANAGING_FEATURED => 10
  | CONFIRMING_PUBLISH => 11
  | CONFIGURING_CUSTOM_PLACEHOLDER => 12
  end%Z.

(** [State(value)]; [None] stands for the [ValueError] of the enum. *)
Definition State_of_value (z : Z) : option State :=
  match z with
  | 1 => Some IDLE
  | 2 => Some REGISTERING
  | 3 => Some CONFIGURING_SITE
  | 4 => Some CONFIGURING_SFTP
  | 5 => Some UPLOADING_TEMPLATE
  | 6 => Some CREATING_CONTENT
  | 7 => Some UPLOADING_IMAGE
  | 8 => Some EDITING_CONTENT
  | 9 => Some MANAGING_CATEGORIES
  | 10 => Some MANAGING_FEATURED
  | 11 => Some CONFIRMING_PUBLISH
  | 12 => Some CONFIGURING_CUSTOM_PLACEHOLDER
  | _ => None
  end%Z.

(** A draft record of the custom-placeholder sub-flow (the dict the
    callback handlers append to ["placeholder_configs"]). *)
Record PlaceholderConfig := {
  cfg_placeholder_name : text;
  cfg_display_name : text;
  cfg_placeholder_type : text;
  cfg_options : option text
}.

(** Values kept in the scratch dictionary of a conversation. *)
Inductive Value :=
| VNone
| VInt (z : Z)
| VStr (s : text)
| VStrList (l : list text)
| VConfigs (l : list PlaceholderConfig).

Record ConversationData := {
  state : State;
  data : gmap string Value
}.

(** Tables of the SQLite file that the modelled code touches. *)
Record UserRow := {
  u_id : Z;
  u_telegram_id : Z;
  u_status : text
}.

Record SiteRow := {
  s_id : Z;
  s_user_id : Z
}.

Record StateRow := {
  telegram_id : Z;
  state_enum : Z;
  state_data : option text
}.

Record Db := {
  reachable : bool;                      (* statements execute at all *)
  connected : bool;                      (* the connection is open: when
                                            statements fail, [rollback]
                                            still works *)
  users : list UserRow;
  sites : list SiteRow;
  user_states : option (list StateRow);  (* [None]: no such table *)
  custom_placeholders : list CustomPlaceholder;
  next_placeholder_id : Z                (* AUTOINCREMENT counter *)
}.

Inductive Level := DEBUG | INFO | ERROR.

(** What the handler tells the user. *)
Inductive Message :=
| MsgCompleted (success_count total : nat)
| MsgNothingConfigured
| MsgPrompt (placeholder : text)
| MsgMainMenu.

Record World := {
  conversations : gmap Z ConversationData;
  db : Db;
  log : list (Level * string);
  outbox : list Message
}.

Definition set_conversations (c : gmap Z ConversationData) (w : World) : World :=
  {| conversations := c; db := db w; log := log w; outbox := outbox w |}.

Definition set_db (d : Db) (w : World) : World :=
  {| conversations := conversations w; db := d; log := log w;
     outbox := outbox w |}.

Definition set_user_states (t : option (list StateRow)) (d : Db) : Db :=
  {| reachable := reachable d; connected := connected d;
     users := users d; sites := sites d;
     user_states := t; custom_placeholders := custom_placeholders d;
     next_placeholder_id := next_placeholder_id d |}.

Definition set_custom_placeholders (l : list CustomPlaceholder) (n : Z)
    (d : Db) : Db :=
  {| reachable := reachable d; connected := connected d;
     users := users d; sites := sites d;
     user_states := user_states d; custom_placeholders := l;
     next_placeholder_id := n |}.

(** Computations over the process state that may raise. *)
Definition M (A : Type) : Type := World -> result A * World.

Definition ret {A} (a : A) : M A := fun w => (Ok a, w).

Definition raise {A} (e : exn) : M A := fun w => (Raise e, w).

Definition mbind {A B} (m : M A) (k : A -> M B) : M B :=
  fun w =>
    match m w with
    | (Ok a, w') => k a w'
    | (Raise e, w') => (Raise e, w')
    end.

(** [try: m except Exception as e: h e] *)
Definition try_except {A} (m : M A) (h : exn -> M A) : M A :=
  fun w =>
    match m w with
    | (Ok a, w') => (Ok a, w')
    | (Raise e, w') => h e w'
    end.

Definition get_world : M World := fun w => (Ok w, w).

Definition modify (f : World -> World) : M unit := fun w => (Ok tt, f w).

Definition logger (lvl : Level) (msg : string) : M unit :=
  modify (fun w =>
    {| conversations := conversations w; db := db w;
       log := log w ++ [(lvl, msg)]; outbox := outbox w |}).

Definition send (m : Message) : M unit :=
  modify (fun w =>
    {| conversations := conversations w; db := db w; log := log w;
       outbox := outbox w ++ [m] |}).

(** [cur.execute(...)] raises when the store cannot be reached. *)
Definition execute : M Db :=
  fun w => if reachable (db w) then (Ok (db w), w) else (Raise DbError, w).

(** [conn.rollback()] raises on a connection that is closed or was
    never opened. *)
Definition rollback : M unit :=
  fun w =>
    if reachable (db w) || connected (db w) then (Ok tt, w)
    else (Raise DbError, w).

(** The [@breadcrumb] decorator: a debug line on entry, and one on
    normal exit. *)
Definition breadcrumb {A} (entry exit : string) (handler : M A) : M A :=
  mbind (logger DEBUG entry) (fun _ =>
  mbind handler (fun result =>
  mbind (logger DEBUG exit) (fun _ => ret result))).

(** [for x in l: body x] *)
Fixpoint for_each {A} (l : list A) (body : A -> M unit) : M unit :=
  match l with
  | [] => ret tt
  | x :: l' => mbind (body x) (fun _ => for_each l' body)
  end.

End Runtime.

Notation "x <~ m ;; k" := (Runtime.mbind m (fun x => k))
  (at level 100, m at next level, right associativity).
Notation "m ;; k" := (Runtime.mbind m (fun _ => k))
  (at level 100, right associativity).

(** ** telegram_bot/models: the lookups and the insert the core relies on *)

Module Models.
Import Placeholder Runtime.

(** [User.get_by_telegram_id]: any failure of the query is logged and
    answered with [None]. *)
Definition User_get_by_telegram_id (tid : Z) : M (option UserRow) :=
  try_except
    (d <~ execute ;;
     ret (List.find (fun u => (u_telegram_id u =? tid)%Z) (users d)))
    (fun _ =>
       logger ERROR "Error al obtener usuario por telegram_id" ;;
       ret None).

(** [User.is_active] *)
Definition is_active (u : UserRow) : bool :=
  bool_decide (u_status u = str "active").

(** What the user table says about a Telegram id: [true] exactly when
    the user exists and is active. *)
Definition active_user (d : Db) (tid : Z) : bool :=
  match List.find (fun u => (u_telegram_id u =? tid)%Z) (users d) with
  | Some u => is_active u
  | None => false
  end.

(** [Site.get_by_user_id] *)
Definition Site_get_by_user_id (user_id : Z) : M (list SiteRow) :=
  try_except
    (d <~ execute ;;
     ret (List.filter (fun s => (s_user_id s =? user_id)%Z) (sites d)))
    (fun _ =>
       logger ERROR "Error al obtener sitios por user_id" ;;
       ret []).

(** [UNIQUE (site_id, placeholder_name)] of the table. *)
Definition unique_conflict (rows : list CustomPlaceholder)
    (site : Z) (name_ : text) : bool :=
  existsb
    (fun r => (site_id r =? site)%Z
              && bool_decide (placeholder_name r = name_))
    rows.

(** [CustomPlaceholder.create]: the insert, then the row read back; a
    failed insert is rolled back, logged and answered with [None].  The
    rollback is the first call of the handler: when it raises, the
    exception leaves [create]. *)
Definition CustomPlaceholder_create (data : CustomPlaceholder)
    : M (option CustomPlaceholder) :=
  try_except
    (d <~ execute ;;
     if unique_conflict (custom_placeholders d) (site_id data)
          (placeholder_name data)
     then raise DbError
     else
       let placeholder_id := next_placeholder_id d in
       let row :=
         {| id := Some placeholder_id;
            site_id := site_id data;
            placeholder_name := placeholder_name data;
            display_name := display_name data;
            placeholder_type := placeholder_type data;
            options := options data |} in
       modify (fun w =>
         set_db (set_custom_placeholders (custom_placeholders d ++ [row])
                   (placeholder_id + 1) d) w) ;;
       ret (Some row))
    (fun _ =>
       rollback ;;
       logger ERROR "Error al crear placeholder personalizado" ;;
       ret None).

(** [s.endswith(p)] *)
Definition endswith (p s : text) : bool := startswith (rev p) (rev s).

(** [name[2:-2]] when the name is written with its delimiters. *)
Definition strip_delimiters (name_ : text) : text :=
  if startswith (str "{{") name_ && endswith (str "}}") name_
  then take (length name_ - 4) (drop 2 name_)
  else name_.

(** [Site.add_custom_placeholder] (the per-object cache is left out). *)
Definition add_custom_placeholder (site : SiteRow)
    (name_ display type_ : text) (opts : option text)
    : M (option CustomPlaceholder) :=
  let name_ := strip_delimiters name_ in
  CustomPlaceholder_create
    {| id := None; site_id := s_id site; placeholder_name := name_;
       display_name := display; placeholder_type := type_;
       options := opts |}.
End Models.

(** ** telegram_bot/core/states.py *)

Module States.
Import Runtime Models.

(** [ConversationData()] *)
Definition new_conversation (initial_state : State) : ConversationData :=
  {| state := initial_state; data := ∅ |}.

Definition update_state (c : ConversationData) (new_state : State)
    : ConversationData :=
  {| state := new_state; data := data c |}.

Definition conv_set_data (c : ConversationData) (key : string) (value : Value)
    : ConversationData :=
  {| state := state c; data := <[key := value]> (data c) |}.

Definition conv_get_data (c : ConversationData) (key : string)
    (default : Value) : Value :=
  match data c !! key with
  | Some v => v
  | None => default
  end.

Definition clear_data (c : ConversationData) : ConversationData :=
  {| state := state c; data := ∅ |}.

Section StateManager.
(** [json.loads] ([None]: the text does not parse) and [json.dumps],
    taken as given. *)
Variable json_loads : text -> option (gmap string Value).
Variable json_dumps : gmap string Value -> text.

(** [DELETE FROM user_states WHERE telegram_id = ?] and the commit. *)
Definition delete_state_row (user_id : Z) : M unit :=
  d <~ execute ;;
  match user_states d with
  | None => raise DbError
  | Some rows =>
      modify (set_db (set_user_states
        (Some (List.filter (fun r => negb (telegram_id r =? user_id)%Z) rows))
        d))
  end.

(** [json.loads(row['state_data']) if row['state_data'] else {}] *)
Definition load_state_data (row : StateRow) : M (gmap string Value) :=
  match state_data row with
  | Some ((_ :: _) as raw) =>
      match json_loads raw with
      | Some d => ret d
      | None => raise (ValueError (str "JSONDecodeError"))
      end
  | _ => ret ∅
  end.

(** Body of the loop over the fetched rows. *)
Definition restore_row (row : StateRow) : M unit :=
  let user_id := telegram_id row in
  state_data <~ load_state_data row ;;
  db_user <~ User_get_by_telegram_id user_id ;;
  match db_user with
  | Some u =>
      if is_active u then
        match State_of_value (state_enum row) with
        | None => raise (ValueError (str "not a valid State"))
        | Some st =>
            modify (fun w =>
              set_conversations
                (<[user_id := {| state := st; data := state_data |}]>
                   (conversations w)) w) ;;
            logger DEBUG "Estado restaurado para usuario"
        end
      else
        logger INFO "Usuario encontrado pero no activo" ;;
        delete_state_row user_id
  | None =>
      logger INFO "Usuario no encontrado en la base de datos" ;;
      delete_state_row user_id
  end.

(** The [try] block of [_initialize_from_db]. *)
Definition _initialize_from_db_body : M unit :=
  d <~ execute ;;
  match user_states d with
  | None =>
      modify (set_db (set_user_states (Some []) d)) ;;
      logger INFO "Tabla user_states creada correctamente"
  | Some rows =>
      match rows with
      | _ :: _ =>
          for_each rows restore_row ;;
          logger INFO "Estados cargados desde la base de datos"
      | [] =>
          logger INFO "No se encontraron estados guardados"
      end
  end.

Definition _initialize_from_db : M unit :=
  try_except _initialize_from_db_body
    (fun _ =>
       logger ERROR "Error al inicializar estados desde la base de datos" ;;
       logger ERROR "traceback").

(** The process state before [StateManager()] runs over a store. *)
Definition fresh_world (d : Db) : World :=
  {| conversations := ∅; db := d; log := []; outbox := [] |}.

(** [StateManager()] over a store [d]. *)
Definition StateManager_init (d : Db) : result unit * World :=
  _initialize_from_db (fresh_world d).

(** A stored row the reload can read: its scratch text parses, and
    its phase number names a phase. *)
Definition row_wellformed (row : StateRow) : Prop :=
  match state_data row with
  | Some ((_ :: _) as raw) => is_Some (json_loads raw)
  | _ => True
  end /\ is_Some (State_of_value (state_enum row)).

(** [INSERT OR REPLACE INTO user_states] and the commit. *)
Definition upsert_state_row (row : StateRow) : M unit :=
  d <~ execute ;;
  match user_states d with
  | None => raise DbError
  | Some rows =>
      modify (set_db (set_user_states
        (Some (List.filter
                 (fun r => negb (telegram_id r =? telegram_id row)%Z) rows
               ++ [row]))
        d))
  end.

Definition _save_to_db (user_id : Z) : M unit :=
  try_except
    (w <~ get_world ;;
     match conversations w !! user_id with
     | Some conversation =>
         upsert_state_row
           {| telegram_id := user_id;
              state_enum := State_value (state conversation);
              state_data := Some (json_dumps (data conversation)) |} ;;
         logger DEBUG "Estado del usuario guardado en la base de datos"
     | None => ret tt
     end)
    (fun _ => logger ERROR "Error al guardar estado en la base de datos").

Definition get_conversation (user_id : Z) : M ConversationData :=
  w <~ get_world ;;
  match conversations w !! user_id with
  | Some c => ret c
  | None =>
      let c := new_conversation IDLE in
      modify (set_conversations (<[user_id := c]> (conversations w))) ;;
      ret c
  end.

(** Write a changed conversation object back; it is the object stored
    under [user_id], mutated in place. *)
Definition put_conversation (user_id : Z) (c : ConversationData) : M unit :=
  modify (fun w => set_conversations (<[user_id := c]> (conversations w)) w).

Definition set_state (user_id : Z) (st : State) : M unit :=
  c <~ get_conversation user_id ;;
  put_conversation user_id (update_state c st) ;;
  _save_to_db user_id ;;
  logger INFO "Estado de usuario actualizado".

Definition get_state (user_id : Z) : M State :=
  c <~ get_conversation user_id ;;
  ret (state c).

Definition set_data (user_id : Z) (key : string) (value : Value) : M unit :=
  c <~ get_conversation user_id ;;
  put_conversation user_id (conv_set_data c key value) ;;
  _save_to_db user_id.

Definition get_data (user_id : Z) (key : string) (default : Value) : M Value :=
  c <~ get_conversation user_id ;;
  ret (conv_get_data c key default).

Definition clear_user_data (user_id : Z) : M unit :=
  w <~ get_world ;;
  match conversations w !! user_id with
  | Some c =>
      put_conversation user_id (clear_data c) ;;
      _save_to_db user_id
  | None => ret tt
  end.

Definition reset_user (user_id : Z) : M unit :=
  w <~ get_world ;;
  match conversations w !! user_id with
  | Some _ =>
      modify (set_conversations (delete user_id (conversations w))) ;;
      try_except
        (delete_state_row user_id ;;
         logger INFO "Estado del usuario eliminado de la base de datos")
        (fun _ =>
           logger ERROR "Error al eliminar estado de la base de datos")
  | None => ret tt
  end.

Definition clear_state (user_id : Z) : M unit :=
  w <~ get_world ;;
  match conversations w !! user_id with
  | Some c =>
      put_conversation user_id (update_state c IDLE) ;;
      _save_to_db user_id
  | None => ret tt
  end.
End StateManager.
End States.

(** ** telegram_bot/core/handlers.py *)

Module Handlers.
Import Placeholder Runtime Models States.

(** The three lists the template-upload handler checks an upload
    against. *)
Definition required_placeholders : list text :=
  [ str "{{TITLE}}"; str "{{META_DESCRIPTION}}"; str "{{FEATURE_IMAGE}}";
    str "{{PUBLISHED_TIME}}"; str "{{CATEGORY}}"; str "{{SITE_URL}}";
    str "{{ARTICLE_URL}}"; str "{{CONTENT}}" ].

Definition auto_placeholders : list text :=
  [ str "{{SITE_NAME}}"; str "{{SLUG}}" ].

Definition optional_placeholders : list text :=
  [ str "{{LAST_MODIFIED}}"; str "{{FEATURE_IMAGE_ALT}}";
    str "{{READING_TIME}}"; str "{{SOURCE_LIST}}"; str "{{POST_MONTH}}" ].

(** Truth value of a scratch entry. *)
Definition is_true (v : Value) : bool :=
  match v with
  | VNone => false
  | VInt z => negb (z =? 0)%Z
  | VStr s => match s with [] => false | _ => true end
  | VStrList l => match l with [] => false | _ => true end
  | VConfigs l => match l with [] => false | _ => true end
  end.

(** [len(v)] *)
Definition py_len (v : Value) : M Z :=
  match v with
  | VStr s => ret (Z.of_nat (length s))
  | VStrList l => ret (Z.of_nat (length l))
  | VConfigs l => ret (Z.of_nat (length l))
  | _ => raise TypeError
  end.

(** [v >= n] for an integer [n] *)
Definition py_ge (v : Value) (n : Z) : M bool :=
  match v with
  | VInt z => ret (n <=? z)%Z
  | _ => raise TypeError
  end.

(** [v[i]] on a list of names, negative indices counting from the end *)
Definition py_index (v : Value) (i : Value) : M text :=
  match v, i with
  | VStrList l, VInt z =>
      let n := Z.of_nat (length l) in
      let j := (if z <? 0 then z + n else z)%Z in
      if (j <? 0)%Z then raise (KeyError (str "IndexError"))
      else match l !! Z.to_nat j with
           | Some x => ret x
           | None => raise (KeyError (str "IndexError"))
           end
  | _, _ => raise TypeError
  end.

(** [value or []] read as the draft list *)
Definition configs_or_empty (v : Value) : M (list PlaceholderConfig) :=
  if is_true v then
    match v with
    | VConfigs l => ret l
    | _ => raise TypeError
    end
  else ret [].






Section Commit.
Variable json_dumps : gmap string Value -> text.

(** [DELETE FROM custom_placeholders WHERE site_id = ?] and the
    commit. *)
Definition delete_site_placeholders (site : Z) : M unit :=
  d <~ execute ;;
  modify (set_db (set_custom_placeholders
    (List.filter (fun r => negb (site_id r =? site)%Z)
       (custom_placeholders d))
    (next_placeholder_id d) d)).

(** Body of the loop over the draft records; the counter is
    threaded through. *)
Definition create_one (site : SiteRow) (success_count : nat)
    (config : PlaceholderConfig) : M nat :=
  try_except
    (new_placeholder <~
       add_custom_placeholder site (cfg_placeholder_name config)
         (cfg_display_name config) (cfg_placeholder_type config)
         (cfg_options config) ;;
     match new_placeholder with
     | Some _ => ret (S success_count)
     | None => ret success_count
     end)
    (fun _ =>
       logger ERROR "Error al crear placeholder" ;;
       ret success_count).

Fixpoint create_all (site : SiteRow) (success_count : nat)
    (configs : list PlaceholderConfig) : M nat :=
  match configs with
  | [] => ret success_count
  | config :: rest =>
      n <~ create_one site success_count config ;;
      create_all site n rest
  end.

(** [send_main_menu]: the lookup of the user only shapes the keyboard
    of the message. *)
Definition send_main_menu (user_id : Z) : M unit :=
  breadcrumb "➡️ send_main_menu" "⬅️ send_main_menu"
    (db_user <~ User_get_by_telegram_id user_id ;;
     send MsgMainMenu).

Definition configure_next_custom_placeholder (user_id : Z) : M unit :=
  breadcrumb "➡️ configure_next_custom_placeholder"
    "⬅️ configure_next_custom_placeholder"
  (custom_placeholders <~
    get_data user_id "custom_placeholders" VNone ;;
  current_index <~
    get_data user_id "current_placeholder_index" VNone ;;
  finished <~
    (if negb (is_true custom_placeholders) then ret true
     else n <~ py_len custom_placeholders ;; py_ge current_index n) ;;
  if finished : bool then
    v <~ get_data user_id "placeholder_configs" VNone ;;
    placeholder_configs <~ configs_or_empty v ;;
    db_user <~ User_get_by_telegram_id user_id ;;
    sites <~
      match db_user with
      | Some u => Site_get_by_user_id (u_id u)
      | None => ret []
      end ;;
    match sites, placeholder_configs with
    | site :: _, _ :: _ =>
        try_except
          (delete_site_placeholders (s_id site))
          (fun _ => logger ERROR "Error al limpiar placeholders existentes") ;;
        success_count <~ create_all site 0 placeholder_configs ;;
        send (MsgCompleted success_count (length placeholder_configs))
    | _, _ => send MsgNothingConfigured
    end ;;
    set_state json_dumps user_id IDLE ;;
    send_main_menu user_id
  else
    current_placeholder <~ py_index custom_placeholders current_index ;;
    send (MsgPrompt current_placeholder)).
End Commit.
End Handlers.

(** Unfolds the operations of the monad [M] in goal and hypotheses. *)
Ltac run_m :=
  unfold Runtime.breadcrumb, Runtime.rollback in *;
  unfold Runtime.mbind, Runtime.ret, Runtime.raise, Runtime.try_except,
    Runtime.modify, Runtime.logger, Runtime.send, Runtime.get_world,
    Runtime.execute, Runtime.set_conversations, Runtime.set_db in *;
  cbn [Runtime.conversations Runtime.db Runtime.log Runtime.outbox
       fst snd] in *.


(** ** Reading the store back: helpers for the statements about reload *)

Module StatesSpec.
Import Runtime Models States.

(** The scratch dictionary a stored row decodes to, when it decodes. *)
Definition decoded_data (json_loads : text -> option (gmap string Value))
    (row : StateRow) : option (gmap string Value) :=
  match state_data row with
  | Some ((_ :: _) as raw) => json_loads raw
  | _ => Some ∅
  end.

(** The conversation a stored row stands for, when its phase number and
    its scratch text can be read. *)
Definition restored (json_loads : text -> option (gmap string Value))
    (row : StateRow) : option ConversationData :=
  match State_of_value (state_enum row), decoded_data json_loads row with
  | Some st, Some sd => Some {| state := st; data := sd |}
  | _, _ => None
  end.

(** The row [_save_to_db] writes for a conversation. *)
Definition row_of (json_dumps : gmap string Value -> text) (user_id : Z)
    (c : ConversationData) : StateRow :=
  {| telegram_id := user_id;
     state_enum := State_value (state c);
     state_data := Some (json_dumps (data c)) |}.

(** The rows of the other users. *)
Definition rows_without (user_id : Z) (rows : list StateRow) : list StateRow :=
  List.filter (fun r => negb (telegram_id r =? user_id)%Z) rows.

(** The turn of the reload loop on [row] raises: the scratch text of
    the row does not parse, or its user is active and its phase number
    names no phase. *)
Definition row_aborts (json_loads : text -> option (gmap string Value))
    (d : Db) (row : StateRow) : bool :=
  match decoded_data json_loads row, State_of_value (state_enum row) with
  | None, _ => true
  | Some _, None => active_user d (telegram_id row)
  | Some _, Some _ => false
  end.

(** The rows the reload loop gets through: those before the first one
    whose turn raises. *)
Fixpoint handled (json_loads : text -> option (gmap string Value))
    (d : Db) (rows : list StateRow) : list StateRow :=
  match rows with
  | [] => []
  | row :: rest =>
      if row_aborts json_loads d row then []
      else row :: handled json_loads d rest
  end.

(** The conversation an operation on [uid] starts from: the one in
    memory, or a fresh idle one for a user not in memory. *)
Definition current (w : World) (uid : Z) : ConversationData :=
  match conversations w !! uid with
  | Some c => c
  | None => new_conversation IDLE
  end.

(** The same store once it can be reached. *)
Definition back_online (d : Db) : Db :=
  {| reachable := true; connected := true; users := users d; sites := sites d;
     user_states := user_states d;
     custom_placeholders := custom_placeholders d;
     next_placeholder_id := next_placeholder_id d |}.
End StatesSpec.

(** ** Vocabulary for the properties of the template functions *)

Module HtmlSpec.
Import HtmlProcessor.

(** A template cut into stretches of plain text and placeholder
    tokens. *)
Inductive item :=
| Text (s : text)
| Tok (N : text).

Definition item_text (i : item) : text :=
  match i with
  | Text s => s
  | Tok N => token N
  end.

Definition unparse (items : list item) : text := flat_map item_text items.

(** Texts without an opening brace. *)
Definition no_open (s : text) : Prop := Forall (fun c => c <> "{") s.

Definition item_ok (i : item) : Prop :=
  match i with
  | Text s => no_open s
  | Tok N => brace_free N
  end.

(** The value of the first entry of [values] whose key stands for the
    name [N]. *)
Definition value_for (values : dict PyVal) (N : text) : option PyVal :=
  snd <$> List.find (fun kv => bool_decide (wrap_key kv.1 = token N)) values.

(** One substitution pass over the pieces of a template. *)
Definition render_item (values : dict PyVal) (i : item) : text :=
  match i with
  | Text s => s
  | Tok N =>
      match value_for values N with
      | Some v => value_text v
      | None => token N
      end
  end.

(** The effect of replacing the token of [K] by [new] on one piece. *)
Definition subst_item (K new : text) (i : item) : item :=
  match i with
  | Text s => Text s
  | Tok N => if decide (N = K) then Text new else Tok N
  end.
(** Tokens whose name holds no line break. *)
Definition one_line (i : item) : Prop :=
  match i with
  | Text _ => True
  | Tok N => "010" ∉ N
  end.

(** The names of the tokens of a template, in the order of the text,
    each as often as its token stands there. *)
Definition tok_names (items : list item) : list text :=
  flat_map (fun i => match i with Text _ => [] | Tok N => [N] end) items.

(** The pieces the scanner of placeholder_bot.py cuts a well-formed
    item into. *)
Definition item_pieces (i : item) : list (@piece text) :=
  match i with
  | Text s => map Lit s
  | Tok N => [Hit N (token N)]
  end.
End HtmlSpec.

(** ** telegram_bot/models/placeholder.py: the table operations *)

Module PlaceholderStore.
Import HtmlProcessor Placeholder Runtime Models.

(** [WHERE id = ?] *)
Definition has_id (i : Z) (r : CustomPlaceholder) : bool :=
  bool_decide (id r = Some i).

(** [WHERE site_id = ? AND placeholder_name = ?] *)
Definition has_name (site : Z) (name_ : text) (r : CustomPlaceholder) : bool :=
  (site_id r =? site)%Z && bool_decide (placeholder_name r = name_).

(** [self.id] when it is truthy. *)
Definition truthy_id (self : CustomPlaceholder) : option Z :=
  match id self with
  | Some i => if (i =? 0)%Z then None else Some i
  | None => None
  end.

Definition with_id (i : Z) (self : CustomPlaceholder) : CustomPlaceholder :=
  {| id := Some i; site_id := site_id self;
     placeholder_name := placeholder_name self;
     display_name := display_name self;
     placeholder_type := placeholder_type self;
     options := options self |}.

Definition put_rows (rows : list CustomPlaceholder) (next : Z) : M unit :=
  modify (fun w => set_db (set_custom_placeholders rows next (db w)) w).

(** [CustomPlaceholder.get_by_id] *)
Definition CustomPlaceholder_get_by_id (placeholder_id : Z)
    : M (option CustomPlaceholder) :=
  try_except
    (d <~ execute ;;
     ret (List.find (has_id placeholder_id) (custom_placeholders d)))
    (fun _ =>
       logger ERROR "Error al obtener placeholder por ID" ;;
       ret None).

(** [CustomPlaceholder.get_by_site_id] *)
Definition CustomPlaceholder_get_by_site_id (site : Z)
    : M (list CustomPlaceholder) :=
  try_except
    (d <~ execute ;;
     ret (List.filter (fun r => (site_id r =? site)%Z)
            (custom_placeholders d)))
    (fun _ =>
       logger ERROR "Error al obtener placeholders por site_id" ;;
       ret []).

(** [CustomPlaceholder.get_by_placeholder_name] *)
Definition CustomPlaceholder_get_by_placeholder_name (site : Z) (name_ : text)
    : M (option CustomPlaceholder) :=
  try_except
    (d <~ execute ;;
     ret (List.find (has_name site name_) (custom_placeholders d)))
    (fun _ =>
       logger ERROR "Error al obtener placeholder por nombre" ;;
       ret None).

(** [CustomPlaceholder.save]: an object with a truthy id updates the
    row of that id, another one is inserted and takes the id of the new
    row.  The answer is the success flag and the object after the
    call.  A failed statement is rolled back first; when the rollback
    raises, the exception leaves [save]. *)
Definition CustomPlaceholder_save (self : CustomPlaceholder)
    : M (bool * CustomPlaceholder) :=
  try_except
    (d <~ execute ;;
     match truthy_id self with
     | Some i =>
         let others :=
           List.filter (fun r => negb (has_id i r)) (custom_placeholders d) in
         if existsb (has_id i) (custom_placeholders d)
            && unique_conflict others (site_id self) (placeholder_name self)
         then raise DbError
         else
           put_rows
             (map (fun r => if has_id i r then self else r)
                (custom_placeholders d))
             (next_placeholder_id d) ;;
           ret (true, self)
     | None =>
         if unique_conflict (custom_placeholders d) (site_id self)
              (placeholder_name self)
         then raise DbError
         else
           let lastrowid := next_placeholder_id d in
           put_rows (custom_placeholders d ++ [with_id lastrowid self])
             (lastrowid + 1) ;;
           ret (true, with_id lastrowid self)
     end)
    (fun _ =>
       rollback ;;
       logger ERROR "Error al guardar placeholder" ;;
       ret (false, self)).

(** [CustomPlaceholder.delete] *)
Definition CustomPlaceholder_delete (self : CustomPlaceholder) : M bool :=
  match truthy_id self with
  | None => ret false
  | Some i =>
      try_except
        (d <~ execute ;;
         put_rows
           (List.filter (fun r => negb (has_id i r)) (custom_placeholders d))
           (next_placeholder_id d) ;;
         ret true)
        (fun _ =>
           rollback ;;
           logger ERROR "Error al eliminar placeholder" ;;
           ret false)
  end.

(** What the schema guarantees of the table: every row has an id of
    its own, handed out by the counter, and no two rows of a site share
    a name. *)
Definition key_of (r : CustomPlaceholder) : Z * text :=
  (site_id r, placeholder_name r).

Definition table_ok (d : Db) : Prop :=
  (0 < next_placeholder_id d)%Z /\
  Forall (fun r => exists i, id r = Some i /\ (0 < i < next_placeholder_id d)%Z)
    (custom_placeholders d) /\
  NoDup (map id (custom_placeholders d)) /\
  NoDup (map key_of (custom_placeholders d)).

(** The rows of a site. *)
Definition rows_of_site (d : Db) (site : Z) : list CustomPlaceholder :=
  List.filter (fun r => (site_id r =? site)%Z) (custom_placeholders d).

(** [d[k] = v] on a dictionary in insertion order. *)
Fixpoint dict_set {V} (d : dict V) (k : text) (v : V) : dict V :=
  match d with
  | [] => [(k, v)]
  | (k', v') :: d' =>
      if decide (k' = k) then (k, v) :: d' else (k', v') :: dict_set d' k v
  end.

(** An entry of the dictionary [get_all_placeholders] returns: an entry
    of the builtin table, or the record built for a custom placeholder
    (whose ["required"] is [False] and ["custom"] is [True]). *)
Inductive Entry :=
| Builtin (info : PlaceholderInfo)
| Custom (description : text) (type_ : text) (options : option text).

Definition entry_required (e : Entry) : bool :=
  match e with
  | Builtin info => required info
  | Custom _ _ _ => false
  end.

Definition custom_entry (ph : CustomPlaceholder) : Entry :=
  Custom (display_name ph) (placeholder_type ph) (options ph).

(** One turn of the loop over the custom placeholders of the site. *)
Definition add_custom (all : dict Entry) (ph : CustomPlaceholder) : dict Entry :=
  dict_set all (token (placeholder_name ph)) (custom_entry ph).

(** [get_all_placeholders] of html_processor.py *)
Definition get_all_placeholders (site_id : option Z) : M (dict Entry) :=
  let all_placeholders := map (fun kv => (kv.1, Builtin kv.2)) PLACEHOLDERS in
  match site_id with
  | Some i =>
      if (i =? 0)%Z then ret all_placeholders
      else
        try_except
          (custom_placeholders <~ CustomPlaceholder_get_by_site_id i ;;
           ret (fold_left add_custom custom_placeholders all_placeholders))
          (fun _ =>
             logger ERROR "Error al obtener placeholders personalizados" ;;
             ret all_placeholders)
  | None => ret all_placeholders
  end.
End PlaceholderStore.

(** ** telegram_bot/models/site.py: the custom placeholders of a site *)

Module SiteModel.
Import Placeholder Runtime Models PlaceholderStore.

(** A [Site] object: its row and the list it caches. *)
Record Site := {
  site_row : SiteRow;
  _custom_placeholders : option (list CustomPlaceholder)
}.

Definition set_cache (l : option (list CustomPlaceholder)) (self : Site) : Site :=
  {| site_row := site_row self; _custom_placeholders := l |}.

(** [Site.get_custom_placeholders] *)
Definition get_custom_placeholders (self : Site) (force_refresh : bool)
    : M (list CustomPlaceholder * Site) :=
  match _custom_placeholders self with
  | Some l =>
      if force_refresh then
        l' <~ CustomPlaceholder_get_by_site_id (s_id (site_row self)) ;;
        ret (l', set_cache (Some l') self)
      else ret (l, self)
  | None =>
      l' <~ CustomPlaceholder_get_by_site_id (s_id (site_row self)) ;;
      ret (l', set_cache (Some l') self)
  end.

(** [Site.get_custom_placeholder_by_name] *)
Definition get_custom_placeholder_by_name (self : Site) (name_ : text)
    : M (option CustomPlaceholder) :=
  CustomPlaceholder_get_by_placeholder_name (s_id (site_row self))
    (strip_delimiters name_).

(** [Site.add_custom_placeholder] with the update of the cache. *)
Definition Site_add_custom_placeholder (self : Site)
    (name_ display type_ : text) (opts : option text)
    : M (option CustomPlaceholder * Site) :=
  new_placeholder <~
    add_custom_placeholder (site_row self) name_ display type_ opts ;;
  match new_placeholder, _custom_placeholders self with
  | Some p, Some l => ret (new_placeholder, set_cache (Some (l ++ [p])) self)
  | _, _ => ret (new_placeholder, self)
  end.

(** One keyword argument of [update_custom_placeholder]: a data
    attribute of the object with its new value, or a name the object
    has no attribute for. *)
Inductive Assign :=
| SetId (v : option Z)
| SetSiteId (v : Z)
| SetPlaceholderName (v : text)
| SetDisplayName (v : text)
| SetPlaceholderType (v : text)
| SetOptions (v : option text)
| NoAttribute.

(** [if hasattr(placeholder, key): setattr(placeholder, key, value)] *)
Definition setattr (p : CustomPlaceholder) (a : Assign) : CustomPlaceholder :=
  match a with
  | SetId v =>
      {| id := v; site_id := site_id p;
         placeholder_name := placeholder_name p;
         display_name := display_name p;
         placeholder_type := placeholder_type p; options := options p |}
  | SetSiteId v =>
      {| id := id p; site_id := v;
         placeholder_name := placeholder_name p;
         display_name := display_name p;
         placeholder_type := placeholder_type p; options := options p |}
  | SetPlaceholderName v =>
      {| id := id p; site_id := site_id p;
         placeholder_name := v;
         display_name := display_name p;
         placeholder_type := placeholder_type p; options := options p |}
  | SetDisplayName v =>
      {| id := id p; site_id := site_id p;
         placeholder_name := placeholder_name p;
         display_name := v;
         placeholder_type := placeholder_type p; options := options p |}
  | SetPlaceholderType v =>
      {| id := id p; site_id := site_id p;
         placeholder_name := placeholder_name p;
         display_name := display_name p;
         placeholder_type := v; options := options p |}
  | SetOptions v =>
      {| id := id p; site_id := site_id p;
         placeholder_name := placeholder_name p;
         display_name := display_name p;
         placeholder_type := placeholder_type p; options := v |}
  | NoAttribute => p
  end.

(** An assignment that leaves the id and the site of the object
    alone. *)
Definition keeps_place (a : Assign) : Prop :=
  match a with
  | SetId _ | SetSiteId _ => False
  | _ => True
  end.

(** The loop that puts the saved object in the place of the first
    cached one with the id. *)
Fixpoint replace_first (placeholder_id : Z) (placeholder : CustomPlaceholder)
    (l : list CustomPlaceholder) : list CustomPlaceholder :=
  match l with
  | [] => []
  | p :: l' =>
      if has_id placeholder_id p then placeholder :: l'
      else p :: replace_first placeholder_id placeholder l'
  end.

(** [Site.update_custom_placeholder] *)
Definition update_custom_placeholder (self : Site) (placeholder_id : Z)
    (kwargs : list Assign) : M (bool * Site) :=
  placeholder <~ CustomPlaceholder_get_by_id placeholder_id ;;
  match placeholder with
  | None => ret (false, self)
  | Some p =>
      if negb (site_id p =? s_id (site_row self))%Z then ret (false, self)
      else
        saved <~ CustomPlaceholder_save (fold_left setattr kwargs p) ;;
        if saved.1 : bool then
          match _custom_placeholders self with
          | Some l =>
              ret (true,
                   set_cache (Some (replace_first placeholder_id saved.2 l))
                     self)
          | None => ret (true, self)
          end
        else ret (false, self)
  end.

(** [Site.delete_custom_placeholder] *)
Definition delete_custom_placeholder (self : Site) (placeholder_id : Z)
    : M (bool * Site) :=
  placeholder <~ CustomPlaceholder_get_by_id placeholder_id ;;
  match placeholder with
  | None => ret (false, self)
  | Some p =>
      if negb (site_id p =? s_id (site_row self))%Z then ret (false, self)
      else
        success <~ CustomPlaceholder_delete p ;;
        if success : bool then
          match _custom_placeholders self with
          | Some l =>
              ret (true,
                   set_cache
                     (Some (List.filter
                              (fun q => negb (has_id placeholder_id q)) l))
                     self)
          | None => ret (true, self)
          end
        else ret (false, self)
  end.

(** The cache of a site object, when filled, holds the rows the store
    has for the site. *)
Definition cache_coherent (self : Site) (d : Db) : Prop :=
  match _custom_placeholders self with
  | Some l => l ≡ₚ rows_of_site d (s_id (site_row self))
  | None => True
  end.
End SiteModel.

(** ** telegram_bot/core/handlers.py: the check of an uploaded template *)

Module Upload.
Import HtmlProcessor Handlers.

(** [m in t] on strings *)
Fixpoint contains (m t : text) : bool :=
  startswith m t
  || match t with
     | [] => false
     | _ :: t' => contains m t'
     end.

(** [re.match(r"{{([^}]+)}}", s)]: the negated class is greedy, and
    only its longest run can be followed by the closing braces.
    Payload is group 1. *)
Definition unknown_pattern (s : text) : option (text * nat) :=
  match s with
  | "{" :: "{" :: r =>
      let run := span_while (fun c => negb (bool_decide (c = "}"))) r in
      match run with
      | [] => None
      | _ :: _ =>
          if startswith (str "}}") (drop (length run) r)
          then Some (run, 4 + length run)
          else None
      end
  | _ => None
  end.

Definition all_known : list text :=
  required_placeholders ++ optional_placeholders ++ auto_placeholders.

(** One turn of the loop over the matches. *)
Definition add_unknown (unknown_placeholders : list text) (match_ : text)
    : list text :=
  let placeholder := str "{{" ++ match_ ++ str "}}" in
  if bool_decide (placeholder ∉ all_known)
     && bool_decide (placeholder ∉ unknown_placeholders)
  then unknown_placeholders ++ [placeholder]
  else unknown_placeholders.

Record TemplateCheck := {
  missing_required : list text;
  present_optional : list text;
  present_auto : list text;
  unknown_placeholders : list text
}.

(** The four lists [handle_template_upload] and
    [handle_document_upload] compute from the uploaded text. *)
Definition check_template (html_content : text) : TemplateCheck :=
  {| missing_required :=
       List.filter (fun ph => negb (contains ph html_content))
         required_placeholders;
     present_optional :=
       List.filter (fun ph => contains ph html_content) optional_placeholders;
     present_auto :=
       List.filter (fun ph => contains ph html_content) auto_placeholders;
     unknown_placeholders :=
       fold_left add_unknown (hits (finditer unknown_pattern html_content)) []
  |}.
End Upload.

(** * Properties *)

(** ** The repository's unit tests, replayed on the embedding *)

Section UnitTests.
Import PlaceholderBot HtmlProcessor.

Example test_detect_placeholders_simple :
  detect_placeholders (str "Hola {{nombre}}, bienvenido a {{sitio}}")
  = [str "nombre"; str "sitio"].
Proof. reflexivity. Qed.

Example test_fill_template_complete :
  fill_template (str "Hola {{nombre}}") [(str "nombre", PyStr (str "Carlos"))]
  = Ok (str "Hola Carlos").
Proof. reflexivity. Qed.

Example test_fill_template_missing :
  fill_template (str "Hola {{nombre}} en {{sitio}}")
    [(str "nombre", PyStr (str "Ana"))]
  = Raise (ValueError (str "Faltan datos para: sitio")).
Proof. reflexivity. Qed.

Example test_replace_placeholders :
  replace_placeholders (str "Hello {{NAME}}") [(str "NAME", PyStr (str "World"))]
  = Ok (str "Hello World").
Proof. reflexivity. Qed.

Example test_find_placeholders_in_template :
  let info := find_placeholders_in_template (str "{{TITLE}} {{UNKNOWN}}") in
  sr_required info = [str "{{TITLE}}"] /\
  sr_unknown info = [str "{{UNKNOWN}}"].
Proof. split; vm_compute; reflexivity. Qed.

Example test_validate_placeholder_value (float_parses : text -> bool) :
  validate_placeholder_value float_parses (str "url")
    (Some (str "http://test")) None = true /\
  validate_placeholder_value float_parses (str "url")
    (Some (str "ftp://x")) None = false /\
  validate_placeholder_value float_parses (str "desplegable")
    (Some (str "op1")) (Some (str "op1,op2")) = true /\
  validate_placeholder_value float_parses (str "desplegable")
    (Some (str "op3")) (Some (str "op1,op2")) = false /\
  validate_placeholder_value float_parses (str "desplegable")
    (Some (str "Green")) (Some (str "Red,Green,Blue")) = true /\
  validate_placeholder_value float_parses (str "desplegable")
    (Some (str "green")) (Some (str "Red,Green,Blue")) = false.
Proof. repeat split; vm_compute; reflexivity. Qed.
End UnitTests.

(** ** The scanner *)

Section ScanFacts.
Context {A : Type}.
Variable match_at : text -> option (A * nat).

(** Matches span at least one character. *)
Hypothesis match_at_pos : forall s a n, match_at s = Some (a, n) -> 1 <= n.

Lemma scan_from_src (s : text) : forall skip,
  flat_map (@piece_src A) (scan_from match_at skip s) = drop skip s.
Proof using match_at_pos.
  induction s as [|c s IH]; intros skip; simpl.
  - by destruct skip.
  - destruct skip as [|k]; simpl; [|apply IH].
    destruct (match_at (c :: s)) as [[a n]|] eqn:E; simpl.
    + rewrite IH. pose proof (match_at_pos _ _ _ E).
      destruct n as [|n]; [lia|]. simpl. f_equal. apply take_drop.
    + by rewrite IH.
Qed.

Lemma finditer_src (s : text) :
  flat_map (@piece_src A) (finditer match_at s) = s.
Proof using match_at_pos. apply scan_from_src. Qed.

Lemma scan_from_hit (s : text) : forall skip a m,
  Hit a m ∈ scan_from match_at skip s ->
  exists s' n, match_at s' = Some (a, n) /\ m = take n s'.
Proof.
  induction s as [|c s IH]; intros skip a m; simpl.
  - by intros ?%elem_of_nil.
  - destruct skip as [|k]; [|apply IH].
    destruct (match_at (c :: s)) as [[a' n]|] eqn:E.
    + intros [Heq|Hin]%elem_of_cons; [|by eapply IH].
      injection Heq as -> ->. eauto.
    + intros [Heq|Hin]%elem_of_cons; [done|by eapply IH].
Qed.

Lemma elem_of_hits (ps : list (@piece A)) (a : A) :
  a ∈ hits ps <-> exists m, Hit a m ∈ ps.
Proof.
  induction ps as [|[c|a' m'] ps IH]; simpl.
  - split; [by intros ?%elem_of_nil|by intros [? ?%elem_of_nil]].
  - rewrite IH. split; intros [m Hm]; exists m.
    + by apply list_elem_of_further.
    + by apply elem_of_cons in Hm as [?|?].
  - rewrite elem_of_cons, IH. split.
    + intros [->|[m Hm]]; [exists m'; apply list_elem_of_here|].
      exists m. by apply list_elem_of_further.
    + intros [m [Heq|Hm]%elem_of_cons]; [left; congruence|right; eauto].
Qed.

(** [re.sub] returns exactly when the replacement function returns on
    every match. *)
Lemma sub_pieces_Ok_iff (repl : A -> result text) (ps : list (@piece A)) :
  (exists out, sub_pieces repl ps = Ok out) <->
  (forall a, a ∈ hits ps -> exists r, repl a = Ok r).
Proof.
  induction ps as [|[c|a m] ps IH]; simpl.
  - split; [by intros _ a ?%elem_of_nil|eauto].
  - rewrite <- IH. split.
    + intros [out H]. destruct (sub_pieces repl ps); [eauto|done].
    + intros [out ->]. simpl. eauto.
  - split.
    + intros [out H] a' [->|Hin]%elem_of_cons.
      * destruct (repl a); [eauto|done].
      * destruct (repl a); [|done]. simpl in H.
        apply IH; [|done]. destruct (sub_pieces repl ps); [eauto|done].
    + intros H. destruct (H a) as [r ->]; [apply list_elem_of_here|].
      destruct IH as [_ [out ->]]; [|simpl; eauto].
      intros a' Ha'. apply H. by apply list_elem_of_further.
Qed.
End ScanFacts.

(** ** placeholder_bot.py: strict rendering *)

Section FillTemplate.
Import PlaceholderBot.

Lemma str_value_Ok (v : PyVal) (r : text) :
  str_value v = Ok r -> r = py_str v.
Proof.
  destruct v as [|s|z]; cbn [str_value]; try by intros [= <-].
  destruct (_ <? _)%nat; [done|]. by intros [= <-].
Qed.

Lemma replacer_Ok_iff (data : dict PyVal) (n : text) :
  (exists r, replacer data n = Ok r) <->
  exists v, dict_get data n = Some v /\ str_value v = Ok (py_str v).
Proof.
  unfold replacer. destruct (dict_get data n) as [v|]; split.
  - intros [r Hr]. exists v. split; [done|].
    by rewrite (str_value_Ok _ _ Hr) in Hr.
  - intros (v' & [= <-] & Hv). eauto.
  - by intros [r ?].
  - by intros (v & ? & _).
Qed.
End FillTemplate.


Section SinglePass.
Import PlaceholderBot.

Lemma startswith_app (p s : text) :
  startswith p s = true <-> exists rest, s = p ++ rest.
Proof.
  revert s. induction p as [|a p IH]; intros s; simpl.
  - split; eauto.
  - destruct s as [|b s].
    + split; [done|]. by intros [rest ?].
    + destruct (decide (a = b)) as [->|Hne].
      * rewrite IH. split; intros [rest Hr]; exists rest; congruence.
      * split; [done|]. intros [rest Hr]. congruence.
Qed.

Lemma lazy_group_Some (r g : text) :
  lazy_group r = Some g -> exists rest, r = g ++ str "}}" ++ rest.
Proof.
  revert g. induction r as [|c r IH]; intros g; cbn [lazy_group]; [done|].
  destruct (startswith (str "}}") (c :: r)) eqn:E.
  - intros [= <-]. apply startswith_app in E as [rest ->]. by exists rest.
  - destruct (decide (c = "010")); [done|].
    destruct (lazy_group r) as [g'|]; [|done]. simpl.
    intros [= <-]. destruct (IH g' eq_refl) as [rest ->]. by exists rest.
Qed.

Lemma PLACEHOLDER_PATTERN_Some (s g : text) (n : nat) :
  PLACEHOLDER_PATTERN s = Some (g, n) ->
  n = 4 + length g /\ take n s = str "{{" ++ g ++ str "}}".
Proof.
  unfold PLACEHOLDER_PATTERN.
  destruct s as [|c1 [|c2 r]]; try done.
  { by repeat case_match. }
  repeat case_match; try done; subst.
  intros [= <- <-]. split; [done|].
  match goal with H : lazy_group _ = Some _ |- _ =>
    apply lazy_group_Some in H as [rest ->] end.
  simpl. do 2 f_equal.
  rewrite (app_assoc _ (str "}}") rest).
  rewrite take_app_length'; [done|]. rewrite length_app. simpl. lia.
Qed.

Lemma PLACEHOLDER_PATTERN_pos (s a : text) (n : nat) :
  PLACEHOLDER_PATTERN s = Some (a, n) -> 1 <= n.
Proof. intros [-> _]%PLACEHOLDER_PATTERN_Some. lia. Qed.

Lemma sub_pieces_replacer (data : dict PyVal) (ps : list (@piece text)) :
  forall out, sub_pieces (replacer data) ps = Ok out ->
              out = flat_map (render_piece data) ps.
Proof.
  induction ps as [|[c|a m] ps IH]; intros out; simpl.
  - by intros [= <-].
  - destruct (sub_pieces (replacer data) ps) as [o|]; [|done]. simpl.
    intros [= <-]. f_equal. by apply IH.
  - unfold replacer at 1. destruct (dict_get data a) as [v|]; [|done].
    destruct (str_value v) as [r|] eqn:Hv; [|done].
    apply str_value_Ok in Hv as ->. simpl.
    destruct (sub_pieces (replacer data) ps) as [o|]; [|done]. simpl.
    intros [= <-]. f_equal. by apply IH.
Qed.

Lemma fill_template_Ok (t : text) (data : dict PyVal) (out : text) :
  fill_template t data = Ok out ->
  sub_pieces (replacer data) (finditer PLACEHOLDER_PATTERN t) = Ok out.
Proof. unfold fill_template. by case_match. Qed.

(** C7, as amended.  [fill_template] is one pass over the template: the
    scanner cuts the template into literal characters and placeholder
    occurrences, each occurrence has the form of a name with its
    delimiters and is replaced by the text of the value stored under
    its name, and the output is the concatenation of these pieces.  A
    substituted value is therefore copied as it is: a placeholder token
    inside the value of a referenced name is still in the output, also
    when its name is a key. *)
Theorem fill_template_single_pass (t : text) (data : dict PyVal) (out : text) :
  fill_template t data = Ok out ->
  let ps := finditer PLACEHOLDER_PATTERN t in
  t = flat_map piece_src ps /\
  out = flat_map (render_piece data) ps /\
  (forall a m, Hit a m ∈ ps ->
     m = str "{{" ++ a ++ str "}}" /\ exists v, dict_get data a = Some v) /\
  (forall n v X a b,
     n ∈ detect_placeholders t ->
     dict_get data n = Some v ->
     py_str v = a ++ str "{{" ++ X ++ str "}}" ++ b ->
     exists pre post, out = pre ++ str "{{" ++ X ++ str "}}" ++ post).
Proof.
  intros Hfill. cbv zeta.
  pose proof (fill_template_Ok _ _ _ Hfill) as Hsub.
  unfold detect_placeholders.
  remember (finditer PLACEHOLDER_PATTERN t) as ps eqn:Eps.
  assert (Hout : out = flat_map (render_piece data) ps)
    by by apply sub_pieces_replacer.
  split; [|split; [done|split]].
  - subst ps. symmetry. apply finditer_src, PLACEHOLDER_PATTERN_pos.
  - intros a m Hin. split.
    + subst ps. apply scan_from_hit in Hin as (s' & n & Hm & ->).
      by apply PLACEHOLDER_PATTERN_Some in Hm as [_ ?].
    + assert (a ∈ hits ps) as Ha by (apply elem_of_hits; eauto).
      destruct (proj1 (sub_pieces_Ok_iff _ _) (ex_intro _ out Hsub) a Ha)
        as [r Hr].
      unfold replacer in Hr. destruct (dict_get data a); [eauto|done].
  - intros n v X a b Hn Hv Hval.
    apply elem_of_hits in Hn as [m Hm].
    apply list_elem_of_split in Hm as (l1 & l2 & Hps).
    exists (flat_map (render_piece data) l1 ++ a),
           (b ++ flat_map (render_piece data) l2).
    rewrite Hout, Hps, flat_map_app. simpl.
    rewrite Hv, Hval. by rewrite <- !app_assoc.
Qed.

(** C7, an instance: the value of [A] is the token of the key [B], and
    the token is in the output. *)
Lemma fill_template_single_pass_witness :
  exists pre post,
    Ok (str "{{B}}") = Ok (pre ++ str "{{" ++ str "B" ++ str "}}" ++ post)
    /\ fill_template (str "{{A}}")
         [(str "A", PyStr (str "{{B}}")); (str "B", PyStr (str "x"))]
       = Ok (str "{{B}}").
Proof.
  assert (H : fill_template (str "{{A}}")
         [(str "A", PyStr (str "{{B}}")); (str "B", PyStr (str "x"))]
       = Ok (str "{{B}}")) by reflexivity.
  destruct (fill_template_single_pass _ _ _ H) as (_ & _ & _ & Hv).
  destruct (Hv (str "A") (PyStr (str "{{B}}")) (str "B") [] [])
    as (pre & post & Heq); [by vm_compute; apply list_elem_of_here|done|done|].
  exists pre, post. split; [by rewrite Heq|done].
Defined.
End SinglePass.

(** ** html_processor.py: the builtin table *)

Section Catalog.
Import HtmlProcessor Handlers.

(** C9, counterexample.  The table flags ten entries as required,
    not eight: the site name and the slug carry [required = True] like
    the other eight, and the table has no third class. *)
Lemma PLACEHOLDERS_required_is_not_8 :
  length (keys_with_flag true) = 10 /\
  length (keys_with_flag true) <> 8 /\
  required <$> dict_get PLACEHOLDERS (str "{{SITE_NAME}}") = Some true /\
  required <$> dict_get PLACEHOLDERS (str "{{SLUG}}") = Some true.
Proof. repeat split; try reflexivity. vm_compute. lia. Qed.

(** C9, as amended.  The table is fixed, has fifteen distinct names, ten
    flagged required and five optional.  The split into eight required,
    two generated (site name, slug) and five optional names is the one
    of the upload handler's three lists: its optional list is the
    table's optional names, and its required list is the table's
    required names without the two generated ones. *)
Theorem PLACEHOLDERS_classes :
  length PLACEHOLDERS = 15 /\
  NoDup (PLACEHOLDERS.*1) /\
  length (keys_with_flag true) = 10 /\
  length (keys_with_flag false) = 5 /\
  length required_placeholders = 8 /\
  length auto_placeholders = 2 /\
  length optional_placeholders = 5 /\
  auto_placeholders = [str "{{SITE_NAME}}"; str "{{SLUG}}"] /\
  keys_with_flag false = optional_placeholders /\
  List.filter (fun k => negb (bool_decide (k ∈ auto_placeholders)))
    (keys_with_flag true) = required_placeholders /\
  (forall k, k ∈ auto_placeholders -> k ∈ keys_with_flag true).
Proof.
  repeat split; try reflexivity.
  - apply (bool_decide_unpack _). by vm_compute.
  - intros k Hk. apply (bool_decide_unpack _).
    unfold auto_placeholders in Hk.
    apply elem_of_cons in Hk as [->|Hk]; [by vm_compute|].
    apply elem_of_cons in Hk as [->|Hk]; [by vm_compute|].
    by apply elem_of_nil in Hk.
Qed.
End Catalog.

(** ** Value validation *)

Section Validation.
Import HtmlProcessor Placeholder.
Variable float_parses : text -> bool.

(** C4, counterexample.  The candidate value is compared as it is:
    a value with a leading blank is rejected although its trimmed form
    is an option; and with an empty options string the module-level
    validator accepts a value instead of rejecting it. *)
Lemma validate_enumerated_untrimmed :
  validate_placeholder_value (fun _ => false) (str "desplegable")
    (Some (str " a")) (Some (str "a")) = false /\
  strip (str " a") ∈ map strip (split "," (str "a")) /\
  validate_placeholder_value (fun _ => false) (str "desplegable")
    (Some (str "x")) (Some (str "")) = true.
Proof.
  repeat split. apply (bool_decide_unpack _). by vm_compute.
Qed.

(** C4, as amended.  For the enumerated kind, a non-empty value is valid
    exactly when the value itself, untrimmed and compared case
    sensitively, is one of the comma-separated options after each
    option is trimmed.  With an empty or absent options string
    [CustomPlaceholder.validate_value] has no allowed value, while
    [validate_placeholder_value] accepts every value. *)
Theorem validate_enumerated (v opts : option text) :
  (validate_placeholder_value float_parses (str "desplegable") v opts = true
   <-> truthy v = false \/ truthy opts = false \/
       exists x o, v = Some x /\ opts = Some o /\
                   x ∈ map strip (split "," o)) /\
  (forall self : CustomPlaceholder,
     placeholder_type self = str "desplegable" ->
     (validate_value float_parses self v = true
      <-> truthy v = false \/
          exists x o, v = Some x /\ options self = Some o /\
                      truthy (Some o) = true /\
                      x ∈ map strip (split "," o))).
Proof.
  split.
  - unfold validate_placeholder_value.
    destruct v as [[|c x]|]; simpl; [tauto| |tauto].
    destruct opts as [[|d o]|]; simpl; [tauto| |tauto].
    rewrite bool_decide_eq_true. split.
    + intros H. right. right. by exists (c :: x), (d :: o).
    + intros [?|[?|(x' & o' & [= <-] & [= <-] & H)]]; done.
  - intros self Hty. unfold validate_value. rewrite Hty.
    destruct v as [[|c x]|]; simpl; [tauto| |tauto].
    rewrite bool_decide_eq_true.
    destruct (options self) as [[|d o]|]; simpl.
    + split; [by intros ?%elem_of_nil|].
      intros [?|(x' & o' & _ & [= <-] & ? & _)]; done.
    + split.
      * intros H. right. by exists (c :: x), (d :: o).
      * intros [?|(x' & o' & [= <-] & [= <-] & _ & H)]; done.
    + split; [by intros ?%elem_of_nil|].
      intros [?|(x' & o' & _ & ? & _)]; done.
Qed.
End Validation.

(** ** html_processor.py: the template scan *)

Section ScanOccurs.
Context {A : Type}.
Variable match_at : text -> option (A * nat).
Hypothesis match_at_pos : forall s a n, match_at s = Some (a, n) -> 1 <= n.

(** The text of every match is a part of the subject. *)
Lemma finditer_hit_occurs (s : text) (a : A) (m : text) :
  Hit a m ∈ finditer match_at s -> occurs_in m s.
Proof using match_at_pos.
  intros (l1 & l2 & Hps)%list_elem_of_split.
  exists (flat_map piece_src l1), (flat_map piece_src l2).
  rewrite <- (finditer_src match_at match_at_pos s) at 1.
  by rewrite Hps, flat_map_app.
Qed.
End ScanOccurs.

Section UpperPattern.
Import HtmlProcessor.

Lemma token_cons (N rest : text) :
  token N ++ rest = "{" :: "{" :: N ++ "}" :: "}" :: rest.
Proof. unfold token. simpl. by rewrite <- app_assoc. Qed.

Lemma span_while_run (N rest : text) :
  forallb is_upper_us N = true ->
  span_while is_upper_us (N ++ "}" :: rest) = N.
Proof.
  induction N as [|c N IH]; simpl; [done|].
  intros [Hc HN]%andb_prop. rewrite Hc. f_equal. by apply IH.
Qed.

Lemma span_while_forallb (s : text) :
  forallb is_upper_us (span_while is_upper_us s) = true.
Proof.
  induction s as [|c s IH]; simpl; [done|].
  destruct (is_upper_us c) eqn:E; simpl; [by rewrite E|done].
Qed.

Lemma span_while_take (s : text) :
  take (length (span_while is_upper_us s)) s = span_while is_upper_us s.
Proof.
  induction s as [|c s IH]; simpl; [done|].
  destruct (is_upper_us c); simpl; [by rewrite IH|done].
Qed.

(** A match of the pattern is one name in upper case letters and
    underscores between its delimiters. *)
Lemma pattern_Some (s m : text) (n : nat) :
  pattern s = Some (m, n) ->
  n = length m /\ take n s = m /\ exists N, upper_name N /\ m = token N.
Proof.
  unfold pattern. destruct s as [|c1 [|c2 r]]; try done.
  { by repeat case_match. }
  destruct c1 as [[] [] [] [] [] [] [] []]; try done.
  destruct c2 as [[] [] [] [] [] [] [] []]; try done.
  cbv zeta.
  destruct (span_while is_upper_us r) as [|c run] eqn:Hrun; [done|].
  destruct (startswith _ _) eqn:Hclose; [|done].
  intros [= <- <-].
  apply startswith_app in Hclose as [rest Hrest].
  assert (Hr : r = (c :: run) ++ str "}}" ++ rest).
  { pose proof (span_while_take r) as Ht. rewrite Hrun in Ht.
    by rewrite <- (take_drop (length (c :: run)) r), Ht, Hrest. }
  split; [|split].
  - simpl. rewrite length_app. simpl. lia.
  - rewrite Hr. simpl. do 3 f_equal.
    replace (run ++ "}" :: "}" :: rest) with ((run ++ ["}"; "}"]) ++ rest)
      by (by rewrite <- app_assoc).
    rewrite take_app_length'; [done|].
    rewrite length_app. simpl. lia.
  - exists (c :: run). split; [|done]. split; [done|].
    rewrite <- Hrun. apply span_while_forallb.
Qed.

Lemma pattern_pos (s a : text) (n : nat) :
  pattern s = Some (a, n) -> 1 <= n.
Proof.
  intros (-> & _ & N & _ & ->)%pattern_Some. unfold token.
  rewrite length_app. simpl. lia.
Qed.

(** At the start of a token the pattern matches that token. *)
Lemma pattern_token (N rest : text) :
  upper_name N -> pattern (token N ++ rest) = Some (token N, length (token N)).
Proof.
  intros [Hne Hall]. rewrite token_cons. unfold pattern. cbv zeta.
  rewrite span_while_run by done.
  destruct N as [|c N]; [done|].
  rewrite drop_app_length. simpl.
  unfold token. simpl. rewrite !length_app. simpl.
  do 3 f_equal. lia.
Qed.

Lemma span_no_straddle (p rest : text) :
  startswith (str "}}")
    (drop (length (span_while is_upper_us (p ++ "{" :: rest)))
       (p ++ "{" :: rest)) = true ->
  length (span_while is_upper_us (p ++ "{" :: rest)) + 2 <= length p.
Proof.
  induction p as [|d p IH]; simpl; [done|].
  destruct (is_upper_us d) eqn:Hd; simpl.
  - intros H. apply IH in H. lia.
  - destruct (decide ("}" = d)) as [<-|]; [|done].
    destruct p as [|e p]; simpl; [done|]. lia.
Qed.

(** A match that begins before a token ends before it. *)
Lemma pattern_no_straddle (pre : text) (N rest m : text) (n : nat) :
  pre <> [] ->
  pattern (pre ++ token N ++ rest) = Some (m, n) -> n <= length pre.
Proof.
  intros Hpre. rewrite token_cons. unfold pattern.
  destruct pre as [|c1 [|c2 p]]; [done| |]; cbn [app].
  - destruct c1 as [[] [] [] [] [] [] [] []]; done.
  - destruct c1 as [[] [] [] [] [] [] [] []]; try done.
    destruct c2 as [[] [] [] [] [] [] [] []]; try done.
    cbv zeta.
    set (r := p ++ "{" :: "{" :: N ++ "}" :: "}" :: rest).
    pose proof (span_no_straddle p ("{" :: N ++ "}" :: "}" :: rest)) as Hs.
    fold r in Hs.
    destruct (span_while is_upper_us r) as [|c run]; [done|].
    destruct (startswith (str "}}") (drop (length (c :: run)) r));
      [|done].
    intros [= <- <-]. specialize (Hs eq_refl). simpl in *. lia.
Qed.

(** Every token in the subject is found by the scan. *)
Lemma scan_finds_token (N post : text) :
  upper_name N ->
  forall pre skip, skip <= length pre ->
    Hit (token N) (token N) ∈ scan_from pattern skip (pre ++ token N ++ post).
Proof.
  intros HN. induction pre as [|c pre IH]; intros skip Hskip.
  - assert (skip = 0) as -> by (simpl in Hskip; lia).
    rewrite app_nil_l.
    pose proof (pattern_token N post HN) as Hm.
    pose proof (pattern_Some _ _ _ Hm) as (_ & Htake & _).
    rewrite token_cons in *. cbn [scan_from].
    rewrite Hm, Htake. apply list_elem_of_here.
  - rewrite <- app_comm_cons. cbn [scan_from].
    destruct skip as [|k]; [|apply IH; simpl in Hskip; lia].
    destruct (pattern (c :: pre ++ token N ++ post)) as [[a n]|] eqn:E.
    + apply list_elem_of_further, IH.
      apply (pattern_no_straddle (c :: pre)) in E; [|done].
      simpl in E. lia.
    + apply list_elem_of_further, IH. lia.
Qed.

(** The found set holds exactly the tokens of upper-case names that
    occur in the template. *)
Lemma elem_of_found_placeholders (t k : text) :
  k ∈ found_placeholders t <->
  (exists N, upper_name N /\ k = token N) /\ occurs_in k t.
Proof.
  unfold found_placeholders. rewrite elem_of_list_to_set, elem_of_hits.
  split.
  - intros [m Hm]. split.
    + apply scan_from_hit in Hm as (s' & n & Hp & _).
      by apply pattern_Some in Hp as (_ & _ & ?).
    + pose proof Hm as Hocc.
      apply (finditer_hit_occurs _ pattern_pos) in Hocc.
      apply scan_from_hit in Hm as (s' & n & Hp & Hmeq).
      apply pattern_Some in Hp as (_ & Ht & _).
      by rewrite Hmeq, Ht in Hocc.
  - intros [(N & HN & ->) (pre & post & ->)]. exists (token N).
    apply scan_finds_token; [done|lia].
Qed.
End UpperPattern.

Section FindPlaceholders.
Import HtmlProcessor.

Lemma classify_builtin_missing (found : gset text)
    (l : dict PlaceholderInfo) : forall acc k,
  k ∈ sr_missing (fold_left (classify_builtin found) l acc) <->
  k ∈ sr_missing acc \/ (k ∈ l.*1 /\ k ∉ found).
Proof.
  induction l as [|[p info] l IH]; intros acc k; simpl.
  - rewrite elem_of_nil. tauto.
  - rewrite IH, elem_of_cons. unfold classify_builtin. simpl.
    destruct (decide (p ∈ found)) as [Hin|Hout];
      [destruct (required info)|]; simpl;
      rewrite ?elem_of_app, ?list_elem_of_singleton; naive_solver.
Qed.

Lemma classify_builtin_unknown (found : gset text)
    (l : dict PlaceholderInfo) : forall acc,
  sr_unknown (fold_left (classify_builtin found) l acc) = sr_unknown acc.
Proof.
  induction l as [|[p info] l IH]; intros acc; simpl; [done|].
  rewrite IH. unfold classify_builtin. by repeat case_match.
Qed.

Lemma classify_found_missing (l : list text) : forall acc,
  sr_missing (fold_left classify_found l acc) = sr_missing acc.
Proof.
  induction l as [|x l IH]; intros acc; simpl; [done|].
  rewrite IH. unfold classify_found. by case_match.
Qed.

Lemma classify_found_unknown (l : list text) : forall acc k,
  k ∈ sr_unknown (fold_left classify_found l acc) <->
  k ∈ sr_unknown acc \/ (k ∈ l /\ dict_mem PLACEHOLDERS k = false).
Proof.
  induction l as [|x l IH]; intros acc k; simpl.
  - rewrite elem_of_nil. tauto.
  - rewrite IH, elem_of_cons. unfold classify_found.
    destruct (dict_mem PLACEHOLDERS x) eqn:E; simpl.
    + split; [tauto|].
      intros [?|[[Hk|?] Hm]]; [tauto| |tauto]. subst k. congruence.
    + rewrite elem_of_app, list_elem_of_singleton. split.
      * intros [[?|Hk]|[? ?]]; [tauto| |tauto]. subst k. tauto.
      * intros [?|[[Hk|?] ?]]; tauto.
Qed.

(** Every name of the builtin table is a token the scan pattern
    matches. *)
Lemma builtin_is_token (k : text) :
  k ∈ PLACEHOLDERS.*1 -> exists N, upper_name N /\ k = token N.
Proof.
  intros Hk.
  assert (Hall : Forall (fun k => pattern k = Some (k, length k))
                   (PLACEHOLDERS.*1)).
  { apply (bool_decide_unpack _). vm_compute. exact I. }
  rewrite Forall_forall in Hall. specialize (Hall k Hk).
  by apply pattern_Some in Hall as (_ & _ & ?).
Qed.

(** C2, counterexample.  A template that carries every name the
    table flags as required still has a non-empty [missing]: the five
    optional names, none of them a required builtin. *)
Lemma missing_lists_optional :
  let t := concat (keys_with_flag true) in
  sr_required (find_placeholders_in_template t) = keys_with_flag true /\
  sr_missing (find_placeholders_in_template t) = keys_with_flag false /\
  sr_missing (find_placeholders_in_template t) <> [] /\
  required <$> dict_get PLACEHOLDERS (str "{{LAST_MODIFIED}}") = Some false /\
  str "{{LAST_MODIFIED}}" ∈ sr_missing (find_placeholders_in_template t).
Proof.
  assert (H : sr_missing
                (find_placeholders_in_template (concat (keys_with_flag true)))
              = keys_with_flag false) by (vm_compute; reflexivity).
  cbv zeta. rewrite H. split; [vm_compute; reflexivity|].
  split; [reflexivity|]. split; [vm_compute; discriminate|].
  split; [vm_compute; reflexivity|].
  apply (bool_decide_unpack _). vm_compute. exact I.
Qed.

(** C2, as amended.  [missing] holds exactly the names of the builtin
    table, required and optional alike, that do not occur in the
    template. *)
Theorem missing_exact (t k : text) :
  k ∈ sr_missing (find_placeholders_in_template t) <->
  k ∈ PLACEHOLDERS.*1 /\ ~ occurs_in k t.
Proof.
  unfold find_placeholders_in_template.
  rewrite classify_found_missing, classify_builtin_missing. simpl.
  rewrite elem_of_nil, elem_of_found_placeholders. split.
  - intros [[]|[Hk Hnot]]. split; [done|]. intros Hocc. apply Hnot.
    split; [by apply builtin_is_token|done].
  - intros [Hk Hnot]. right. split; [done|]. by intros [_ ?].
Qed.

(** C6, counterexample.  A lower-case name between the delimiters
    is not found by the scan, so it is not reported as unknown although
    it occurs in the template and is no builtin. *)
Lemma lowercase_not_unknown :
  let t := str "{{foo}}" in
  occurs_in (token (str "foo")) t /\
  dict_mem PLACEHOLDERS (token (str "foo")) = false /\
  sr_unknown (find_placeholders_in_template t) = [].
Proof.
  split; [by exists [], []|]. split; vm_compute; reflexivity.
Qed.

(** C6, as amended.  [unknown] holds exactly the tokens of names made of
    upper-case letters and underscores that occur in the template and
    are not names of the builtin table; the entries carry their
    delimiters, and no site-specific list is consulted. *)
Theorem unknown_exact (t k : text) :
  k ∈ sr_unknown (find_placeholders_in_template t) <->
  (exists N, upper_name N /\ k = token N) /\
  occurs_in k t /\
  dict_mem PLACEHOLDERS k = false.
Proof.
  unfold find_placeholders_in_template.
  rewrite classify_found_unknown, classify_builtin_unknown. simpl.
  rewrite elem_of_nil, elem_of_elements, elem_of_found_placeholders.
  tauto.
Qed.
End FindPlaceholders.

(** ** html_processor.py: lenient rendering *)

Section Replace.
Import HtmlProcessor.

Lemma startswith_app_l (p s rest : text) :
  startswith p s = true -> startswith p (s ++ rest) = true.
Proof.
  intros [r ->]%startswith_app. apply startswith_app.
  exists (r ++ rest). by rewrite app_assoc.
Qed.

Lemma startswith_short (p s rest : text) :
  length p <= length s ->
  startswith p (s ++ rest) = true -> startswith p s = true.
Proof.
  revert s. induction p as [|a p IH]; intros s Hlen; simpl; [done|].
  destruct s as [|b s]; simpl in *; [lia|].
  destruct (decide (a = b)); [|done]. apply IH. lia.
Qed.

Lemma scan_from_all_skipped {A} (m : text -> option (A * nat)) (s : text) :
  forall skip, length s <= skip -> scan_from m skip s = [].
Proof.
  induction s as [|c s IH]; intros skip Hlen; simpl; [done|].
  destruct skip as [|k]; simpl in Hlen; [lia|]. apply IH. lia.
Qed.

(** The output of [str.replace] splits at a point no occurrence of
    [old] reaches across. *)
Lemma replace_scan_app (old new rest : text) : forall pre skip,
  skip <= length pre ->
  (forall p1 p2, pre = p1 ++ p2 -> p2 <> [] ->
     startswith old (p2 ++ rest) = true -> length old <= length p2) ->
  flat_map (replace_piece new) (scan_from (replace_at old) skip (pre ++ rest))
  = flat_map (replace_piece new) (scan_from (replace_at old) skip pre)
    ++ flat_map (replace_piece new) (scan_from (replace_at old) 0 rest).
Proof.
  induction pre as [|c pre IH]; intros skip Hskip Hno.
  - by assert (skip = 0) as -> by (simpl in Hskip; lia).
  - assert (Hno' : forall p1 p2, pre = p1 ++ p2 -> p2 <> [] ->
              startswith old (p2 ++ rest) = true -> length old <= length p2).
    { intros p1 p2 -> Hp2 Hs. by apply (Hno (c :: p1) p2). }
    rewrite <- app_comm_cons. cbn [scan_from].
    destruct skip as [|k]; [|apply IH; [simpl in Hskip; lia|done]].
    assert (E1 : replace_at old (c :: pre ++ rest) = replace_at old (c :: pre)).
    { unfold replace_at. rewrite app_comm_cons.
      destruct (startswith old ((c :: pre) ++ rest)) eqn:E.
      - pose proof (Hno [] (c :: pre) eq_refl ltac:(done) E) as Hlen.
        by rewrite (startswith_short _ _ _ Hlen E).
      - destruct (startswith old (c :: pre)) eqn:E'; [|done].
        apply (startswith_app_l _ _ rest) in E'. congruence. }
    rewrite E1. destruct (replace_at old (c :: pre)) as [[u n]|] eqn:E.
    + unfold replace_at in E.
      destruct (startswith old (c :: pre)) eqn:Es; [|done].
      injection E as _ <-.
      pose proof (Hno [] (c :: pre) eq_refl ltac:(done)
                    (startswith_app_l _ _ rest Es)) as Hlen.
      cbn [flat_map replace_piece]. rewrite <- app_assoc. f_equal.
      apply IH; [simpl in Hlen; lia|done].
    + simpl. f_equal. apply IH; [lia|done].
Qed.

(** A stretch without an opening brace is copied when the search text
    begins with one. *)
Lemma replace_scan_no_open (x new rest : text) (s : text) :
  Forall (fun c => c <> "{") s ->
  flat_map (replace_piece new) (scan_from (replace_at ("{" :: x)) 0 (s ++ rest))
  = s ++ flat_map (replace_piece new) (scan_from (replace_at ("{" :: x)) 0 rest).
Proof.
  induction 1 as [|c s Hc Hs IH]; [done|].
  rewrite <- app_comm_cons. cbn [scan_from]. unfold replace_at at 1.
  cbn [startswith]. destruct (decide ("{" = c)) as [<-|]; [done|].
  simpl. by f_equal.
Qed.

Lemma close_no_straddle (K rest : text) : forall p,
  brace_free K ->
  startswith (K ++ ["}"; "}"]) (p ++ "{" :: rest) = true ->
  length K + 2 <= length p.
Proof.
  induction K as [|k K IH]; intros p HK; simpl.
  - destruct p as [|d [|e p]]; simpl; try done; [|lia].
    destruct (decide ("}" = d)); done.
  - apply Forall_cons in HK as [[Hk1 Hk2] HK].
    destruct p as [|d p]; simpl.
    + destruct (decide (k = "{")); done.
    + destruct (decide (k = d)); [|done]. intros H%IH; [lia|done].
Qed.

(** An occurrence of the search text of one name that begins before a
    token ends before it. *)
Lemma token_no_straddle (K N pre post : text) :
  brace_free K -> pre <> [] ->
  startswith (token K) (pre ++ token N ++ post) = true ->
  length (token K) <= length pre.
Proof.
  intros HK Hpre. rewrite token_cons.
  replace (token K) with ("{" :: "{" :: K ++ ["}"; "}"]) by done.
  destruct pre as [|c1 [|c2 p]]; [done| |]; simpl.
  - destruct (decide ("{" = c1)); [|done].
    destruct K as [|k K]; simpl; [done|].
    apply Forall_cons in HK as [[Hk1 Hk2] HK].
    destruct (decide (k = "{")); done.
  - destruct (decide ("{" = c1)); [|done].
    destruct (decide ("{" = c2)); [|done].
    intros H%close_no_straddle; [|done].
    rewrite length_app. simpl. lia.
Qed.

Lemma names_differ (K N rest : text) :
  brace_free K -> brace_free N -> K <> N ->
  startswith (K ++ ["}"; "}"]) (N ++ "}" :: "}" :: rest) = false.
Proof.
  revert N. induction K as [|k K IH]; intros N HK HN Hne.
  - destruct N as [|n N]; [done|]. simpl.
    apply Forall_cons in HN as [[Hn1 Hn2] HN].
    destruct (decide ("}" = n)); [congruence|done].
  - apply Forall_cons in HK as [[Hk1 Hk2] HK].
    destruct N as [|n N]; simpl.
    + destruct (decide (k = "}")); done.
    + apply Forall_cons in HN as [[Hn1 Hn2] HN].
      destruct (decide (k = n)) as [->|]; [|done].
      apply IH; [done..|]. congruence.
Qed.

Lemma replace_at_first_brace (K N post : text) :
  brace_free K -> brace_free N -> K <> N ->
  replace_at ("{" :: "{" :: K ++ ["}"; "}"])
    ("{" :: "{" :: N ++ "}" :: "}" :: post) = None.
Proof.
  intros HK HN Hne. unfold replace_at. cbn [startswith].
  destruct (decide ("{" = "{")); [|done].
  by rewrite names_differ.
Qed.

Lemma replace_at_second_brace (K N post : text) :
  brace_free N ->
  replace_at ("{" :: "{" :: K ++ ["}"; "}"])
    ("{" :: N ++ "}" :: "}" :: post) = None.
Proof.
  intros HN. unfold replace_at. cbn [startswith].
  destruct (decide ("{" = "{")); [|done].
  destruct N as [|n N]; simpl; [done|].
  apply Forall_cons in HN as [[Hn1 Hn2] HN].
  destruct (decide ("{" = n)); [congruence|done].
Qed.

(** Replacing the token of another name leaves a token in place and
    works on the two sides separately. *)
Lemma str_replace_keeps_token (K N new pre post : text) :
  brace_free K -> brace_free N -> K <> N ->
  str_replace (token K) new (pre ++ token N ++ post)
  = str_replace (token K) new pre ++ token N ++ str_replace (token K) new post.
Proof.
  intros HK HN Hne. unfold str_replace.
  replace (token K) with ("{" :: "{" :: K ++ ["}"; "}"]) by done.
  unfold finditer. rewrite replace_scan_app; [|lia|].
  2:{ intros p1 p2 _ Hp2 Hs.
      by apply (token_no_straddle K N p2 post HK Hp2). }
  f_equal. rewrite !token_cons.
  cbn [scan_from]. rewrite replace_at_first_brace by done.
  cbn [scan_from]. rewrite replace_at_second_brace by done.
  cbn [flat_map replace_piece app]. do 2 f_equal.
  replace (N ++ "}" :: "}" :: post) with ((N ++ ["}"; "}"]) ++ post)
    by (by rewrite <- app_assoc).
  rewrite replace_scan_no_open; [by rewrite <- app_assoc|].
  apply Forall_app. split.
  - eapply Forall_impl; [exact HN|]. by intros c [? _].
  - by repeat constructor.
Qed.

Lemma wrap_key_for (k K : text) : key_for k K -> wrap_key k = token K.
Proof.
  intros [HK [->| ->]]; unfold wrap_key; [|done].
  destruct K as [|c1 [|c2 K]]; try done.
  - simpl. apply Forall_cons in HK as [[H1 _] _].
    destruct (decide ("{" = c1)); [congruence|done].
  - simpl. apply Forall_cons in HK as [[H1 _] _].
    destruct (decide ("{" = c1)); [congruence|done].
Qed.

Lemma str_replace_whole (old new : text) :
  old <> [] -> str_replace old new old = new.
Proof.
  intros Hne. unfold str_replace. destruct old as [|c old]; [done|].
  unfold finditer. cbn [scan_from]. unfold replace_at.
  assert (startswith (c :: old) (c :: old) = true) as ->.
  { apply startswith_app. exists []. by rewrite app_nil_r. }
  simpl. rewrite scan_from_all_skipped by done. simpl. apply app_nil_r.
Qed.

(** *** The loop over the mapping *)

Lemma value_str_Ok (v : PyVal) (r : text) :
  value_str v = Ok r -> r = value_text v.
Proof.
  destruct v as [|x|z]; cbn [value_str value_text].
  - by intros [= <-].
  - apply (str_value_Ok (PyStr x)).
  - apply (str_value_Ok (PyInt z)).
Qed.

Lemma value_str_Raise (v : PyVal) (e : exn) :
  value_str v = Raise e ->
  exists z, v = PyInt z /\ (int_max_str_digits < int_digits z)%nat /\
    e = ValueError
          (str "Exceeds the limit (4300 digits) for integer string conversion").
Proof.
  destruct v as [|x|z]; cbn [value_str str_value]; [done|done|].
  destruct (int_max_str_digits <? int_digits z)%nat eqn:E; [|done].
  intros [= <-]. exists z. split; [done|]. split; [|done].
  by apply Nat.ltb_lt.
Qed.

(** When every conversion returns, the loop returns the text built by
    the replacements one after the other. *)
Lemma replace_placeholders_convertible (t : text) (values : dict PyVal) :
  convertible values -> replace_placeholders t values = Ok (replaced t values).
Proof.
  unfold replace_placeholders, replaced. intros Hc. revert t.
  induction Hc as [|[k v] vs Hv Hvs IH]; intros t; [done|].
  cbn [replace_loop fold_left fst snd] in *. rewrite Hv. cbn [bind]. apply IH.
Qed.

Lemma replace_placeholders_Ok (t : text) (values : dict PyVal) (out : text) :
  replace_placeholders t values = Ok out ->
  convertible values /\ out = replaced t values.
Proof.
  unfold replace_placeholders, replaced, convertible. revert t.
  induction values as [|[k v] vs IH]; intros t; cbn [replace_loop fold_left].
  - intros [= <-]. by split.
  - destruct (value_str v) as [r|] eqn:Hv; [|done]. cbn [bind fst snd].
    pose proof (value_str_Ok _ _ Hv) as ->.
    intros [Hc ->]%IH. split; [|done]. by constructor.
Qed.

Lemma replace_placeholders_Raise (t : text) (values : dict PyVal) (e : exn) :
  replace_placeholders t values = Raise e ->
  exists kv, kv ∈ values /\ value_str kv.2 = Raise e.
Proof.
  unfold replace_placeholders. revert t.
  induction values as [|[k v] vs IH]; intros t; cbn [replace_loop]; [done|].
  destruct (value_str v) as [r|e'] eqn:Hv; cbn [bind].
  - intros (kv & Hin & Hkv)%IH. exists kv. split; [|done].
    by apply list_elem_of_further.
  - intros [= <-]. exists (k, v). split; [apply list_elem_of_here|done].
Qed.

Lemma convertible_cons (k : text) (v : PyVal) (vs : dict PyVal) :
  convertible ((k, v) :: vs) <->
  value_str v = Ok (value_text v) /\ convertible vs.
Proof. unfold convertible. by rewrite Forall_cons. Qed.

Lemma replaced_keeps_unkeyed (values : dict PyVal) (N pre post : text) :
  brace_free N ->
  Forall (fun kv => exists K, key_for kv.1 K /\ K <> N) values ->
  replaced (pre ++ token N ++ post) values
  = replaced pre values ++ token N ++ replaced post values.
Proof.
  intros HN. revert pre post.
  induction values as [|[k v] vs IH]; intros pre post Hkeys; [done|].
  apply Forall_cons in Hkeys as [(K & HK & Hne) Hkeys].
  simpl in HK. unfold replaced in *. cbn [fold_left fst snd].
  rewrite (wrap_key_for k K HK).
  rewrite str_replace_keeps_token by (done || apply HK).
  by apply IH.
Qed.

(** An occurrence at the head is replaced and the scan resumes behind
    it. *)
Lemma scan_from_skip_app {A} (m : text -> option (A * nat)) (a s : text) :
  scan_from m (length a) (a ++ s) = scan_from m 0 s.
Proof.
  induction a as [|c a IH]; [|exact IH]. simpl. by destruct s.
Qed.

Lemma str_replace_head (old new rest : text) :
  old <> [] ->
  str_replace old new (old ++ rest) = new ++ str_replace old new rest.
Proof.
  intros Hne. unfold str_replace. destruct old as [|c old]; [done|].
  unfold finditer. rewrite <- app_comm_cons. cbn [scan_from].
  unfold replace_at at 1.
  assert (startswith (c :: old) (c :: old ++ rest) = true) as ->.
  { apply startswith_app. by exists rest. }
  cbn [flat_map replace_piece length pred]. f_equal.
  by rewrite scan_from_skip_app.
Qed.

Lemma str_replace_no_open (K new s rest : text) :
  Forall (fun c => c <> "{") s ->
  str_replace (token K) new (s ++ rest) = s ++ str_replace (token K) new rest.
Proof.
  intros Hs. unfold str_replace.
  replace (token K) with ("{" :: "{" :: K ++ ["}"; "}"]) by done.
  by apply replace_scan_no_open.
Qed.

(** C10, counterexample 1.  A mapping whose only key spans two
    placeholders: neither of the two names is a key, yet neither
    occurrence is left in the output. *)
Lemma replace_placeholders_overlapping_key :
  let t := str "{{A}}{{B}}" in
  let values := [(str "A}}{{B", PyStr (str "x"))] in
  occurs_in (token (str "A")) t /\
  dict_mem values (str "A") = false /\
  dict_mem values (token (str "A")) = false /\
  replace_placeholders t values = Ok (str "x") /\
  ~ occurs_in (token (str "A")) (str "x").
Proof.
  cbv zeta. split; [by exists [], (str "{{B}}")|].
  split; [reflexivity|]. split; [reflexivity|]. split; [reflexivity|].
  intros (pre & post & H).
  apply (f_equal (@length ascii)) in H.
  rewrite !length_app in H. simpl in H. lia.
Qed.

(** C10, as amended.  [replace_placeholders] never fails for a key or a
    token it does not know: it returns exactly when the conversion of
    every value returns, whatever the template, and the only error is
    the [ValueError] of an integer of more than 4300 digits, raised
    also when its key occurs nowhere.  When it returns and every key is
    a name without braces (written with or without its delimiters), the
    token of a brace-free name that is not among the keys stays where
    it is, the text before and after it being rendered on its own.  A
    value [None] acts as the empty text, anywhere in any mapping and on
    any template: the token of its key is removed. *)
Theorem replace_placeholders_keeps_unkeyed (values : dict PyVal) :
  (forall t,
     (exists out, replace_placeholders t values = Ok out) <->
     convertible values) /\
  (forall t e,
     replace_placeholders t values = Raise e ->
     exists k z,
       (k, PyInt z) ∈ values /\
       (int_max_str_digits < int_digits z)%nat /\
       e = ValueError
             (str "Exceeds the limit (4300 digits) for integer string conversion")) /\
  (forall N pre post,
     brace_free N ->
     Forall (fun kv => exists K, key_for kv.1 K /\ K <> N) values ->
     convertible values ->
     exists o1 o2,
       replace_placeholders pre values = Ok o1 /\
       replace_placeholders post values = Ok o2 /\
       replace_placeholders (pre ++ token N ++ post) values
       = Ok (o1 ++ token N ++ o2)) /\
  (forall t k before,
     replace_placeholders t (before ++ (k, PyNone) :: values)
     = replace_placeholders t (before ++ (k, PyStr []) :: values)) /\
  (forall k K pre post,
     key_for k K ->
     Forall (fun c => c <> "{") pre -> Forall (fun c => c <> "{") post ->
     replace_placeholders (pre ++ token K ++ post) [(k, PyNone)]
     = Ok (pre ++ post) /\
     forall s, replace_placeholders (token K) [(k, PyStr s)] = Ok s).
Proof.
  split; [|split; [|split; [|split]]].
  - intros t. split.
    + intros [out Hout]. by apply replace_placeholders_Ok in Hout as [? _].
    + intros Hc. eexists. by apply replace_placeholders_convertible.
  - intros t e (kv & Hin & Hkv)%replace_placeholders_Raise.
    destruct kv as [k v]. cbn [snd] in Hkv.
    apply value_str_Raise in Hkv as (z & -> & Hz & ->). by exists k, z.
  - intros N pre post HN Hkeys Hc.
    exists (replaced pre values), (replaced post values).
    rewrite !replace_placeholders_convertible by done.
    split; [done|]. split; [done|]. f_equal.
    by apply replaced_keeps_unkeyed.
  - intros t k before. unfold replace_placeholders. revert t.
    induction before as [|[k' v'] before IH]; intros t; cbn [app replace_loop].
    + reflexivity.
    + destruct (value_str v'); cbn [bind]; [apply IH|done].
  - intros k K pre post HK Hpre Hpost.
    unfold replace_placeholders. cbn [replace_loop value_str str_value bind].
    rewrite (wrap_key_for _ _ HK). split.
    + rewrite str_replace_no_open by done.
      rewrite str_replace_head by done. f_equal. f_equal.
      rewrite <- (app_nil_r post) at 1.
      rewrite str_replace_no_open by done. cbn. by rewrite app_nil_r.
    + intros s. f_equal. by apply str_replace_whole.
Qed.

(** C10, counterexample 2.  The renderer is not total: a value that
    cannot be converted makes it raise, although its key does not occur
    in the template. *)
Lemma replace_placeholders_not_total :
  replace_placeholders (str "hola") [(str "N", PyInt (10 ^ 4300))]
  = Raise (ValueError
             (str "Exceeds the limit (4300 digits) for integer string conversion")).
Proof. vm_compute. reflexivity. Qed.

(** C7, counterexample on the lenient renderer.  The keys are
    replaced one after the other on the running result, so a token
    brought in by the value of an earlier key is replaced when its own
    key comes up. *)
Lemma replace_placeholders_rescans :
  let t := str "{{A}}" in
  let values := [(str "A", PyStr (str "{{B}}")); (str "B", PyStr (str "x"))] in
  replace_placeholders t values = Ok (str "x") /\
  ~ occurs_in (token (str "B")) (str "x").
Proof.
  cbv zeta. split; [reflexivity|].
  intros (pre & post & H).
  apply (f_equal (@length ascii)) in H.
  rewrite !length_app in H. simpl in H. lia.
Qed.
End Replace.

(** ** states.py: persistence *)

Section Persistence.
Import Runtime Models States.
Variable json_dumps : gmap string Value -> text.

(** [_save_to_db] never raises; an unreachable store leaves the rows
    and the memory as they were and adds one error record. *)
Lemma _save_to_db_unreachable (user_id : Z) (w : World) :
  reachable (db w) = false ->
  is_Some (conversations w !! user_id) ->
  _save_to_db json_dumps user_id w =
    (Ok tt,
     {| conversations := conversations w; db := db w;
        log := log w
               ++ [(ERROR, "Error al guardar estado en la base de datos"%string)];
        outbox := outbox w |}).
Proof.
  intros Hdown [c Hc]. unfold _save_to_db, upsert_state_row. run_m.
  rewrite Hc. run_m. by rewrite Hdown.
Qed.

Lemma _save_to_db_Ok (user_id : Z) (w : World) :
  exists w', _save_to_db json_dumps user_id w = (Ok tt, w') /\
             conversations w' = conversations w.
Proof.
  unfold _save_to_db, upsert_state_row. run_m.
  destruct (conversations w !! user_id) as [c|]; run_m; [|eauto].
  destruct (reachable (db w)); run_m; [|eauto].
  destruct (user_states (db w)); run_m; eauto.
Qed.

Lemma get_state_lookup (user_id : Z) (w : World) (c : ConversationData) :
  conversations w !! user_id = Some c ->
  get_state user_id w = (Ok (state c), w).
Proof. intros Hc. unfold get_state, get_conversation. run_m. by rewrite Hc. Qed.

Lemma get_data_lookup (user_id : Z) (key : string) (default : Value)
    (w : World) (c : ConversationData) :
  conversations w !! user_id = Some c ->
  get_data user_id key default w = (Ok (conv_get_data c key default), w).
Proof. intros Hc. unfold get_data, get_conversation. run_m. by rewrite Hc. Qed.

(** The state after the in-memory half of a write: the conversation
    of [user_id] replaced by [f] of the old one (a fresh one when the
    user was not known). *)
Lemma write_then_save (user_id : Z) (f : ConversationData -> ConversationData)
    (w : World) :
  exists c w',
    (c0 <~ get_conversation user_id ;;
     put_conversation user_id (f c0) ;;
     _save_to_db json_dumps user_id) w = (Ok tt, w') /\
    c = match conversations w !! user_id with
        | Some c0 => c0
        | None => new_conversation IDLE
        end /\
    conversations w' !! user_id = Some (f c) /\
    (reachable (db w) = false ->
       db w' = db w /\
       (ERROR, "Error al guardar estado en la base de datos"%string) ∈ log w').
Proof.
  unfold get_conversation, put_conversation. run_m.
  destruct (conversations w !! user_id) as [c0|] eqn:Hc; run_m.
  - exists c0.
    set (w1 := {| conversations := <[user_id:=f c0]> (conversations w);
                  db := db w; log := log w; outbox := outbox w |}).
    destruct (_save_to_db_Ok user_id w1) as (w' & Hsave & Hconv).
    exists w'. rewrite Hsave. split; [done|]. split; [done|].
    split; [by rewrite Hconv; apply lookup_insert_eq|].
    intros Hdown.
    rewrite (_save_to_db_unreachable user_id w1) in Hsave;
      [|done|by eexists; apply lookup_insert_eq].
    injection Hsave as <-. split; [done|].
    apply elem_of_app. right. apply list_elem_of_here.
  - exists (new_conversation IDLE).
    set (w1 := {| conversations :=
                    <[user_id:=f (new_conversation IDLE)]>
                      (<[user_id:=new_conversation IDLE]> (conversations w));
                  db := db w; log := log w; outbox := outbox w |}).
    destruct (_save_to_db_Ok user_id w1) as (w' & Hsave & Hconv).
    exists w'. rewrite Hsave. split; [done|]. split; [done|].
    split; [by rewrite Hconv; apply lookup_insert_eq|].
    intros Hdown.
    rewrite (_save_to_db_unreachable user_id w1) in Hsave;
      [|done|by eexists; apply lookup_insert_eq].
    injection Hsave as <-. split; [done|].
    apply elem_of_app. right. apply list_elem_of_here.
Qed.

(** C3, as amended.  [set_state] and [set_data] change the conversation
    in memory first and then save it; a failure of the row store is
    caught inside [_save_to_db], recorded in the log and not raised.
    So the call returns normally, a following read returns the new
    phase or value, and with an unreachable store the rows are the
    ones from before the call. *)
Theorem store_failure_is_swallowed (w : World) (user_id : Z) :
  (forall st, exists w',
     set_state json_dumps user_id st w = (Ok tt, w') /\
     (get_state user_id w').1 = Ok st /\
     (reachable (db w) = false ->
        db w' = db w /\
        (ERROR, "Error al guardar estado en la base de datos"%string)
          ∈ log w')) /\
  (forall key value default, exists w',
     set_data json_dumps user_id key value w = (Ok tt, w') /\
     (get_data user_id key default w').1 = Ok value /\
     (reachable (db w) = false ->
        db w' = db w /\
        (ERROR, "Error al guardar estado en la base de datos"%string)
          ∈ log w')).
Proof.
  split.
  - intros st.
    destruct (write_then_save user_id (fun c => update_state c st) w)
      as (c & w1 & Hrun & _ & Hlook & Hdown).
    exists {| conversations := conversations w1; db := db w1;
              log := log w1 ++ [(INFO, "Estado de usuario actualizado"%string)];
              outbox := outbox w1 |}.
    split; [|split].
    + unfold set_state. revert Hrun. run_m.
      destruct (get_conversation user_id w) as [[c0|e] w0]; [|done].
      destruct (put_conversation _ _ _) as [[[]|e] w2]; [|done].
      by intros ->.
    + by rewrite (get_state_lookup user_id _ (update_state c st)).
    + intros H. destruct (Hdown H) as [-> Hin]. split; [done|].
      simpl. apply elem_of_app. by left.
  - intros key value default.
    destruct (write_then_save user_id (fun c => conv_set_data c key value) w)
      as (c & w1 & Hrun & _ & Hlook & Hdown).
    exists w1. split; [|split; [|done]].
    + unfold set_data. revert Hrun. by run_m.
    + rewrite (get_data_lookup user_id key default _
                 (conv_set_data c key value)) by done. simpl.
      unfold conv_get_data, conv_set_data. simpl.
      by rewrite lookup_insert_eq.
Qed.

(** C3, counterexample.  With the store out of reach, a phase
    change returns normally and the next read gives the new phase, not
    the previous one; the stored rows are unchanged. *)
Lemma set_state_commits_in_memory :
  let d := {| reachable := false; connected := false; users := []; sites := [];
              user_states := Some [{| telegram_id := 1; state_enum := 2;
                                      state_data := None |}];
              custom_placeholders := []; next_placeholder_id := 1 |} in
  let w := {| conversations := {[ 1%Z := new_conversation REGISTERING ]};
              db := d; log := []; outbox := [] |} in
  let dumps := fun _ : gmap string Value => str "{}" in
  (get_state 1 w).1 = Ok REGISTERING /\
  (set_state dumps 1 CREATING_CONTENT w).1 = Ok tt /\
  (get_state 1 (set_state dumps 1 CREATING_CONTENT w).2).1
    = Ok CREATING_CONTENT /\
  db (set_state dumps 1 CREATING_CONTENT w).2 = d.
Proof. cbv zeta. repeat split; vm_compute; reflexivity. Qed.
End Persistence.

(** ** states.py: the reload at start-up *)

Lemma elem_of_List_filter {A} (f : A -> bool) (l : list A) (x : A) :
  x ∈ List.filter f l <-> x ∈ l /\ f x = true.
Proof. rewrite !list_elem_of_In. apply filter_In. Qed.

Section Reload.
Import Runtime Models States StatesSpec.
Variable json_loads : text -> option (gmap string Value).

Lemma active_user_users (d d' : Db) (uid : Z) :
  users d' = users d -> active_user d' uid = active_user d uid.
Proof. unfold active_user. by intros ->. Qed.

Lemma User_get_by_telegram_id_run (uid : Z) (w : World) :
  exists w',
    User_get_by_telegram_id uid w
    = (Ok (if reachable (db w)
           then List.find (fun u => (u_telegram_id u =? uid)%Z) (users (db w))
           else None), w') /\
    conversations w' = conversations w /\ db w' = db w.
Proof.
  unfold User_get_by_telegram_id. run_m.
  destruct (reachable (db w)); run_m; eauto.
Qed.

Lemma load_state_data_world (row : StateRow) (w : World) r0 w0 :
  load_state_data json_loads row w = (r0, w0) -> w0 = w.
Proof.
  unfold load_state_data. run_m. repeat case_match; by intros [= _ <-].
Qed.

Lemma logger_run (lvl : Level) (msg : string) (w : World) r w' :
  logger lvl msg w = (r, w') ->
  r = Ok tt /\ conversations w' = conversations w /\ db w' = db w.
Proof. unfold logger. run_m. by intros [= <- <-]. Qed.

Lemma delete_state_row_inv (uid : Z) (w : World) r w' :
  delete_state_row uid w = (r, w') ->
  conversations w' = conversations w /\
  users (db w') = users (db w) /\
  reachable (db w') = reachable (db w) /\
  (r = Ok tt ->
   reachable (db w) = true /\
   exists cur,
     user_states (db w) = Some cur /\
     user_states (db w')
     = Some (List.filter (fun r => negb (telegram_id r =? uid)%Z) cur)).
Proof.
  unfold delete_state_row. run_m.
  destruct (reachable (db w)) eqn:Hr; [|by intros [= <- <-]].
  destruct (user_states (db w)) as [rows|] eqn:Hrows; run_m;
    [|by intros [= <- <-]].
  intros [= <- <-]. simpl. split_and!; try done. intros _. eauto.
Qed.

(** What one turn of the reload loop does to the process state. *)
Lemma restore_row_inv (row : StateRow) (w : World) :
  forall r w', restore_row json_loads row w = (r, w') ->
  users (db w') = users (db w) /\
  reachable (db w') = reachable (db w) /\
  (forall uid, is_Some (conversations w' !! uid) ->
     is_Some (conversations w !! uid) \/ active_user (db w) uid = true) /\
  (r = Ok tt ->
   forall cur, user_states (db w) = Some cur ->
     exists cur', user_states (db w') = Some cur' /\
       forall x, x ∈ cur' ->
         x ∈ cur /\
         (telegram_id x = telegram_id row ->
          active_user (db w) (telegram_id row) = true)).
Proof.
  intros r w'. unfold restore_row.
  destruct (User_get_by_telegram_id_run (telegram_id row) w)
    as (w1 & Hu & Hc1 & Hd1).
  assert (Hact : forall u,
    (if reachable (db w)
     then List.find (fun u => (u_telegram_id u =? telegram_id row)%Z)
            (users (db w))
     else None) = Some u ->
    is_active u = true -> active_user (db w) (telegram_id row) = true).
  { intros u Hf Ha. unfold active_user.
    destruct (reachable (db w)); [|done]. by rewrite Hf. }
  assert (Hdel : forall (msg : string) r w',
    (logger INFO msg ;; delete_state_row (telegram_id row)) w1 = (r, w') ->
    users (db w') = users (db w) /\
    reachable (db w') = reachable (db w) /\
    (forall uid, is_Some (conversations w' !! uid) ->
       is_Some (conversations w !! uid) \/ active_user (db w) uid = true) /\
    (r = Ok tt ->
     forall cur, user_states (db w) = Some cur ->
       exists cur', user_states (db w') = Some cur' /\
         forall x, x ∈ cur' ->
           x ∈ cur /\
           (telegram_id x = telegram_id row ->
            active_user (db w) (telegram_id row) = true))).
  { intros msg r1 w3. unfold mbind.
    destruct (logger INFO msg w1) as [r2 w2] eqn:Hlog.
    apply logger_run in Hlog as (-> & Hc2 & Hd2).
    intros (Hc3 & Hu3 & Hr3 & Hok)%delete_state_row_inv.
    rewrite Hc3, Hu3, Hr3, Hc2, Hd2, Hc1, Hd1.
    split_and!; [done|done|by left|].
    intros Hr1. destruct (Hok Hr1) as (_ & cur & Hcur & Hcur').
    rewrite Hd2, Hd1 in Hcur. intros cur0 Hcur0.
    rewrite Hcur0 in Hcur. injection Hcur as <-.
    eexists. split; [done|].
    intros x [Hx Hne]%elem_of_List_filter. split; [done|].
    intros Heq. rewrite Heq, Z.eqb_refl in Hne. done. }
  unfold mbind at 1.
  destruct (load_state_data json_loads row w) as [[sd|e] w0] eqn:Hsd;
    apply load_state_data_world in Hsd as ->.
  2:{ intros [= <- <-]. split_and!; [done|done|by left|done]. }
  unfold mbind at 1. rewrite Hu.
  destruct (if reachable (db w)
            then List.find (fun u => (u_telegram_id u =? telegram_id row)%Z)
                   (users (db w))
            else None) as [u|] eqn:Hfind; [|apply Hdel].
  destruct (is_active u) eqn:Ha; [|apply Hdel].
  destruct (State_of_value (state_enum row)) as [st|]; run_m.
  - intros [= <- <-]. simpl. rewrite Hd1, Hc1.
    split_and!; [done|done| |].
    + intros uid Hs. destruct (decide (uid = telegram_id row)) as [->|Hne].
      * right. by eapply Hact.
      * left. by rewrite lookup_insert_ne in Hs.
    + intros _ cur Hcur. exists cur. split; [done|].
      intros x Hx. split; [done|]. intros _. by eapply Hact.
  - intros [= <- <-]. rewrite Hd1, Hc1.
    split_and!; [done|done|by left|done].
Qed.

(** The same for the whole loop over the fetched rows. *)
Lemma for_each_restore_inv (l : list StateRow) :
  forall w r w', for_each l (restore_row json_loads) w = (r, w') ->
  users (db w') = users (db w) /\
  reachable (db w') = reachable (db w) /\
  (forall uid, is_Some (conversations w' !! uid) ->
     is_Some (conversations w !! uid) \/ active_user (db w) uid = true) /\
  (r = Ok tt ->
   forall cur, user_states (db w) = Some cur ->
     exists cur', user_states (db w') = Some cur' /\
       forall x, x ∈ cur' ->
         x ∈ cur /\
         (forall row, row ∈ l -> telegram_id x = telegram_id row ->
            active_user (db w) (telegram_id row) = true)).
Proof.
  induction l as [|row l IH]; intros w r w'; cbn [for_each].
  - unfold ret. intros [= <- <-]. split_and!; [done|done|by left|].
    intros _ cur Hcur. exists cur. split; [done|].
    intros x Hx. split; [done|]. by intros row ?%elem_of_nil.
  - unfold mbind.
    destruct (restore_row json_loads row w) as [[[]|e] w1] eqn:Hrow;
      apply restore_row_inv in Hrow as (Hu1 & Hr1 & Hm1 & Hok1).
    + intros (Hu2 & Hr2 & Hm2 & Hok2)%IH.
      split_and!; [congruence|congruence| |].
      * intros uid Hs. destruct (Hm2 uid Hs) as [Hs1|Ha].
        -- by apply Hm1.
        -- right. by rewrite <- (active_user_users (db w) (db w1)).
      * intros -> cur Hcur.
        destruct (Hok1 eq_refl cur Hcur) as (cur1 & Hcur1 & Hin1).
        destruct (Hok2 eq_refl cur1 Hcur1) as (cur2 & Hcur2 & Hin2).
        exists cur2. split; [done|]. intros x Hx.
        destruct (Hin2 x Hx) as [Hx1 Hl]. destruct (Hin1 x Hx1) as [Hx0 Hrow].
        split; [done|].
        intros row' [->|Hin]%elem_of_cons Heq; [by apply Hrow|].
        rewrite <- (active_user_users (db w) (db w1)) by done.
        by apply Hl.
    + intros [= <- <-]. split_and!; [done|done|done|done].
Qed.

Lemma restore_row_Ok (row : StateRow) (w : World) :
  reachable (db w) = true ->
  is_Some (user_states (db w)) ->
  row_wellformed json_loads row ->
  exists w', restore_row json_loads row w = (Ok tt, w').
Proof.
  intros Hr [rows Hrows] [Hjson [st Hst]]. unfold restore_row.
  destruct (User_get_by_telegram_id_run (telegram_id row) w)
    as (w1 & Hu & Hc1 & Hd1).
  assert (Hdel : forall msg : string, exists w',
    (logger INFO msg ;; delete_state_row (telegram_id row)) w1 = (Ok tt, w')).
  { intros msg. unfold delete_state_row, logger. run_m.
    rewrite Hd1, Hr, Hrows. eauto. }
  unfold mbind at 1.
  assert (exists sd, load_state_data json_loads row w = (Ok sd, w)) as [sd ->].
  { unfold load_state_data. run_m.
    destruct (state_data row) as [[|c raw]|]; [eauto| |eauto].
    destruct Hjson as [sd ->]. eauto. }
  unfold mbind at 1. rewrite Hu.
  destruct (if reachable (db w) then _ else _) as [u|]; [|apply Hdel].
  destruct (is_active u); [|apply Hdel].
  rewrite Hst. run_m. eauto.
Qed.

Lemma for_each_restore_Ok (l : list StateRow) :
  Forall (row_wellformed json_loads) l ->
  forall w, reachable (db w) = true -> is_Some (user_states (db w)) ->
  exists w', for_each l (restore_row json_loads) w = (Ok tt, w').
Proof.
  induction 1 as [|row l Hrow Hl IH]; intros w Hr Hs; cbn [for_each].
  - unfold ret. eauto.
  - destruct (restore_row_Ok row w Hr Hs Hrow) as [w1 Hw1].
    unfold mbind. rewrite Hw1.
    apply restore_row_inv in Hw1 as (_ & Hr1 & _ & Hok).
    apply IH; [congruence|].
    destruct Hs as [cur Hcur].
    destruct (Hok eq_refl cur Hcur) as (cur' & -> & _). done.
Qed.

(** What the [try] block of the reload leaves behind. *)
Lemma _initialize_from_db_body_inv (d : Db) r w :
  _initialize_from_db_body json_loads (fresh_world d) = (r, w) ->
  (forall uid, is_Some (conversations w !! uid) -> active_user d uid = true) /\
  (r = Ok tt ->
   forall rows row, user_states (db w) = Some rows -> row ∈ rows ->
     active_user d (telegram_id row) = true).
Proof.
  unfold _initialize_from_db_body, fresh_world. unfold mbind at 1.
  unfold execute. cbn [db].
  destruct (reachable d); [|intros [= <- <-]; split; [|done]].
  2:{ simpl. intros uid [c Hc]. by rewrite lookup_empty in Hc. }
  destruct (user_states d) as [[|row0 rows0]|] eqn:Hrows.
  - unfold logger. run_m. intros [= <- <-]. simpl. split.
    + intros uid [c Hc]. by rewrite lookup_empty in Hc.
    + intros _ rows row. rewrite Hrows. intros [= <-]. by intros ?%elem_of_nil.
  - unfold mbind.
    destruct (for_each (row0 :: rows0) (restore_row json_loads) _)
      as [[[]|e] w1] eqn:Hfe;
      apply for_each_restore_inv in Hfe as (Hu & Hr & Hm & Hok);
      simpl in *.
    + intros (-> & Hc2 & Hd2)%logger_run. rewrite Hc2, Hd2. split.
      * intros uid Hs. destruct (Hm uid Hs) as [[c Hc]|Ha]; [|done].
        by rewrite lookup_empty in Hc.
      * intros _ rows row Hrows' Hin.
        destruct (Hok eq_refl _ Hrows) as (cur' & Hcur' & Hall).
        rewrite Hrows' in Hcur'. injection Hcur' as <-.
        destruct (Hall row Hin) as [Hin0 Hact]. by apply (Hact row).
    + intros [= <- <-]. split; [|done].
      intros uid Hs. destruct (Hm uid Hs) as [[c Hc]|Ha]; [|done].
      by rewrite lookup_empty in Hc.
  - unfold logger. run_m. intros [= <- <-]. simpl. split.
    + intros uid [c Hc]. by rewrite lookup_empty in Hc.
    + intros _ rows row [= <-]. by intros ?%elem_of_nil.
Qed.

(** One turn of the loop on a reachable store: what it answers and the
    rows it leaves. *)
Lemma restore_row_store (d : Db) (row : StateRow) (w : World)
    (cur : list StateRow) :
  reachable (db w) = true -> users (db w) = users d ->
  user_states (db w) = Some cur ->
  exists r w',
    restore_row json_loads row w = (r, w') /\
    reachable (db w') = true /\ users (db w') = users d /\
    (r = Ok tt <-> row_aborts json_loads d row = false) /\
    user_states (db w')
    = Some (if row_aborts json_loads d row
               || active_user d (telegram_id row)
            then cur else rows_without (telegram_id row) cur).
Proof.
  intros Hr Hu Hcur. unfold restore_row, row_aborts.
  assert (Hload : load_state_data json_loads row w
                  = (match decoded_data json_loads row with
                     | Some sd => Ok sd
                     | None => Raise (ValueError (str "JSONDecodeError"))
                     end, w)).
  { unfold load_state_data, decoded_data.
    destruct (state_data row) as [[|c raw]|]; try done.
    by destruct (json_loads (c :: raw)). }
  unfold mbind at 1. rewrite Hload.
  destruct (decoded_data json_loads row) as [sd|].
  2:{ eexists _, _. split; [reflexivity|]. by rewrite Hcur. }
  unfold User_get_by_telegram_id, active_user, delete_state_row. run_m.
  rewrite Hr, Hu. cbn.
  destruct (List.find _ (users d)) as [u|]; cbn.
  - destruct (is_active u);
      destruct (State_of_value (state_enum row)) as [st|];
      run_m; rewrite ?Hr, ?Hcur; cbn;
      (eexists _, _; split; [reflexivity|]; cbn; by rewrite ?Hr, ?Hu, ?Hcur).
  - rewrite ?Hr, ?Hcur. cbn.
    destruct (State_of_value (state_enum row)) as [st|];
      (eexists _, _; split; [reflexivity|]; cbn; by rewrite ?Hr, ?Hu).
Qed.

(** The loop on a reachable store: it gets through the rows before the
    first one whose turn raises, and deletes the rows of the users
    among them that are not active. *)
Lemma for_each_restore_store (d : Db) (l : list StateRow) :
  forall (w : World) (cur : list StateRow),
    reachable (db w) = true -> users (db w) = users d ->
    user_states (db w) = Some cur ->
    exists r w' cur',
      for_each l (restore_row json_loads) w = (r, w') /\
      user_states (db w') = Some cur' /\
      (r = Ok tt <-> handled json_loads d l = l) /\
      forall x, x ∈ cur' <->
        x ∈ cur /\
        (active_user d (telegram_id x) = true \/
         telegram_id x ∉ map telegram_id (handled json_loads d l)).
Proof.
  induction l as [|row l IH]; intros w cur Hr Hu Hcur; cbn [for_each handled].
  - exists (Ok tt), w, cur. unfold ret. split_and!; try done.
    intros x. split; [|tauto]. intros Hx. split; [done|].
    right. by intros ?%elem_of_nil.
  - destruct (restore_row_store d row w cur Hr Hu Hcur)
      as (r1 & w1 & Hrun & Hr1 & Hu1 & Hok & Hs1).
    unfold mbind. rewrite Hrun.
    destruct (row_aborts json_loads d row) eqn:Hab.
    + destruct r1 as [[]|e]; [by destruct Hok as [Hok _]; specialize (Hok eq_refl)|].
      exists (Raise e), w1, cur. split_and!; try done.
      intros x. split; [|tauto]. intros Hx. split; [done|].
      right. by intros ?%elem_of_nil.
    + destruct r1 as [[]|e]; [|by destruct Hok as [_ Hok]; specialize (Hok eq_refl)].
      cbn [orb] in Hs1.
      destruct (IH w1 _ Hr1 Hu1 Hs1) as (r & w' & cur' & Hfe & Hs' & Hrok & Hin).
      exists r, w', cur'. split_and!; try done.
      * rewrite Hrok. split; [by intros ->|by intros [= ->]].
      * intros x. rewrite Hin. cbn [map]. rewrite not_elem_of_cons.
        destruct (active_user d (telegram_id row)) eqn:Ha.
        -- split; [|tauto]. intros [Hx [Hax|Hnot]]; [tauto|].
           split; [done|].
           destruct (decide (telegram_id x = telegram_id row)) as [Heq|Hne];
             [left; by rewrite Heq|by right].
        -- unfold rows_without. rewrite elem_of_List_filter, negb_true_iff,
             Z.eqb_neq.
           split.
           ++ intros [[Hx Hne] [Hax|Hnot]]; [tauto|tauto].
           ++ intros [Hx [Hax|[Hne Hnot]]]; [|tauto].
              split; [split; [done|]|by left]. intros Heq. congruence.
Qed.

Lemma handled_wellformed (d : Db) (rows : list StateRow) :
  Forall (row_wellformed json_loads) rows -> handled json_loads d rows = rows.
Proof.
  induction 1 as [|row rows [Hjson [st Hst]] Hrows IH]; [done|].
  cbn [handled]. unfold row_aborts.
  assert (is_Some (decoded_data json_loads row)) as [sd ->].
  { unfold decoded_data. by destruct (state_data row) as [[|c raw]|]. }
  by rewrite Hst, IH.
Qed.

(** The reload of a reachable store with its table of states. *)
Lemma reload_store (d : Db) (rows : list StateRow) :
  reachable d = true -> user_states d = Some rows ->
  exists w rows',
    StateManager_init json_loads d = (Ok tt, w) /\
    user_states (db w) = Some rows' /\
    forall x, x ∈ rows' <->
      x ∈ rows /\
      (active_user d (telegram_id x) = true \/
       telegram_id x ∉ map telegram_id (handled json_loads d rows)).
Proof.
  intros Hr Hrows.
  unfold StateManager_init, _initialize_from_db, try_except,
    _initialize_from_db_body.
  unfold mbind at 1. unfold execute, fresh_world. cbn [db]. rewrite Hr, Hrows.
  destruct rows as [|row0 rows0].
  - unfold logger. run_m. eexists _, _. split; [reflexivity|]. cbn.
    rewrite Hrows. split; [done|]. intros x. split; [|tauto].
    by intros ?%elem_of_nil.
  - destruct (for_each_restore_store d (row0 :: rows0)
                {| conversations := ∅; db := d; log := []; outbox := [] |}
                (row0 :: rows0) Hr eq_refl Hrows)
      as (r & w1 & cur' & Hfe & Hs1 & _ & Hin).
    unfold mbind. rewrite Hfe. unfold logger. run_m.
    destruct r as [[]|e]; (eexists _, cur'; split; [reflexivity|]; by cbn).
Qed.

(** C5, as amended.  [StateManager()] always returns, and afterwards no
    user whom the user table does not report as active has a
    conversation in memory.  The rows of such users are deleted only as
    far as the loop gets: on a reachable store the rows left are the
    rows of the active users and the rows of the users whose turn the
    loop never finished, the loop stopping at the first row whose
    scratch text does not parse or whose user is active with a phase
    number that names no phase.  So when every row can be read, the rows
    left are exactly those of the active users; a store that cannot be
    reached is left as it is. *)
Theorem reload_discards_inactive (d : Db) :
  (StateManager_init json_loads d).1 = Ok tt /\
  (forall uid, active_user d uid = false ->
     conversations (StateManager_init json_loads d).2 !! uid = None) /\
  (reachable d = false -> db (StateManager_init json_loads d).2 = d) /\
  (reachable d = true ->
   forall rows, user_states d = Some rows ->
     exists rows',
       user_states (db (StateManager_init json_loads d).2) = Some rows' /\
       (forall x, x ∈ rows' <->
          x ∈ rows /\
          (active_user d (telegram_id x) = true \/
           telegram_id x ∉ map telegram_id (handled json_loads d rows))) /\
       (Forall (row_wellformed json_loads) rows ->
        forall x, x ∈ rows' <->
          x ∈ rows /\ active_user d (telegram_id x) = true)).
Proof.
  split_and!.
  - unfold StateManager_init, _initialize_from_db, try_except.
    destruct (_initialize_from_db_body json_loads (fresh_world d))
      as [[[]|e] w1]; [done|]. by unfold logger; run_m.
  - intros uid Hina. unfold StateManager_init, _initialize_from_db.
    unfold try_except.
    destruct (_initialize_from_db_body json_loads (fresh_world d))
      as [[[]|e] w1] eqn:Hbody;
      apply _initialize_from_db_body_inv in Hbody as [Hm _].
    + simpl. destruct (conversations w1 !! uid) eqn:E; [|done].
      rewrite Hm in Hina; [done|by eexists].
    + unfold logger. run_m. simpl.
      destruct (conversations w1 !! uid) eqn:E; [|done].
      rewrite Hm in Hina; [done|by eexists].
  - intros Hr. unfold StateManager_init, _initialize_from_db, try_except,
      _initialize_from_db_body, fresh_world.
    unfold mbind at 1. unfold execute. cbn [db]. rewrite Hr.
    by unfold logger; run_m.
  - intros Hr rows Hrows.
    destruct (reload_store d rows Hr Hrows) as (w & rows' & Hinit & Hs & Hin).
    rewrite Hinit. cbn [snd]. exists rows'. split_and!; [done|done|].
    intros Hwf x. rewrite Hin, (handled_wellformed d rows Hwf). split.
    + intros [Hx [Ha|Hnot]]; [done|]. destruct Hnot.
      by apply (list_elem_of_fmap_2 telegram_id).
    + intros [Hx Ha]. split; [done|by left].
Qed.
End Reload.

Section ReloadExamples.
Import Runtime Models States.

(** C5, counterexample.  The one stored row belongs to a user the user
    table does not know, and its scratch text is not JSON: the turn of
    the loop raises before the user is looked up, [StateManager()]
    returns all the same, and the row is still in the store. *)
Lemma reload_keeps_unreadable_row :
  let row := {| telegram_id := 300; state_enum := 3;
                state_data := Some (str "{") |} in
  let d := {| reachable := true; connected := true; users := [];
              sites := []; user_states := Some [row];
              custom_placeholders := []; next_placeholder_id := 1 |} in
  let loads := fun _ : text => @None (gmap string Value) in
  active_user d 300 = false /\
  (StateManager_init loads d).1 = Ok tt /\
  conversations (StateManager_init loads d).2 = ∅ /\
  user_states (db (StateManager_init loads d).2) = Some [row].
Proof. cbv zeta. repeat split; vm_compute; reflexivity. Qed.

(** A store with the rows of an active, an inactive and an unknown user:
    the first is restored, the other two rows are deleted. *)
Example reload_example :
  let d := {| reachable := true; connected := true;
              users := [{| u_id := 1; u_telegram_id := 100;
                           u_status := str "active" |};
                        {| u_id := 2; u_telegram_id := 200;
                           u_status := str "inactive" |}];
              sites := [];
              user_states :=
                Some [{| telegram_id := 100; state_enum := 5;
                         state_data := None |};
                      {| telegram_id := 200; state_enum := 3;
                         state_data := None |};
                      {| telegram_id := 300; state_enum := 3;
                         state_data := None |}];
              custom_placeholders := []; next_placeholder_id := 1 |} in
  let w := (StateManager_init (fun _ => Some ∅) d).2 in
  map_to_list (conversations w)
  = [(100%Z, {| state := UPLOADING_TEMPLATE; data := ∅ |})] /\
  user_states (db w)
  = Some [{| telegram_id := 100; state_enum := 5; state_data := None |}].
Proof. cbv zeta. split; vm_compute; reflexivity. Qed.

(** A row of an active user whose phase number names no phase makes the
    [try] block fail at that row: the failure is logged, no later row is
    restored, and no later row is deleted. *)
Example reload_aborted_example :
  let d := {| reachable := true; connected := true;
              users := [{| u_id := 1; u_telegram_id := 100;
                           u_status := str "active" |}];
              sites := [];
              user_states :=
                Some [{| telegram_id := 100; state_enum := 99;
                         state_data := None |};
                      {| telegram_id := 300; state_enum := 3;
                         state_data := None |}];
              custom_placeholders := []; next_placeholder_id := 1 |} in
  (_initialize_from_db_body (fun _ => Some ∅) (fresh_world d)).1
  = Raise (ValueError (str "not a valid State")) /\
  (StateManager_init (fun _ => Some ∅) d).1 = Ok tt /\
  conversations (StateManager_init (fun _ => Some ∅) d).2 = ∅ /\
  user_states (db (StateManager_init (fun _ => Some ∅) d).2) = user_states d.
Proof. cbv zeta. repeat split; vm_compute; reflexivity. Qed.
End ReloadExamples.

(** ** handlers.py: committing the drafted custom placeholders *)

Section CommitFacts.
Import Placeholder Runtime Models States Handlers.
Variable json_dumps : gmap string Value -> text.









Lemma breadcrumb_run {A} (entry exit : string) (handler : M A) (a : A)
    (w w2 : World) :
  handler {| conversations := conversations w; db := db w;
             log := log w ++ [(DEBUG, entry)]; outbox := outbox w |}
  = (Ok a, w2) ->
  breadcrumb entry exit handler w
  = (Ok a, {| conversations := conversations w2; db := db w2;
              log := log w2 ++ [(DEBUG, exit)]; outbox := outbox w2 |}).
Proof.
  intros H. unfold breadcrumb, mbind at 1, logger at 1, modify at 1.
  unfold mbind at 1. rewrite H. done.
Qed.




End CommitFacts.

Section CommitExample.
Import Placeholder Runtime Models States Handlers.

End CommitExample.

(** * Further properties of the code *)

(** ** states.py: the phase enumeration *)

Section StateEnum.
Import Runtime.

Lemma State_of_value_State_value (s : State) :
  State_of_value (State_value s) = Some s.
Proof. by destruct s. Qed.

End StateEnum.

(** ** states.py: what a write does to memory and to the store *)

Section Writes.
Import Runtime Models States StatesSpec.
Variable json_dumps : gmap string Value -> text.

Lemma _save_to_db_run (uid : Z) (w : World) (c : ConversationData) :
  conversations w !! uid = Some c ->
  exists w',
    _save_to_db json_dumps uid w = (Ok tt, w') /\
    conversations w' = conversations w /\
    outbox w' = outbox w /\
    reachable (db w') = reachable (db w) /\
    users (db w') = users (db w) /\
    sites (db w') = sites (db w) /\
    custom_placeholders (db w') = custom_placeholders (db w) /\
    user_states (db w')
    = (if reachable (db w)
       then match user_states (db w) with
            | Some rows =>
                Some (rows_without uid rows ++ [row_of json_dumps uid c])
            | None => None
            end
       else user_states (db w)).
Proof.
  intros Hc. unfold _save_to_db, upsert_state_row. run_m. rewrite Hc. run_m.
  destruct (reachable (db w)) eqn:Hr; run_m.
  - destruct (user_states (db w)) as [rows|] eqn:Hrows; run_m;
      eexists; split_and!; try reflexivity; simpl; by rewrite ?Hr, ?Hrows.
  - eexists; split_and!; try reflexivity; simpl; by rewrite ?Hr.
Qed.

(** A write: fetch or create the conversation, change it, save it. *)
Lemma write_run (uid : Z) (f : ConversationData -> ConversationData)
    (w : World) :
  exists w',
    (c0 <~ get_conversation uid ;;
     put_conversation uid (f c0) ;;
     _save_to_db json_dumps uid) w = (Ok tt, w') /\
    conversations w' = <[uid := f (current w uid)]> (conversations w) /\
    outbox w' = outbox w /\
    reachable (db w') = reachable (db w) /\
    users (db w') = users (db w) /\
    sites (db w') = sites (db w) /\
    custom_placeholders (db w') = custom_placeholders (db w) /\
    user_states (db w')
    = (if reachable (db w)
       then match user_states (db w) with
            | Some rows =>
                Some (rows_without uid rows
                      ++ [row_of json_dumps uid (f (current w uid))])
            | None => None
            end
       else user_states (db w)).
Proof.
  unfold get_conversation, put_conversation, current. run_m.
  destruct (conversations w !! uid) as [c0|] eqn:Hc; run_m.
  - set (w1 := {| conversations := <[uid:=f c0]> (conversations w);
                  db := db w; log := log w; outbox := outbox w |}).
    destruct (_save_to_db_run uid w1 (f c0)) as (w' & -> & H);
      [apply lookup_insert_eq|].
    exists w'. split; [done|]. exact H.
  - set (w1 := {| conversations :=
                    <[uid:=f (new_conversation IDLE)]>
                      (<[uid:=new_conversation IDLE]> (conversations w));
                  db := db w; log := log w; outbox := outbox w |}).
    destruct (_save_to_db_run uid w1 (f (new_conversation IDLE)))
      as (w' & -> & Hconv & H); [apply lookup_insert_eq|].
    exists w'. split; [done|]. split; [|exact H].
    rewrite Hconv. simpl. apply insert_insert_eq.
Qed.

Lemma set_state_run (uid : Z) (st : State) (w : World) :
  exists w',
    set_state json_dumps uid st w = (Ok tt, w') /\
    conversations w'
    = <[uid := update_state (current w uid) st]> (conversations w) /\
    outbox w' = outbox w /\
    reachable (db w') = reachable (db w) /\
    users (db w') = users (db w) /\
    sites (db w') = sites (db w) /\
    custom_placeholders (db w') = custom_placeholders (db w) /\
    user_states (db w')
    = (if reachable (db w)
       then match user_states (db w) with
            | Some rows =>
                Some (rows_without uid rows
                      ++ [row_of json_dumps uid
                            (update_state (current w uid) st)])
            | None => None
            end
       else user_states (db w)).
Proof.
  destruct (write_run uid (fun c => update_state c st) w) as (w1 & Hrun & H).
  exists {| conversations := conversations w1; db := db w1;
            log := log w1 ++ [(INFO, "Estado de usuario actualizado"%string)];
            outbox := outbox w1 |}.
  split; [|exact H].
  unfold set_state. revert Hrun. run_m.
  destruct (get_conversation uid w) as [[c0|e] w0]; [|done].
  destruct (put_conversation _ _ _) as [[[]|e] w2]; [|done].
  by intros ->.
Qed.

Lemma set_data_run (uid : Z) (key : string) (value : Value) (w : World) :
  exists w',
    set_data json_dumps uid key value w = (Ok tt, w') /\
    conversations w'
    = <[uid := conv_set_data (current w uid) key value]> (conversations w) /\
    outbox w' = outbox w /\
    reachable (db w') = reachable (db w) /\
    users (db w') = users (db w) /\
    sites (db w') = sites (db w) /\
    custom_placeholders (db w') = custom_placeholders (db w) /\
    user_states (db w')
    = (if reachable (db w)
       then match user_states (db w) with
            | Some rows =>
                Some (rows_without uid rows
                      ++ [row_of json_dumps uid
                            (conv_set_data (current w uid) key value)])
            | None => None
            end
       else user_states (db w)).
Proof. apply (write_run uid (fun c => conv_set_data c key value) w). Qed.

Lemma get_state_run (uid : Z) (w : World) :
  (get_state uid w).1 = Ok (state (current w uid)).
Proof.
  unfold get_state, get_conversation, current. run_m.
  by destruct (conversations w !! uid).
Qed.

Lemma get_data_run (uid : Z) (key : string) (default : Value) (w : World) :
  (get_data uid key default w).1
  = Ok (conv_get_data (current w uid) key default).
Proof.
  unfold get_data, get_conversation, current. run_m.
  by destruct (conversations w !! uid).
Qed.

(** X2.  Writes are local.  Changing the phase of a user leaves the
    user's scratch entries as they were; writing a scratch entry leaves
    the user's phase and the other entries as they were; and neither
    changes what is read for another user. *)
Theorem writes_are_local (w : World) (uid : Z) :
  (forall st key default,
     (get_data uid key default (set_state json_dumps uid st w).2).1
     = (get_data uid key default w).1) /\
  (forall key value,
     (get_state uid (set_data json_dumps uid key value w).2).1
     = (get_state uid w).1 /\
     forall key' default, key' <> key ->
       (get_data uid key' default (set_data json_dumps uid key value w).2).1
       = (get_data uid key' default w).1) /\
  (forall other, other <> uid ->
     forall st key value key' default,
       (get_state other (set_state json_dumps uid st w).2).1
       = (get_state other w).1 /\
       (get_state other (set_data json_dumps uid key value w).2).1
       = (get_state other w).1 /\
       (get_data other key' default (set_state json_dumps uid st w).2).1
       = (get_data other key' default w).1 /\
       (get_data other key' default (set_data json_dumps uid key value w).2).1
       = (get_data other key' default w).1).
Proof.
  assert (Hst : forall st u,
    current (set_state json_dumps uid st w).2 u
    = if decide (u = uid) then update_state (current w uid) st
      else current w u).
  { intros st u. destruct (set_state_run uid st w) as (w' & -> & Hc & _).
    simpl. unfold current at 1. rewrite Hc.
    destruct (decide (u = uid)) as [->|Hne].
    - by rewrite lookup_insert_eq.
    - by rewrite lookup_insert_ne. }
  assert (Hsd : forall key value u,
    current (set_data json_dumps uid key value w).2 u
    = if decide (u = uid) then conv_set_data (current w uid) key value
      else current w u).
  { intros key value u.
    destruct (set_data_run uid key value w) as (w' & -> & Hc & _).
    simpl. unfold current at 1. rewrite Hc.
    destruct (decide (u = uid)) as [->|Hne].
    - by rewrite lookup_insert_eq.
    - by rewrite lookup_insert_ne. }
  split; [|split].
  - intros st key default. rewrite !get_data_run, Hst.
    by rewrite decide_True.
  - intros key value. split.
    + rewrite !get_state_run, Hsd. by rewrite decide_True.
    + intros key' default Hne. rewrite !get_data_run, Hsd.
      rewrite decide_True by done. unfold conv_get_data, conv_set_data.
      simpl. by rewrite lookup_insert_ne.
  - intros other Hne st key value key' default.
    rewrite !get_state_run, !get_data_run, !Hst, !Hsd.
    by rewrite !decide_False.
Qed.
End Writes.

Section Saved.
Import Runtime Models States StatesSpec.
Variable json_dumps : gmap string Value -> text.

Lemma rows_without_idem (uid : Z) (rows : list StateRow) :
  rows_without uid (rows_without uid rows) = rows_without uid rows.
Proof.
  unfold rows_without. induction rows as [|r rows IH]; simpl; [done|].
  destruct (negb (telegram_id r =? uid)%Z) eqn:E; simpl; [|done].
  by rewrite E, IH.
Qed.

Lemma rows_of_user_after_upsert (uid : Z) (rows : list StateRow)
    (row : StateRow) :
  telegram_id row = uid ->
  List.filter (fun r => (telegram_id r =? uid)%Z) (rows_without uid rows ++ [row])
  = [row] /\
  rows_without uid (rows_without uid rows ++ [row]) = rows_without uid rows.
Proof.
  intros Hid. unfold rows_without. rewrite !List.filter_app. simpl.
  rewrite Hid, Z.eqb_refl. simpl. rewrite app_nil_r. split.
  - replace (List.filter _ (List.filter _ rows)) with (@nil StateRow); [done|].
    induction rows as [|r rows IH]; simpl; [done|].
    destruct (telegram_id r =? uid)%Z eqn:E; simpl; [done|]. by rewrite E.
  - apply rows_without_idem.
Qed.

(** X3.  On a reachable store every write is saved before the call
    returns: after [set_state] or [set_data] the store holds exactly one
    row for the user, the row of the conversation now in memory, and the
    rows of the other users are the ones from before. *)
Theorem writes_are_saved (w : World) (uid : Z) (rows : list StateRow) :
  reachable (db w) = true ->
  user_states (db w) = Some rows ->
  forall w',
    (exists st, w' = (set_state json_dumps uid st w).2) \/
    (exists key value, w' = (set_data json_dumps uid key value w).2) ->
    exists c rows',
      conversations w' !! uid = Some c /\
      user_states (db w') = Some rows' /\
      List.filter (fun r => (telegram_id r =? uid)%Z) rows'
      = [row_of json_dumps uid c] /\
      rows_without uid rows' = rows_without uid rows.
Proof.
  intros Hr Hrows w' [[st ->]|(key & value & ->)].
  - destruct (set_state_run json_dumps uid st w)
      as (w' & -> & Hc & _ & _ & _ & _ & _ & Hs).
    rewrite Hr, Hrows in Hs. simpl.
    eexists _, _. split; [by rewrite Hc; apply lookup_insert_eq|].
    split; [exact Hs|]. by apply rows_of_user_after_upsert.
  - destruct (set_data_run json_dumps uid key value w)
      as (w' & -> & Hc & _ & _ & _ & _ & _ & Hs).
    rewrite Hr, Hrows in Hs. simpl.
    eexists _, _. split; [by rewrite Hc; apply lookup_insert_eq|].
    split; [exact Hs|]. by apply rows_of_user_after_upsert.
Qed.
End Saved.

Section SavedExample.
Import Runtime Models States StatesSpec.

(** X3, an instance: a user not yet in memory gets a first row. *)
Lemma writes_are_saved_witness :
  let d := {| reachable := true; connected := true; users := []; sites := [];
              user_states := Some [];
              custom_placeholders := []; next_placeholder_id := 1 |} in
  let w := fresh_world d in
  let dumps := fun _ : gmap string Value => str "{}" in
  exists c rows',
    conversations (set_state dumps 7 REGISTERING w).2 !! 7%Z = Some c /\
    user_states (db (set_state dumps 7 REGISTERING w).2) = Some rows' /\
    List.filter (fun r => (telegram_id r =? 7)%Z) rows' = [row_of dumps 7 c] /\
    rows_without 7 rows' = rows_without 7 [].
Proof.
  intros d w dumps.
  exact (writes_are_saved dumps w 7 [] eq_refl eq_refl _
           (or_introl (ex_intro _ REGISTERING eq_refl))).
Defined.
End SavedExample.

(** ** states.py: what the reload restores *)

Section ReloadRestores.
Import Runtime Models States StatesSpec.
Variable json_loads : text -> option (gmap string Value).

Lemma load_state_data_decoded (row : StateRow) (w : World)
    (sd : gmap string Value) :
  decoded_data json_loads row = Some sd ->
  load_state_data json_loads row w = (Ok sd, w).
Proof.
  unfold decoded_data, load_state_data.
  destruct (state_data row) as [[|c raw]|]; try by intros [= <-].
  by intros ->.
Qed.

Lemma row_wellformed_decoded (row : StateRow) :
  row_wellformed json_loads row <->
  is_Some (decoded_data json_loads row)
  /\ is_Some (State_of_value (state_enum row)).
Proof.
  unfold row_wellformed, decoded_data.
  destruct (state_data row) as [[|c raw]|]; naive_solver.
Qed.

(** One turn of the loop on a row that can be read. *)
Lemma restore_row_run (row : StateRow) (w : World) (cur : list StateRow)
    (st : State) (sd : gmap string Value) :
  reachable (db w) = true ->
  user_states (db w) = Some cur ->
  State_of_value (state_enum row) = Some st ->
  decoded_data json_loads row = Some sd ->
  exists w',
    restore_row json_loads row w = (Ok tt, w') /\
    users (db w') = users (db w) /\
    reachable (db w') = true /\
    if active_user (db w) (telegram_id row)
    then conversations w'
         = <[telegram_id row := {| state := st; data := sd |}]>
             (conversations w)
         /\ user_states (db w') = Some cur
    else conversations w' = conversations w
         /\ user_states (db w') = Some (rows_without (telegram_id row) cur).
Proof.
  intros Hr Hcur Hst Hsd. unfold restore_row.
  unfold mbind at 1. rewrite (load_state_data_decoded _ _ _ Hsd).
  unfold mbind at 1. unfold User_get_by_telegram_id, active_user,
    delete_state_row. run_m. rewrite Hr.
  destruct (List.find _ (users (db w))) as [u|]; simpl.
  - destruct (is_active u); rewrite ?Hst; run_m; rewrite ?Hr, ?Hcur; simpl.
    + eexists. split; [reflexivity|]. simpl. by rewrite Hr, Hcur.
    + eexists. split; [reflexivity|]. simpl. by rewrite Hr.
  - rewrite ?Hr, ?Hcur. simpl.
    eexists. split; [reflexivity|]. simpl. by rewrite Hr.
Qed.

Lemma rows_without_comm (a b : Z) (rows : list StateRow) :
  rows_without a (rows_without b rows) = rows_without b (rows_without a rows).
Proof.
  unfold rows_without. induction rows as [|r rows IH]; simpl; [done|].
  destruct (negb (telegram_id r =? b)%Z) eqn:Eb,
           (negb (telegram_id r =? a)%Z) eqn:Ea; simpl;
    rewrite ?Ea, ?Eb, ?IH; done.
Qed.

(** The loop over readable rows, from any reachable state. *)
Lemma for_each_restore_run (l : list StateRow) :
  Forall (row_wellformed json_loads) l ->
  NoDup (map telegram_id l) ->
  forall (w : World) (cur : list StateRow),
    reachable (db w) = true ->
    user_states (db w) = Some cur ->
    exists w' cur',
      for_each l (restore_row json_loads) w = (Ok tt, w') /\
      users (db w') = users (db w) /\
      reachable (db w') = true /\
      user_states (db w') = Some cur' /\
      (forall x, x ∈ cur' <->
         x ∈ cur /\ forall row, row ∈ l -> telegram_id x = telegram_id row ->
                      active_user (db w) (telegram_id row) = true) /\
      (forall uid, uid ∉ map telegram_id l ->
         conversations w' !! uid = conversations w !! uid) /\
      (forall row, row ∈ l ->
         conversations w' !! telegram_id row
         = if active_user (db w) (telegram_id row)
           then restored json_loads row
           else conversations w !! telegram_id row).
Proof.
  induction 1 as [|row l Hrow Hl IH]; intros Hnd w cur Hr Hcur;
    cbn [for_each].
  - exists w, cur. unfold ret. split_and!; try done.
    + intros x. split; [|tauto]. intros Hx. split; [done|].
      by intros row ?%elem_of_nil.
    + by intros row ?%elem_of_nil.
  - apply row_wellformed_decoded in Hrow as [[sd Hsd] [st Hst]].
    simpl in Hnd. apply NoDup_cons in Hnd as [Hnotin Hnd].
    destruct (restore_row_run row w cur st sd Hr Hcur Hst Hsd)
      as (w1 & Hrun & Hu1 & Hr1 & Hact).
    assert (Hau : forall uid, active_user (db w1) uid = active_user (db w) uid).
    { intros uid. unfold active_user. by rewrite Hu1. }
    unfold mbind. rewrite Hrun.
    destruct (active_user (db w) (telegram_id row)) eqn:Ha.
    + destruct Hact as [Hc1 Hs1].
      destruct (IH Hnd w1 cur Hr1 Hs1)
        as (w' & cur' & Hfe & Hu & Hr' & Hs' & Hin & Hout & Hrows).
      exists w', cur'. split_and!; try done; [congruence| | |].
      * intros x. rewrite Hin. split.
        -- intros [Hx Hall]. split; [done|].
           intros r [->|Hr0]%elem_of_cons Heq; [done|].
           rewrite <- Hau. by apply Hall.
        -- intros [Hx Hall]. split; [done|]. intros r Hr0 Heq.
           rewrite Hau. apply Hall; [by apply list_elem_of_further|done].
      * intros uid Hnot. simpl in Hnot. apply not_elem_of_cons in Hnot as [Hne Hnot].
        rewrite Hout by done. rewrite Hc1. by apply lookup_insert_ne.
      * intros r [->|Hr0]%elem_of_cons.
        -- rewrite Hout by done. unfold restored.
           by rewrite Hc1, lookup_insert_eq, Ha, Hst, Hsd.
        -- rewrite Hrows by done. rewrite Hau.
           destruct (active_user (db w) (telegram_id r)); [done|].
           rewrite Hc1. apply lookup_insert_ne. intros Heq. apply Hnotin.
           rewrite Heq. by apply list_elem_of_fmap_2.
    + destruct Hact as [Hc1 Hs1].
      destruct (IH Hnd w1 _ Hr1 Hs1)
        as (w' & cur' & Hfe & Hu & Hr' & Hs' & Hin & Hout & Hrows).
      exists w', cur'. split_and!; try done; [congruence| | |].
      * intros x. rewrite Hin. unfold rows_without.
        rewrite elem_of_List_filter, negb_true_iff, Z.eqb_neq. split.
        -- intros [[Hx Hne] Hall]. split; [done|].
           intros r [->|Hr0]%elem_of_cons Heq; [done|].
           rewrite <- Hau. by apply Hall.
        -- intros [Hx Hall]. split; [split; [done|]|].
           ++ intros Heq. specialize (Hall row (list_elem_of_here _ _) Heq).
              congruence.
           ++ intros r Hr0 Heq. rewrite Hau.
              apply Hall; [by apply list_elem_of_further|done].
      * intros uid Hnot. simpl in Hnot. apply not_elem_of_cons in Hnot as [Hne Hnot].
        rewrite Hout by done. by rewrite Hc1.
      * intros r [->|Hr0]%elem_of_cons.
        -- rewrite Hout by done. by rewrite Hc1, Ha.
        -- rewrite Hrows by done. rewrite Hau. by rewrite Hc1.
Qed.

(** The reload of a reachable store whose rows can all be read and carry
    distinct user ids. *)
Lemma reload_run (d : Db) (rows : list StateRow) :
  reachable d = true ->
  user_states d = Some rows ->
  Forall (row_wellformed json_loads) rows ->
  NoDup (map telegram_id rows) ->
  exists w rows',
    StateManager_init json_loads d = (Ok tt, w) /\
    user_states (db w) = Some rows' /\
    (forall x, x ∈ rows' <-> x ∈ rows /\ active_user d (telegram_id x) = true) /\
    (forall uid, uid ∉ map telegram_id rows -> conversations w !! uid = None) /\
    (forall row, row ∈ rows ->
       conversations w !! telegram_id row
       = if active_user d (telegram_id row) then restored json_loads row
         else None).
Proof.
  intros Hr Hrows Hwf Hnd.
  unfold StateManager_init, _initialize_from_db, try_except,
    _initialize_from_db_body.
  unfold mbind at 1. unfold execute, fresh_world. cbn [db]. rewrite Hr, Hrows.
  destruct rows as [|row0 rows0].
  - unfold logger. run_m. eexists _, _. split; [reflexivity|]. simpl.
    rewrite Hrows. split_and!; try done.
    + intros x. split; [by intros ?%elem_of_nil|by intros [?%elem_of_nil _]].
    + by intros row ?%elem_of_nil.
  - destruct (for_each_restore_run (row0 :: rows0) Hwf Hnd
                {| conversations := ∅; db := d; log := []; outbox := [] |}
                (row0 :: rows0) Hr Hrows)
      as (w1 & cur' & Hfe & Hu & Hr1 & Hs1 & Hin & Hout & Hrow).
    unfold mbind. rewrite Hfe. unfold logger. run_m.
    eexists _, cur'. split; [reflexivity|]. simpl. split_and!; try done.
    intros x. rewrite Hin. split.
    + intros [Hx Hall]. split; [done|]. by apply (Hall x).
    + intros [Hx Ha]. split; [done|]. intros row _ Heq. by rewrite <- Heq.
Qed.

(** X4.  On a reachable store whose rows can all be read, one row per
    user, the reload restores exactly the rows of the active users:
    each of them is in memory with the phase and the scratch entries of
    its row, no other user is in memory, and the rows left in the store
    are those of the active users. *)
Theorem reload_restores_active (d : Db) (rows : list StateRow) :
  reachable d = true ->
  user_states d = Some rows ->
  Forall (row_wellformed json_loads) rows ->
  NoDup (map telegram_id rows) ->
  let w := (StateManager_init json_loads d).2 in
  (forall row, row ∈ rows -> active_user d (telegram_id row) = true ->
     conversations w !! telegram_id row = restored json_loads row /\
     is_Some (restored json_loads row)) /\
  (forall uid, is_Some (conversations w !! uid) ->
     active_user d uid = true /\ uid ∈ map telegram_id rows) /\
  (exists rows', user_states (db w) = Some rows' /\
     forall x, x ∈ rows' <-> x ∈ rows /\ active_user d (telegram_id x) = true).
Proof.
  intros Hr Hrows Hwf Hnd.
  destruct (reload_run d rows Hr Hrows Hwf Hnd)
    as (w & rows' & Hinit & Hs & Hin & Hout & Hrow).
  rewrite Hinit. cbn [snd]. split; [|split].
  - intros row Hin0 Ha. rewrite Hrow, Ha by done. split; [done|].
    rewrite Forall_forall in Hwf. specialize (Hwf row Hin0).
    apply row_wellformed_decoded in Hwf as [[sd Hsd] [st Hst]].
    unfold restored. by rewrite Hst, Hsd.
  - intros uid Hsome.
    destruct (decide (uid ∈ map telegram_id rows)) as [Hin0|Hnot].
    + split; [|done]. apply list_elem_of_fmap in Hin0 as (row & -> & Hin0).
      rewrite Hrow in Hsome by done.
      destruct (active_user d (telegram_id row)); [done|].
      by destruct Hsome.
    + rewrite Hout in Hsome by done. by destruct Hsome.
  - by exists rows'.
Qed.
End ReloadRestores.

Section Restart.
Import Runtime Models States StatesSpec.
Variable json_loads : text -> option (gmap string Value).
Variable json_dumps : gmap string Value -> text.

Lemma NoDup_ids_rows_without (uid : Z) (rows : list StateRow) :
  NoDup (map telegram_id rows) ->
  NoDup (map telegram_id (rows_without uid rows))
  /\ uid ∉ map telegram_id (rows_without uid rows).
Proof.
  unfold rows_without. induction rows as [|r rows IH]; simpl.
  - intros _. split; [constructor|by intros ?%elem_of_nil].
  - intros [Hnot Hnd]%NoDup_cons. destruct (IH Hnd) as [IH1 IH2].
    destruct (telegram_id r =? uid)%Z eqn:E; simpl; [done|].
    apply Z.eqb_neq in E. split.
    + apply NoDup_cons. split; [|done]. intros Hin. apply Hnot.
      apply list_elem_of_fmap in Hin as (x & -> & [Hx _]%elem_of_List_filter).
      by apply list_elem_of_fmap_2.
    + intros [Heq|Hin]%elem_of_cons; [congruence|done].
Qed.

(** X5.  A phase change survives a restart: after [set_state] on a
    reachable store (rows readable, one per user), a new [StateManager]
    built from that store holds, for an active user, the conversation
    that was in memory, provided the saved scratch text decodes to the
    scratch entries it was made from. *)
Theorem phase_survives_restart (w : World) (uid : Z) (rows : list StateRow)
    (st : State) :
  reachable (db w) = true ->
  user_states (db w) = Some rows ->
  Forall (row_wellformed json_loads) rows ->
  NoDup (map telegram_id rows) ->
  active_user (db w) uid = true ->
  decoded_data json_loads
    (row_of json_dumps uid (update_state (current w uid) st))
  = Some (data (current w uid)) ->
  conversations
    (StateManager_init json_loads (db (set_state json_dumps uid st w).2)).2
    !! uid
  = Some (update_state (current w uid) st).
Proof.
  intros Hr Hrows Hwf Hnd Ha Hdec.
  destruct (set_state_run json_dumps uid st w)
    as (w1 & -> & _ & _ & Hr1 & Hu1 & _ & _ & Hs1).
  rewrite Hr, Hrows in Hs1. cbn [snd].
  set (row := row_of json_dumps uid (update_state (current w uid) st)) in *.
  destruct (NoDup_ids_rows_without uid rows Hnd) as [Hnd' Hnot].
  destruct (reload_run json_loads (db w1) (rows_without uid rows ++ [row]))
    as (w2 & rows' & -> & _ & _ & _ & Hrow); [congruence|done| | |].
  - apply Forall_app. split.
    + rewrite Forall_forall in Hwf. apply Forall_forall.
      intros x [Hx _]%elem_of_List_filter. by apply Hwf.
    + constructor; [|constructor]. apply row_wellformed_decoded.
      split; [by eexists|]. simpl.
      by rewrite State_of_value_State_value.
  - rewrite map_app. apply NoDup_app. split; [done|]. split.
    + intros x Hx [->|[]%elem_of_nil]%elem_of_cons. done.
    + simpl. apply NoDup_singleton.
  - cbn [snd]. specialize (Hrow row).
    change (telegram_id row) with uid in Hrow.
    rewrite Hrow; [|apply elem_of_app; right; apply list_elem_of_here].
    unfold active_user in *. rewrite Hu1, Ha.
    unfold restored. rewrite Hdec. simpl.
    by rewrite State_of_value_State_value.
Qed.
End Restart.

Section RestartExamples.
Import Runtime Models States StatesSpec.

(** X4, an instance: one active and one inactive user. *)
Lemma reload_restores_active_witness :
  let d := {| reachable := true; connected := true;
              users := [{| u_id := 1; u_telegram_id := 100;
                           u_status := str "active" |};
                        {| u_id := 2; u_telegram_id := 200;
                           u_status := str "inactive" |}];
              sites := [];
              user_states :=
                Some [{| telegram_id := 100; state_enum := 5;
                         state_data := None |};
                      {| telegram_id := 200; state_enum := 3;
                         state_data := None |}];
              custom_placeholders := []; next_placeholder_id := 1 |} in
  let loads := fun _ : text => Some (∅ : gmap string Value) in
  exists rows',
    user_states (db (StateManager_init loads d).2) = Some rows' /\
    forall x, x ∈ rows' <->
      x ∈ [{| telegram_id := 100; state_enum := 5; state_data := None |};
           {| telegram_id := 200; state_enum := 3; state_data := None |}]
      /\ active_user d (telegram_id x) = true.
Proof.
  intros d loads.
  refine (proj2 (proj2 (reload_restores_active loads d _ eq_refl eq_refl _ _))).
  - repeat constructor; by eexists.
  - apply (bool_decide_unpack _). vm_compute. exact I.
Defined.

(** X5, an instance: an active user known to the store moves to a new
    phase. *)
Lemma phase_survives_restart_witness :
  let d := {| reachable := true; connected := true;
              users := [{| u_id := 1; u_telegram_id := 100;
                           u_status := str "active" |}];
              sites := [];
              user_states :=
                Some [{| telegram_id := 100; state_enum := 1;
                         state_data := None |}];
              custom_placeholders := []; next_placeholder_id := 1 |} in
  let loads := fun _ : text => Some (∅ : gmap string Value) in
  let dumps := fun _ : gmap string Value => str "{}" in
  conversations
    (StateManager_init loads
       (db (set_state dumps 100 CREATING_CONTENT (fresh_world d)).2)).2
    !! 100%Z
  = Some {| state := CREATING_CONTENT; data := ∅ |}.
Proof.
  intros d loads dumps.
  refine (phase_survives_restart loads dumps (fresh_world d) 100 _
            CREATING_CONTENT eq_refl eq_refl _ _ eq_refl eq_refl).
  - repeat constructor; by eexists.
  - apply (bool_decide_unpack _). vm_compute. exact I.
Defined.
End RestartExamples.

(** ** states.py: clearing and resetting *)

Section Clearing.
Import Runtime Models States StatesSpec.
Variable json_dumps : gmap string Value -> text.

Lemma change_known_run (uid : Z) (c c' : ConversationData) (w : World) :
  conversations w !! uid = Some c ->
  exists w',
    (put_conversation uid c' ;; _save_to_db json_dumps uid) w = (Ok tt, w') /\
    conversations w' = <[uid := c']> (conversations w) /\
    user_states (db w')
    = (if reachable (db w)
       then match user_states (db w) with
            | Some rows =>
                Some (rows_without uid rows ++ [row_of json_dumps uid c'])
            | None => None
            end
       else user_states (db w)).
Proof.
  intros Hc. unfold put_conversation. run_m.
  set (w1 := {| conversations := <[uid:=c']> (conversations w);
                db := db w; log := log w; outbox := outbox w |}).
  destruct (_save_to_db_run json_dumps uid w1 c')
    as (w' & -> & Hconv & _ & _ & _ & _ & _ & Hs); [apply lookup_insert_eq|].
  exists w'. by rewrite Hconv.
Qed.

(** X6.  [clear_user_data] empties the scratch entries of a user in
    memory and keeps the phase; [clear_state] puts the user back to the
    idle phase and keeps the scratch entries; both save the result.  For
    a user not in memory both do nothing at all: no conversation is
    created and the store is not touched. *)
Theorem clearing_known_and_unknown (w : World) (uid : Z) :
  (forall c, conversations w !! uid = Some c ->
     (exists w',
        clear_user_data json_dumps uid w = (Ok tt, w') /\
        conversations w' = <[uid := {| state := state c; data := ∅ |}]>
                             (conversations w) /\
        (reachable (db w) = true -> forall rows,
           user_states (db w) = Some rows ->
           user_states (db w')
           = Some (rows_without uid rows
                   ++ [row_of json_dumps uid
                         {| state := state c; data := ∅ |}]))) /\
     (exists w',
        clear_state json_dumps uid w = (Ok tt, w') /\
        conversations w' = <[uid := {| state := IDLE; data := data c |}]>
                             (conversations w) /\
        (reachable (db w) = true -> forall rows,
           user_states (db w) = Some rows ->
           user_states (db w')
           = Some (rows_without uid rows
                   ++ [row_of json_dumps uid
                         {| state := IDLE; data := data c |}])))) /\
  (conversations w !! uid = None ->
     clear_user_data json_dumps uid w = (Ok tt, w) /\
     clear_state json_dumps uid w = (Ok tt, w)).
Proof.
  split.
  - intros c Hc. split.
    + destruct (change_known_run uid c (clear_data c) w Hc)
        as (w' & Hrun & Hconv & Hs).
      exists w'. split; [|split; [done|]].
      * unfold clear_user_data. run_m. rewrite Hc. exact Hrun.
      * intros Hr rows Hrows. by rewrite Hs, Hr, Hrows.
    + destruct (change_known_run uid c (update_state c IDLE) w Hc)
        as (w' & Hrun & Hconv & Hs).
      exists w'. split; [|split; [done|]].
      * unfold clear_state. run_m. rewrite Hc. exact Hrun.
      * intros Hr rows Hrows. by rewrite Hs, Hr, Hrows.
  - intros Hc. unfold clear_user_data, clear_state. run_m. by rewrite Hc.
Qed.

(** X7.  [reset_user] never raises.  It removes a user in memory from
    memory, so that the user reads as idle with no scratch entry
    afterwards, and on a reachable store it removes the user's row and
    no other row; when the store cannot be reached the row stays.  For a
    user not in memory it does nothing, also when the store holds a row
    for that user. *)
Theorem reset_user_forgets (w : World) (uid : Z) :
  (forall c, conversations w !! uid = Some c ->
     exists w',
       reset_user uid w = (Ok tt, w') /\
       conversations w' = delete uid (conversations w) /\
       (get_state uid w').1 = Ok IDLE /\
       (forall key default, (get_data uid key default w').1 = Ok default) /\
       (reachable (db w) = true -> forall rows,
          user_states (db w) = Some rows ->
          user_states (db w') = Some (rows_without uid rows)) /\
       (reachable (db w) = false -> db w' = db w)) /\
  (conversations w !! uid = None -> reset_user uid w = (Ok tt, w)).
Proof.
  split.
  - intros c Hc. unfold reset_user, delete_state_row. run_m. rewrite Hc. run_m.
    assert (Hread : forall w' : World,
      conversations w' = delete uid (conversations w) ->
      (get_state uid w').1 = Ok IDLE /\
      (forall key default, (get_data uid key default w').1 = Ok default)).
    { intros w' Hw'. split.
      - rewrite get_state_run. unfold current.
        by rewrite Hw', lookup_delete_eq.
      - intros key default. rewrite get_data_run. unfold current.
        by rewrite Hw', lookup_delete_eq. }
    destruct (reachable (db w)) eqn:Hr; run_m.
    + destruct (user_states (db w)) as [rows|] eqn:Hrows; run_m.
      * eexists. split; [reflexivity|]. split; [done|].
        destruct (Hread {| conversations := delete uid (conversations w);
                           db := set_user_states
                                   (Some (List.filter
                                      (fun r => negb (telegram_id r =? uid)%Z)
                                      rows)) (db w);
                           log := log w
                                  ++ [(INFO,
                                       "Estado del usuario eliminado de la base de datos"%string)];
                           outbox := outbox w |} eq_refl) as [H1 H2].
        split; [exact H1|]. split; [exact H2|]. split; [|done].
        intros _ rows0 [= <-]. done.
      * eexists. split; [reflexivity|]. split; [done|].
        destruct (Hread {| conversations := delete uid (conversations w);
                           db := db w;
                           log := log w
                                  ++ [(ERROR,
                                       "Error al eliminar estado de la base de datos"%string)];
                           outbox := outbox w |} eq_refl) as [H1 H2].
        split; [exact H1|]. split; [exact H2|]. split; [|done].
        intros _ rows0. done.
    + eexists. split; [reflexivity|]. split; [done|].
      destruct (Hread {| conversations := delete uid (conversations w);
                         db := db w;
                         log := log w
                                ++ [(ERROR,
                                     "Error al eliminar estado de la base de datos"%string)];
                         outbox := outbox w |} eq_refl) as [H1 H2].
      split; [exact H1|]. split; [exact H2|]. split; [done|done].
  - intros Hc. unfold reset_user. run_m. by rewrite Hc.
Qed.
End Clearing.

(** ** placeholder_bot.py: detection and rendering *)

Section Detect.
Import PlaceholderBot.

Lemma occurs_in_short (m t : text) :
  length t < length m -> ~ occurs_in m t.
Proof.
  intros Hlen (pre & post & ->). rewrite !length_app in Hlen. lia.
Qed.

(** The lazy group stops at the first closing pair and never crosses a
    line break. *)
Lemma lazy_group_first_close (r g : text) :
  lazy_group r = Some g ->
  "010" ∉ g /\ ~ occurs_in (str "}}") (g ++ str "}").
Proof.
  revert g. induction r as [|c r IH]; intros g; cbn [lazy_group]; [done|].
  destruct (startswith (str "}}") (c :: r)) eqn:E.
  - intros [= <-]. split; [by intros ?%elem_of_nil|].
    apply occurs_in_short. simpl. lia.
  - destruct (decide (c = "010")) as [|Hnl]; [done|].
    destruct (lazy_group r) as [g'|] eqn:Eg; [|done]. simpl.
    intros [= <-]. destruct (IH g' eq_refl) as [Hn Ho]. split.
    + by intros [?|?]%elem_of_cons.
    + intros (pre & post & Heq). destruct pre as [|d pre].
      * apply lazy_group_Some in Eg as [rest ->].
        simpl in Heq. injection Heq as -> Heq.
        assert (Hs : startswith (str "}}") ("}" :: g' ++ str "}}" ++ rest)
                     = true).
        { destruct g' as [|e g']; simpl in *; [done|].
          injection Heq as -> _. done. }
        congruence.
      * simpl in Heq. injection Heq as -> Heq. apply Ho.
        by exists pre, post.
Qed.

(** X8.  Every name [detect_placeholders] returns stands in the template
    between an opening and a closing pair of braces, holds no line
    break, and ends at the first closing pair: the closing pair occurs
    nowhere in the name followed by one closing brace. *)
Theorem detect_placeholders_sound (t n : text) :
  n ∈ detect_placeholders t ->
  occurs_in (token n) t /\
  "010" ∉ n /\
  ~ occurs_in (str "}}") (n ++ str "}").
Proof.
  unfold detect_placeholders. intros [m Hm]%elem_of_hits.
  pose proof (finditer_hit_occurs _ PLACEHOLDER_PATTERN_pos _ _ _ Hm) as Hocc.
  apply scan_from_hit in Hm as (s' & k & Hp & ->).
  pose proof (PLACEHOLDER_PATTERN_Some _ _ _ Hp) as [_ Htake].
  rewrite Htake in Hocc. split; [exact Hocc|].
  unfold PLACEHOLDER_PATTERN in Hp.
  destruct s' as [|c1 [|c2 r]]; try done.
  { by repeat case_match. }
  repeat case_match; try done; subst.
  injection Hp as <- _.
  by eapply lazy_group_first_close.
Qed.

(** X8, an instance. *)
Lemma detect_placeholders_sound_witness :
  str "nombre" ∈ detect_placeholders (str "Hola {{nombre}}") /\
  occurs_in (token (str "nombre")) (str "Hola {{nombre}}").
Proof.
  assert (H : str "nombre" ∈ detect_placeholders (str "Hola {{nombre}}"))
    by (vm_compute; apply list_elem_of_here).
  split; [exact H|].
  exact (proj1 (detect_placeholders_sound _ _ H)).
Defined.

Lemma sub_pieces_no_hits {A} (repl : A -> result text) (ps : list (@piece A)) :
  hits ps = [] -> sub_pieces repl ps = Ok (flat_map piece_src ps).
Proof.
  induction ps as [|[c|a m] ps IH]; simpl; [done| |done].
  intros H. by rewrite (IH H).
Qed.

Lemma detect_placeholders_no_open (t : text) :
  ~ occurs_in (str "{{") t -> detect_placeholders t = [].
Proof.
  intros Hno. destruct (detect_placeholders t) as [|n l] eqn:E; [done|].
  exfalso. apply Hno.
  assert (n ∈ detect_placeholders t) as Hn
    by (rewrite E; apply list_elem_of_here).
  unfold detect_placeholders in Hn. apply elem_of_hits in Hn as [m Hm].
  pose proof (finditer_hit_occurs _ PLACEHOLDER_PATTERN_pos _ _ _ Hm)
    as (pre & post & Ht).
  apply scan_from_hit in Hm as (s' & k & Hp & ->).
  apply PLACEHOLDER_PATTERN_Some in Hp as [_ Htake].
  rewrite Htake in Ht. exists pre, (n ++ str "}}" ++ post).
  rewrite Ht. by rewrite <- !app_assoc.
Qed.

(** X9.  A template in which no placeholder is detected is returned
    unchanged whatever the data, also with no data at all; this is the
    case of every template without a doubled opening brace. *)
Theorem fill_template_plain (t : text) :
  (detect_placeholders t = [] ->
   forall data, fill_template t data = Ok t) /\
  (~ occurs_in (str "{{") t ->
   forall data, fill_template t data = Ok t).
Proof.
  assert (H : detect_placeholders t = [] ->
              forall data, fill_template t data = Ok t).
  { intros Hd data. unfold fill_template. rewrite Hd. simpl.
    unfold detect_placeholders in Hd.
    rewrite (sub_pieces_no_hits _ _ Hd).
    by rewrite (finditer_src _ PLACEHOLDER_PATTERN_pos). }
  split; [exact H|].
  intros Hno. by apply H, detect_placeholders_no_open.
Qed.

Lemma sub_pieces_ext {A} (f g : A -> result text) (ps : list (@piece A)) :
  (forall a, a ∈ hits ps -> f a = g a) ->
  sub_pieces f ps = sub_pieces g ps.
Proof.
  induction ps as [|[c|a m] ps IH]; intros H; simpl; [done| |].
  - by rewrite IH.
  - rewrite (H a) by apply list_elem_of_here.
    rewrite IH; [done|]. intros a' Ha'. apply H.
    by apply list_elem_of_further.
Qed.

Lemma filter_ext_elem_of {A} (P Q : A -> Prop)
    `{!forall x, Decision (P x)} `{!forall x, Decision (Q x)} (l : list A) :
  (forall a, a ∈ l -> P a <-> Q a) -> filter P l = filter Q l.
Proof.
  induction l as [|x l IH]; intros Hl; [done|].
  rewrite !filter_cons.
  assert (Hx : P x <-> Q x) by apply Hl, list_elem_of_here.
  rewrite IH by (intros a Ha; apply Hl; by apply list_elem_of_further).
  destruct (decide (P x)), (decide (Q x)); tauto.
Qed.

(** X10.  [fill_template] reads the data only at the names detected in
    the template: two mappings that agree on these names give the same
    result, the same text or the same error.  Keys the template does
    not reference, and the order of the keys, are of no effect. *)
Theorem fill_template_reads_detected_names (t : text) (d d' : dict PyVal) :
  (forall n, n ∈ detect_placeholders t -> dict_get d n = dict_get d' n) ->
  fill_template t d = fill_template t d'.
Proof.
  intros H. unfold fill_template.
  assert (Hf : filter (fun ph => dict_mem d ph = false) (detect_placeholders t)
             = filter (fun ph => dict_mem d' ph = false)
                 (detect_placeholders t)).
  { apply filter_ext_elem_of. intros n Hn.
    unfold dict_mem. by rewrite (H n Hn). }
  rewrite Hf. case_match; [|done].
  apply sub_pieces_ext. intros a Ha. unfold replacer.
  by rewrite (H a Ha).
Qed.

(** X10, an instance: one more key, in front. *)
Lemma fill_template_reads_detected_names_witness :
  fill_template (str "Hola {{nombre}}") [(str "nombre", PyStr (str "Ana"))]
  = fill_template (str "Hola {{nombre}}")
      [(str "sitio", PyInt 3); (str "nombre", PyStr (str "Ana"))].
Proof.
  apply (fill_template_reads_detected_names (str "Hola {{nombre}}")).
  intros n Hn.
  assert (n = str "nombre") as ->.
  { vm_compute in Hn. by apply list_elem_of_singleton in Hn. }
  reflexivity.
Defined.
End Detect.

(** ** html_processor.py: the lists of the template scan *)

Section ScanLists.
Import HtmlProcessor.

Lemma classify_builtin_lists (found : gset text) (l : dict PlaceholderInfo) :
  forall acc,
    let r := fold_left (classify_builtin found) l acc in
    sr_required r
    = sr_required acc
      ++ (List.filter (fun e => bool_decide (e.1 ∈ found) && required e.2) l).*1
    /\ sr_optional r
    = sr_optional acc
      ++ (List.filter
            (fun e => bool_decide (e.1 ∈ found) && negb (required e.2)) l).*1
    /\ sr_missing r
    = sr_missing acc
      ++ (List.filter (fun e => negb (bool_decide (e.1 ∈ found))) l).*1.
Proof.
  induction l as [|[p info] l IH]; intros acc; cbn [fold_left List.filter].
  - cbn. by rewrite !app_nil_r.
  - destruct (IH (classify_builtin found acc (p, info))) as (H1 & H2 & H3).
    cbv zeta in *. rewrite H1, H2, H3. unfold classify_builtin. cbn [fst snd].
    destruct (decide (p ∈ found)) as [Hin|Hout].
    + rewrite (bool_decide_eq_true_2 _ Hin).
      destruct (required info); cbn; by rewrite <- ?app_assoc.
    + rewrite (bool_decide_eq_false_2 _ Hout). cbn.
      by rewrite <- ?app_assoc.
Qed.

Lemma classify_found_lists (l : list text) : forall acc,
  let r := fold_left classify_found l acc in
  sr_required r = sr_required acc /\
  sr_optional r = sr_optional acc /\
  sr_unknown r
  = sr_unknown acc
    ++ List.filter (fun k => negb (dict_mem PLACEHOLDERS k)) l.
Proof.
  induction l as [|x l IH]; intros acc; cbn [fold_left List.filter].
  - cbn. by rewrite app_nil_r.
  - destruct (IH (classify_found acc x)) as (H1 & H2 & H3).
    cbv zeta in *. rewrite H1, H2, H3. unfold classify_found.
    destruct (dict_mem PLACEHOLDERS x); cbn; by rewrite <- ?app_assoc.
Qed.

Lemma filter_keys {V} (f : text -> bool) (g : V -> bool) (l : dict V) :
  (List.filter (fun e => f e.1 && g e.2) l).*1
  = List.filter f ((List.filter (fun e => g e.2) l).*1).
Proof.
  induction l as [|[k v] l IH]; [done|]. cbn.
  destruct (g v); cbn; destruct (f k); cbn; by rewrite ?IH.
Qed.

Lemma three_way_split {V} (f g : text * V -> bool) (l : dict V) :
  (List.filter (fun e => f e && g e) l).*1
  ++ (List.filter (fun e => f e && negb (g e)) l).*1
  ++ (List.filter (fun e => negb (f e)) l).*1
  ≡ₚ l.*1.
Proof.
  induction l as [|e l IH]; [done|]. cbn.
  destruct (f e), (g e); cbn.
  - by rewrite IH.
  - rewrite <- Permutation_middle. by rewrite IH.
  - rewrite <- !Permutation_middle. by rewrite IH.
  - rewrite <- !Permutation_middle. by rewrite IH.
Qed.

Lemma NoDup_List_filter {A} (f : A -> bool) (l : list A) :
  NoDup l -> NoDup (List.filter f l).
Proof.
  induction 1 as [|x l Hx Hl IH]; cbn; [constructor|].
  destruct (f x); [|done]. constructor; [|done].
  intros [? _]%elem_of_List_filter. done.
Qed.

Lemma find_placeholders_in_template_lists (t : text) :
  sr_required (find_placeholders_in_template t)
  = List.filter (fun k => bool_decide (k ∈ found_placeholders t))
      (keys_with_flag true) /\
  sr_optional (find_placeholders_in_template t)
  = List.filter (fun k => bool_decide (k ∈ found_placeholders t))
      (keys_with_flag false).
Proof.
  unfold find_placeholders_in_template. cbv zeta.
  set (found := found_placeholders t).
  set (acc0 := {| sr_required := []; sr_optional := []; sr_missing := [];
                  sr_unknown := [] |}).
  destruct (classify_builtin_lists found PLACEHOLDERS acc0) as (B1 & B2 & _).
  destruct (classify_found_lists (elements found)
              (fold_left (classify_builtin found) PLACEHOLDERS acc0))
    as (F1 & F2 & _).
  cbv zeta in *. rewrite F1, F2, B1, B2.
  cbn [sr_required sr_optional acc0 app]. split.
  - pose proof (filter_keys (fun k => bool_decide (k ∈ found)) required
                  PLACEHOLDERS) as Hk.
    cbv beta in Hk. rewrite Hk. unfold keys_with_flag.
    do 2 f_equal; apply List.filter_ext; intros [k i]; by destruct (required i).
  - pose proof (filter_keys (fun k => bool_decide (k ∈ found))
                  (fun i => negb (required i)) PLACEHOLDERS) as Hk.
    cbv beta in Hk. rewrite Hk. unfold keys_with_flag.
    do 2 f_equal; apply List.filter_ext; intros [k i]; by destruct (required i).
Qed.

(** X11.  The scan sorts the names of the builtin table into three
    lists: [required] holds, in table order, the required names that
    occur in the template, [optional] the optional names that occur in
    it, and every builtin name is in exactly one of [required],
    [optional] and [missing], once.  No name is listed twice in
    [unknown]. *)
Theorem find_placeholders_in_template_partition (t : text) :
  let r := find_placeholders_in_template t in
  sr_required r
  = List.filter (fun k => bool_decide (k ∈ found_placeholders t))
      (keys_with_flag true) /\
  sr_optional r
  = List.filter (fun k => bool_decide (k ∈ found_placeholders t))
      (keys_with_flag false) /\
  (forall k, k ∈ PLACEHOLDERS.*1 ->
     (k ∈ found_placeholders t <-> occurs_in k t)) /\
  sr_required r ++ sr_optional r ++ sr_missing r ≡ₚ PLACEHOLDERS.*1 /\
  NoDup (sr_unknown r).
Proof.
  cbv zeta.
  destruct (find_placeholders_in_template_lists t) as [L1 L2].
  split; [exact L1|]. split; [exact L2|]. clear L1 L2.
  unfold find_placeholders_in_template. cbv zeta.
  set (found := found_placeholders t).
  set (acc0 := {| sr_required := []; sr_optional := []; sr_missing := [];
                  sr_unknown := [] |}).
  destruct (classify_builtin_lists found PLACEHOLDERS acc0) as (B1 & B2 & B3).
  destruct (classify_found_lists (elements found)
              (fold_left (classify_builtin found) PLACEHOLDERS acc0))
    as (F1 & F2 & F3).
  cbv zeta in *.
  rewrite F1, F2, F3, classify_found_missing, classify_builtin_unknown.
  rewrite B1, B2, B3. cbn [sr_required sr_optional sr_missing sr_unknown acc0 app].
  split; [|split].
  - intros k Hk. unfold found. rewrite elem_of_found_placeholders.
    split; [by intros [_ ?]|]. intros Ho. split; [|done].
    by apply builtin_is_token.
  - apply (three_way_split (fun e => bool_decide (e.1 ∈ found))
             (fun e => required e.2)).
  - apply NoDup_List_filter, NoDup_elements.
Qed.
End ScanLists.

(** ** html_processor.py: lenient rendering, further *)

Section ReplaceMore.
Import HtmlProcessor HtmlSpec.

Lemma replace_scan_absent (old new : text) (s : text) :
  (forall p q, s = p ++ q -> startswith old q = false) ->
  flat_map (replace_piece new) (scan_from (replace_at old) 0 s) = s.
Proof.
  induction s as [|c s IH]; intros Hno; [done|].
  cbn [scan_from]. unfold replace_at at 1.
  rewrite (Hno [] (c :: s) eq_refl). simpl. f_equal.
  apply IH. intros p q -> . by apply (Hno (c :: p) q).
Qed.

(** [s.replace(old, new)] is [s] when [old] does not occur in it. *)
Lemma str_replace_absent (old new s : text) :
  old <> [] -> ~ occurs_in old s -> str_replace old new s = s.
Proof.
  intros Hne Hno. unfold str_replace. destruct old as [|c old]; [done|].
  apply replace_scan_absent. intros p q ->.
  destruct (startswith (c :: old) q) eqn:E; [|done].
  apply startswith_app in E as [rest ->]. destruct Hno. by exists p, rest.
Qed.

(** The search text of every key begins with the opening pair. *)
Lemma wrap_key_open (k : text) : exists r, wrap_key k = str "{{" ++ r.
Proof.
  unfold wrap_key. destruct (startswith (str "{{") k) eqn:E.
  - by apply startswith_app in E.
  - by eexists.
Qed.

Lemma replaced_plain (t : text) (values : dict PyVal) :
  ~ occurs_in (str "{{") t -> replaced t values = t.
Proof.
  intros Hno. unfold replaced.
  induction values as [|[k v] vs IH]; [done|]. cbn [fold_left fst snd].
  rewrite str_replace_absent; [exact IH| |].
  - destruct (wrap_key_open k) as [r ->]. done.
  - destruct (wrap_key_open k) as [r ->].
    intros (pre & post & ->). apply Hno. exists pre, (r ++ post).
    by rewrite <- !app_assoc.
Qed.

(** X12.  On a template without a doubled opening brace,
    [replace_placeholders] returns the template unchanged exactly when
    the text of every value of the mapping can be built (an integer of
    more than 4300 digits has none), whatever the keys; it returns
    nothing else. *)
Theorem replace_placeholders_plain (t : text) (values : dict PyVal) :
  ~ occurs_in (str "{{") t ->
  (convertible values <-> replace_placeholders t values = Ok t) /\
  (forall out, replace_placeholders t values = Ok out -> out = t).
Proof.
  intros Hno. split; [split|].
  - intros Hc. rewrite replace_placeholders_convertible by done.
    by rewrite replaced_plain.
  - by intros [Hc _]%replace_placeholders_Ok.
  - intros out [_ ->]%replace_placeholders_Ok. by apply replaced_plain.
Qed.

(** X12, an instance: single braces are not delimiters. *)
Lemma replace_placeholders_plain_witness :
  replace_placeholders (str "a{b}") [(str "b", PyStr (str "x"))]
  = Ok (str "a{b}").
Proof.
  apply replace_placeholders_plain.
  - intros (pre & post & H).
    destruct pre as [|c1 [|c2 [|c3 [|c4 [|c5 pre]]]]]; done.
  - by repeat constructor.
Defined.

Lemma token_inj (K N : text) : token K = token N -> K = N.
Proof.
  unfold token. intros H. apply app_inv_head in H.
  by apply app_inv_tail in H.
Qed.

(** One replacement acts piece by piece on a template cut into plain
    stretches and tokens. *)
Lemma str_replace_items (K new : text) (items : list item) :
  brace_free K -> Forall item_ok items ->
  str_replace (token K) new (unparse items)
  = unparse (map (subst_item K new) items).
Proof.
  intros HK. induction 1 as [|i items Hi Hitems IH]; [done|].
  unfold unparse in *. cbn [flat_map map]. rewrite <- IH.
  destruct i as [s|N]; cbn [item_text subst_item].
  - by apply str_replace_no_open.
  - destruct (decide (N = K)) as [->|Hne]; cbn [item_text].
    + by apply str_replace_head.
    + pose proof (str_replace_keeps_token K N new []
                    (flat_map item_text items) HK Hi (not_eq_sym Hne)) as H.
      exact H.
Qed.

Lemma subst_item_ok (K new : text) (items : list item) :
  no_open new -> Forall item_ok items ->
  Forall item_ok (map (subst_item K new) items).
Proof.
  intros Hnew. induction 1 as [|i items Hi Hitems IH]; constructor; [|done].
  destruct i as [s|N]; [done|]. simpl. by destruct (decide (N = K)).
Qed.

Lemma render_subst_item (k K : text) (v : PyVal) (vs : dict PyVal) (i : item) :
  wrap_key k = token K ->
  render_item vs (subst_item K (value_text v) i)
  = render_item ((k, v) :: vs) i.
Proof.
  intros Hk. destruct i as [s|N]; [done|]. cbn [subst_item render_item].
  unfold value_for. cbn [List.find fst]. rewrite Hk.
  destruct (decide (N = K)) as [->|Hne].
  - by rewrite bool_decide_eq_true_2.
  - rewrite bool_decide_eq_false_2; [done|].
    intros ?%token_inj. congruence.
Qed.

(** The lenient renderer on a template cut into pieces. *)
Lemma replaced_items (items : list item) (values : dict PyVal) :
  Forall item_ok items ->
  Forall (fun kv => (exists K, key_for kv.1 K) /\ no_open (value_text kv.2))
    values ->
  replaced (unparse items) values
  = flat_map (render_item values) items.
Proof.
  intros Hitems Hvalues. revert items Hitems.
  induction Hvalues as [|[k v] vs [[K HK] Hv] Hvs IH]; intros items Hitems.
  - unfold replaced, unparse. cbn [fold_left].
    apply flat_map_ext. by intros [s|N].
  - unfold replaced in *. cbn [fold_left fst snd] in *.
    pose proof (wrap_key_for k K HK) as Hk. rewrite Hk.
    rewrite str_replace_items by (done || apply HK).
    rewrite IH by (by apply subst_item_ok).
    rewrite flat_map_concat_map, map_map, <- flat_map_concat_map.
    apply flat_map_ext. intros i. by apply render_subst_item.
Qed.

(** X13.  On a template made of stretches without an opening brace and
    of tokens of brace-free names, with keys that are such names (in
    either spelling) and values whose text can be built and has no
    opening brace, [replace_placeholders] returns, and is one
    substitution pass: every stretch is copied, every token whose name
    has a key is replaced by the text of the first value stored for it,
    and every other token stays. *)
Theorem replace_placeholders_pass (items : list item) (values : dict PyVal) :
  Forall item_ok items ->
  Forall (fun kv => (exists K, key_for kv.1 K) /\ no_open (value_text kv.2))
    values ->
  convertible values ->
  replace_placeholders (unparse items) values
  = Ok (flat_map (render_item values) items).
Proof.
  intros Hitems Hvalues Hc.
  rewrite replace_placeholders_convertible by done.
  by rewrite replaced_items.
Qed.

(** X13, an instance: two occurrences of one name, one key spelled with
    its delimiters, one name without a key. *)
Lemma replace_placeholders_pass_witness :
  replace_placeholders (str "<h1>{{TITLE}}</h1>{{X}}<p>{{TITLE}}</p>")
    [(str "{{TITLE}}", PyStr (str "Hola")); (str "SLUG", PyNone)]
  = Ok (str "<h1>Hola</h1>{{X}}<p>Hola</p>").
Proof.
  apply (replace_placeholders_pass
           [Text (str "<h1>"); Tok (str "TITLE"); Text (str "</h1>");
            Tok (str "X"); Text (str "<p>"); Tok (str "TITLE");
            Text (str "</p>")]
           [(str "{{TITLE}}", PyStr (str "Hola")); (str "SLUG", PyNone)]).
  - repeat (apply Forall_cons; split;
              [cbn [item_ok]; unfold no_open, brace_free;
               apply (bool_decide_unpack _); vm_compute; exact I|]).
    apply Forall_nil_2.
  - repeat constructor; simpl; try discriminate.
    + exists (str "TITLE"). split; [|by right].
      apply (bool_decide_unpack _). vm_compute. exact I.
    + exists (str "SLUG"). split; [|by left].
      apply (bool_decide_unpack _). vm_compute. exact I.
  - by repeat constructor.
Defined.
End ReplaceMore.

(** ** Value validation, further *)

Section ValidationMore.
Import HtmlProcessor Placeholder.
Variable float_parses : text -> bool.

(** X14.  The two validators agree on every kind and value as long as
    the placeholder is not an enumerated one with an empty or absent
    options string; and whatever [CustomPlaceholder.validate_value]
    accepts, [validate_placeholder_value] accepts as well. *)
Theorem validators_agree (self : CustomPlaceholder) (v : option text) :
  (validate_value float_parses self v = true ->
   validate_placeholder_value float_parses (placeholder_type self) v
     (options self) = true) /\
  (placeholder_type self <> str "desplegable" \/ truthy (options self) = true ->
   validate_value float_parses self v
   = validate_placeholder_value float_parses (placeholder_type self) v
       (options self)).
Proof.
  unfold validate_value, validate_placeholder_value.
  destruct v as [[|c x]|]; [done| |done].
  destruct (decide (placeholder_type self = str "numero")); [done|].
  destruct (decide (placeholder_type self = str "url")); [done|].
  destruct (decide (placeholder_type self = str "desplegable")); [|done].
  destruct (options self) as [[|d o]|]; simpl; split; try done.
  - by intros [?|?].
  - by intros [?|?].
Qed.

Lemma split_no_sep (sep : ascii) (s x : text) :
  x ∈ split sep s -> sep ∉ x.
Proof.
  revert x. induction s as [|c s IH]; intros x; simpl.
  - intros ->%list_elem_of_singleton. by intros ?%elem_of_nil.
  - destruct (decide (c = sep)) as [->|Hne].
    + intros [->|Hx]%elem_of_cons; [by intros ?%elem_of_nil|by apply IH].
    + destruct (split sep s) as [|h t] eqn:E.
      * intros ->%list_elem_of_singleton.
        intros [?|?%elem_of_nil]%elem_of_cons; [congruence|done].
      * intros [->|Hx]%elem_of_cons.
        -- intros [?|Hin]%elem_of_cons; [congruence|].
           by apply (IH h); [apply list_elem_of_here|].
        -- apply IH. by apply list_elem_of_further.
Qed.

Lemma lstrip_elem_of (s : text) (c : ascii) : c ∈ lstrip s -> c ∈ s.
Proof.
  induction s as [|d s IH]; simpl; [done|].
  destruct (is_space d); [|done]. intros H. by apply list_elem_of_further, IH.
Qed.

Lemma elem_of_rev {A} (l : list A) (x : A) : x ∈ rev l <-> x ∈ l.
Proof. rewrite !list_elem_of_In. symmetry. apply in_rev. Qed.

Lemma strip_elem_of (s : text) (c : ascii) : c ∈ strip s -> c ∈ s.
Proof.
  unfold strip. rewrite elem_of_rev. intros H%lstrip_elem_of.
  rewrite elem_of_rev in H. by apply lstrip_elem_of.
Qed.

Lemma lstrip_split (s : text) :
  exists p, s = p ++ lstrip s /\
            match lstrip s with c :: _ => is_space c = false | [] => True end.
Proof.
  induction s as [|d s (p & Hp & Hc)]; simpl; [by exists []|].
  destruct (is_space d) eqn:E.
  - exists (d :: p). split; [by rewrite Hp at 1|done].
  - by exists [].
Qed.

Lemma lstrip_id (s : text) :
  match s with c :: _ => is_space c = false | [] => True end -> lstrip s = s.
Proof. destruct s as [|c s]; simpl; [done|]. by intros ->. Qed.

(** [strip] is idempotent. *)
Lemma strip_strip (s : text) : strip (strip s) = strip s.
Proof.
  unfold strip.
  destruct (lstrip_split s) as (p & _ & Ha).
  set (a := lstrip s) in *.
  destruct (lstrip_split (rev a)) as (q & Hq & Hb).
  set (b := lstrip (rev a)) in *.
  assert (Hrb : lstrip (rev b) = rev b).
  { apply lstrip_id. destruct (rev b) as [|x r] eqn:E; [done|].
    apply (f_equal (@rev ascii)) in Hq.
    rewrite rev_involutive, rev_app_distr, E in Hq.
    rewrite Hq in Ha. exact Ha. }
  rewrite Hrb, rev_involutive. by rewrite (lstrip_id b Hb).
Qed.

Lemma option_is_trimmed (o x : text) :
  x ∈ map strip (split "," o) -> strip x = x /\ "," ∉ x.
Proof.
  intros (y & -> & Hy)%list_elem_of_fmap. split; [apply strip_strip|].
  intros H%strip_elem_of. by apply (split_no_sep _ _ _ Hy).
Qed.

(** X15.  An enumerated placeholder never accepts a value with a comma
    or with white space at either end: a value
    [CustomPlaceholder.validate_value] accepts for the enumerated kind
    is its own trimmed form and holds no comma, and so is a value
    [validate_placeholder_value] accepts when the options string is not
    empty. *)
Theorem enumerated_values_are_trimmed (v : text) :
  (forall self : CustomPlaceholder,
     placeholder_type self = str "desplegable" ->
     validate_value float_parses self (Some v) = true ->
     strip v = v /\ "," ∉ v) /\
  (forall opts,
     truthy opts = true ->
     validate_placeholder_value float_parses (str "desplegable") (Some v) opts
     = true ->
     strip v = v /\ "," ∉ v).
Proof.
  assert (Hnil : strip [] = [] /\ "," ∉ @nil ascii)
    by (split; [done|by intros ?%elem_of_nil]).
  split.
  - intros self Hty. unfold validate_value. rewrite Hty.
    destruct v as [|c x]; [done|]. simpl.
    destruct (options self) as [[|d o]|]; rewrite bool_decide_eq_true;
      [by intros ?%elem_of_nil| |by intros ?%elem_of_nil].
    apply option_is_trimmed.
  - intros opts Hopts. unfold validate_placeholder_value.
    destruct v as [|c x]; [done|]. simpl.
    destruct opts as [[|d o]|]; [done| |done].
    rewrite bool_decide_eq_true. apply option_is_trimmed.
Qed.
End ValidationMore.

(** ** models/placeholder.py: the table of custom placeholders *)

Section Store.
Import HtmlProcessor Placeholder Runtime Models PlaceholderStore.

Lemma get_by_id_run (i : Z) (w : World) :
  reachable (db w) = true ->
  CustomPlaceholder_get_by_id i w
  = (Ok (List.find (has_id i) (custom_placeholders (db w))), w).
Proof. intros Hr. unfold CustomPlaceholder_get_by_id. run_m. by rewrite Hr. Qed.

Lemma get_by_site_id_run (site : Z) (w : World) :
  reachable (db w) = true ->
  CustomPlaceholder_get_by_site_id site w = (Ok (rows_of_site (db w) site), w).
Proof.
  intros Hr. unfold CustomPlaceholder_get_by_site_id. run_m. by rewrite Hr.
Qed.

Lemma get_by_placeholder_name_run (site : Z) (n : text) (w : World) :
  reachable (db w) = true ->
  CustomPlaceholder_get_by_placeholder_name site n w
  = (Ok (List.find (has_name site n) (custom_placeholders (db w))), w).
Proof.
  intros Hr. unfold CustomPlaceholder_get_by_placeholder_name. run_m.
  by rewrite Hr.
Qed.

Lemma find_unique {A B} (f : A -> B) (p : A -> bool) (l : list A) (x : A) :
  (forall y, p y = true <-> f y = f x) ->
  NoDup (map f l) -> x ∈ l -> List.find p l = Some x.
Proof.
  intros Hp. induction l as [|y l IH]; intros Hnd Hx; [by apply elem_of_nil in Hx|].
  cbn in Hnd. apply NoDup_cons in Hnd as [Hy Hnd]. cbn.
  apply elem_of_cons in Hx as [->|Hx].
  - by rewrite (proj2 (Hp y) eq_refl).
  - destruct (p y) eqn:E; [|by apply IH].
    apply Hp in E. destruct Hy. rewrite E.
    by apply (list_elem_of_fmap_2 f).
Qed.

Lemma find_none {A} (p : A -> bool) (l : list A) :
  (forall y, y ∈ l -> p y = false) -> List.find p l = None.
Proof.
  induction l as [|y l IH]; intros H; [done|]. cbn.
  rewrite (H y) by apply list_elem_of_here.
  apply IH. intros z Hz. by apply H, list_elem_of_further.
Qed.

Lemma find_app_r {A} (p : A -> bool) (l1 l2 : list A) :
  List.find p (l1 ++ l2)
  = match List.find p l1 with Some x => Some x | None => List.find p l2 end.
Proof. induction l1 as [|y l1 IH]; [done|]. cbn. by destruct (p y). Qed.

Lemma has_name_key (site : Z) (n : text) (r : CustomPlaceholder) :
  has_name site n r = true <-> key_of r = (site, n).
Proof.
  unfold has_name, key_of.
  rewrite andb_true_iff, Z.eqb_eq, bool_decide_eq_true. split.
  - by intros [-> ->].
  - by intros [= -> ->].
Qed.

Lemma unique_conflict_false (rows : list CustomPlaceholder) (site : Z)
    (n : text) :
  unique_conflict rows site n = false <-> (site, n) ∉ map key_of rows.
Proof.
  unfold unique_conflict. induction rows as [|r rows IH]; cbn.
  - split; [by intros _ ?%elem_of_nil|done].
  - rewrite orb_false_iff, IH, not_elem_of_cons.
    fold (has_name site n r).
    pose proof (has_name_key site n r) as Hk.
    destruct (has_name site n r); split.
    + by intros [? _].
    + intros [Hne _]. destruct Hne. symmetry. by apply Hk.
    + intros [_ ?]. split; [|done]. intros Heq.
      symmetry in Heq. apply Hk in Heq. done.
    + by intros [_ ?].
Qed.

Lemma has_id_iff (i : Z) (r : CustomPlaceholder) :
  has_id i r = true <-> id r = Some i.
Proof. unfold has_id. apply bool_decide_eq_true. Qed.

Lemma table_ok_fresh (d : Db) (r : CustomPlaceholder) :
  table_ok d -> r ∈ custom_placeholders d ->
  has_id (next_placeholder_id d) r = false.
Proof.
  intros (_ & Hids & _ & _) Hr. rewrite Forall_forall in Hids.
  destruct (Hids r Hr) as (i & Hi & Hlt).
  unfold has_id. apply bool_decide_eq_false_2. rewrite Hi. intros [= ->]. lia.
Qed.

Lemma table_ok_insert (d : Db) (self : CustomPlaceholder) :
  table_ok d ->
  unique_conflict (custom_placeholders d) (site_id self) (placeholder_name self)
  = false ->
  table_ok (set_custom_placeholders
              (custom_placeholders d ++ [with_id (next_placeholder_id d) self])
              (next_placeholder_id d + 1) d).
Proof.
  intros Hok Hu. pose proof Hok as (Hpos & Hids & Hnd & Hkeys).
  unfold table_ok. cbn. split; [lia|]. split; [|split].
  - apply Forall_app. split.
    + eapply Forall_impl; [exact Hids|].
      intros r (i & Hi & Hlt). exists i. split; [done|lia].
    + constructor; [|constructor]. exists (next_placeholder_id d).
      split; [done|lia].
  - rewrite map_app. cbn. apply NoDup_app. split; [done|]. split.
    + intros x Hx ->%list_elem_of_singleton.
      apply list_elem_of_fmap in Hx as (r & Hid & Hr).
      pose proof (table_ok_fresh d r Hok Hr) as Hf.
      unfold has_id in Hf. apply bool_decide_eq_false in Hf. congruence.
    + apply NoDup_singleton.
  - rewrite map_app. cbn. apply NoDup_app. split; [done|]. split.
    + intros x Hx ->%list_elem_of_singleton.
      by apply unique_conflict_false in Hu.
    + apply NoDup_singleton.
Qed.
Lemma create_run (data : CustomPlaceholder) (w : World) :
  reachable (db w) = true ->
  unique_conflict (custom_placeholders (db w)) (site_id data)
    (placeholder_name data) = false ->
  CustomPlaceholder_create data w
  = (Ok (Some (with_id (next_placeholder_id (db w)) data)),
     set_db (set_custom_placeholders
               (custom_placeholders (db w)
                ++ [with_id (next_placeholder_id (db w)) data])
               (next_placeholder_id (db w) + 1) (db w)) w).
Proof.
  intros Hr Hu. unfold CustomPlaceholder_create. run_m. by rewrite Hr, Hu.
Qed.

(** X16.  Insert and lookup round-trip.  On a reachable store, creating
    a placeholder whose name is free at its site returns the new row:
    the given fields under the next id of the counter.  Afterwards the
    row is what the lookups by id and by site and name return, the rows
    of its site are the former ones and the new one, the lookups by
    another id are as before, and the table still has ids and names
    unique. *)
Theorem create_then_lookup (w : World) (data : CustomPlaceholder) :
  reachable (db w) = true ->
  table_ok (db w) ->
  unique_conflict (custom_placeholders (db w)) (site_id data)
    (placeholder_name data) = false ->
  exists w',
    let new_id := next_placeholder_id (db w) in
    let row := with_id new_id data in
    CustomPlaceholder_create data w = (Ok (Some row), w') /\
    table_ok (db w') /\
    (CustomPlaceholder_get_by_id new_id w').1 = Ok (Some row) /\
    (CustomPlaceholder_get_by_placeholder_name (site_id data)
       (placeholder_name data) w').1 = Ok (Some row) /\
    (forall site r,
       r ∈ rows_of_site (db w') site <->
       r ∈ rows_of_site (db w) site \/ (r = row /\ site = site_id data)) /\
    (forall site,
       (CustomPlaceholder_get_by_site_id site w').1
       = Ok (rows_of_site (db w') site)) /\
    (forall i, i <> new_id ->
       (CustomPlaceholder_get_by_id i w').1
       = (CustomPlaceholder_get_by_id i w).1).
Proof.
  intros Hr Hok Hu. eexists. cbv zeta.
  split; [by apply create_run|].
  set (row := with_id (next_placeholder_id (db w)) data).
  set (w' := set_db _ w).
  assert (Hr' : reachable (db w') = true) by done.
  assert (Hok' : table_ok (db w')) by by apply table_ok_insert.
  assert (Hin : row ∈ custom_placeholders (db w')).
  { cbn. apply elem_of_app. right. apply list_elem_of_here. }
  split; [done|]. split; [|split; [|split; [|split]]].
  - rewrite get_by_id_run by done. cbn [fst]. f_equal.
    apply (find_unique id); [|apply Hok'|done].
    intros y. by rewrite has_id_iff.
  - rewrite get_by_placeholder_name_run by done. cbn [fst]. f_equal.
    apply (find_unique key_of); [|apply Hok'|done].
    intros y. by rewrite has_name_key.
  - intros site r. unfold rows_of_site. cbn.
    rewrite List.filter_app, elem_of_app. cbn.
    destruct (Z.eqb_spec (site_id data) site) as [<-|Hne].
    + rewrite list_elem_of_singleton. naive_solver.
    + rewrite elem_of_nil. naive_solver.
  - intros site. by rewrite get_by_site_id_run.
  - intros i Hi. rewrite !get_by_id_run by done. cbn [fst]. f_equal.
    cbn. rewrite find_app_r. cbn.
    destruct (List.find (has_id i) (custom_placeholders (db w))); [done|].
    unfold has_id at 1. cbn. rewrite bool_decide_eq_false_2; [done|].
    intros [= Heq]. congruence.
Qed.

(** X16, an instance: the first row of an empty table. *)
Lemma create_then_lookup_witness :
  let d := {| reachable := true; connected := true; users := []; sites := [];
              user_states := None; custom_placeholders := [];
              next_placeholder_id := 1 |} in
  let w := {| conversations := ∅; db := d; log := []; outbox := [] |} in
  let data := {| id := None; site_id := 4; placeholder_name := str "AUTOR";
                 display_name := str "Autor";
                 placeholder_type := str "texto"; options := None |} in
  exists w',
    CustomPlaceholder_create data w = (Ok (Some (with_id 1 data)), w') /\
    (CustomPlaceholder_get_by_id 1 w').1 = Ok (Some (with_id 1 data)).
Proof.
  intros d w data.
  assert (Hok : table_ok (db w)).
  { split; [done|]. split; [constructor|]. split; constructor. }
  destruct (create_then_lookup w data eq_refl Hok eq_refl)
    as (w' & H1 & _ & H2 & _).
  exists w'. split; [exact H1|exact H2].
Defined.

(** X17.  [CustomPlaceholder.create] raises only when the statement
    fails on a connection that cannot roll back either (closed or never
    opened): then the exception of the rollback leaves it and nothing
    has changed.  Otherwise it returns, and it answers [None] exactly when
    the store cannot be reached or the site already has a placeholder
    of that name; then the store and the conversations are as they
    were. *)
Theorem create_refusal (w : World) (data : CustomPlaceholder) :
  match CustomPlaceholder_create data w with
  | (Raise e, w') =>
      reachable (db w) = false /\ connected (db w) = false /\
      e = DbError /\ w' = w
  | (Ok r, w') =>
      (reachable (db w) = true \/ connected (db w) = true) /\
      (r = None <->
       reachable (db w) = false \/
       unique_conflict (custom_placeholders (db w)) (site_id data)
         (placeholder_name data) = true) /\
      (r = None -> db w' = db w /\ conversations w' = conversations w)
  end.
Proof.
  unfold CustomPlaceholder_create. run_m.
  destruct (reachable (db w)) eqn:Hr; cbn.
  - destruct (unique_conflict _ _ _) eqn:Hu; run_m; rewrite ?Hr; cbn.
    + split; [by left|]. split; [|done]. split; auto.
    + split; [by left|]. split; [|done]. split; [done|]. by intros [?|?].
  - rewrite Hr. cbn. destruct (connected (db w)) eqn:Hc; cbn.
    + split; [by right|]. split; [|done]. split; auto.
    + by destruct w.
Qed.

(** [create] on a closed connection: the rollback raises. *)
Lemma create_raises_when_closed :
  let d := {| reachable := false; connected := false; users := [];
              sites := []; user_states := None; custom_placeholders := [];
              next_placeholder_id := 1 |} in
  let w := {| conversations := ∅; db := d; log := []; outbox := [] |} in
  let data := {| id := None; site_id := 4; placeholder_name := str "AUTOR";
                 display_name := str "Autor";
                 placeholder_type := str "texto"; options := None |} in
  CustomPlaceholder_create data w = (Raise DbError, w).
Proof. reflexivity. Qed.

Lemma NoDup_map_filter {A B} (g : A -> B) (f : A -> bool) (l : list A) :
  NoDup (map g l) -> NoDup (map g (List.filter f l)).
Proof.
  induction l as [|x l IH]; cbn; [done|].
  intros [Hx Hl]%NoDup_cons. destruct (f x); cbn; [|by apply IH].
  apply NoDup_cons. split; [|by apply IH].
  intros (y & Hy & Hin)%list_elem_of_fmap. apply Hx.
  apply elem_of_List_filter in Hin as [Hin _].
  rewrite Hy. by apply (list_elem_of_fmap_2 g).
Qed.

Lemma table_ok_filter (d : Db) (f : CustomPlaceholder -> bool) :
  table_ok d ->
  table_ok (set_custom_placeholders (List.filter f (custom_placeholders d))
              (next_placeholder_id d) d).
Proof.
  intros (Hpos & Hids & Hnd & Hkeys). unfold table_ok. cbn.
  split; [done|]. split; [|split; by apply NoDup_map_filter].
  rewrite Forall_forall in *. intros r [Hr _]%elem_of_List_filter.
  by apply Hids.
Qed.

Lemma find_filter_same (i : Z) (l : list CustomPlaceholder) :
  List.find (has_id i) (List.filter (fun r => negb (has_id i r)) l) = None.
Proof.
  apply find_none. intros y [_ Hy]%elem_of_List_filter.
  by destruct (has_id i y).
Qed.

Lemma has_id_other (i j : Z) (r : CustomPlaceholder) :
  j <> i -> has_id j r = true -> has_id i r = false.
Proof.
  unfold has_id. intros Hne H%bool_decide_eq_true.
  apply bool_decide_eq_false_2. rewrite H. congruence.
Qed.

Lemma find_filter_other (i j : Z) (l : list CustomPlaceholder) :
  j <> i ->
  List.find (has_id j) (List.filter (fun r => negb (has_id i r)) l)
  = List.find (has_id j) l.
Proof.
  intros Hne. induction l as [|r l IH]; [done|]. cbn.
  destruct (has_id j r) eqn:Ej.
  - rewrite (has_id_other i j r Hne Ej). cbn. by rewrite Ej.
  - destruct (has_id i r); cbn; [done|]. by rewrite Ej.
Qed.

(** X19.  [CustomPlaceholder.delete] raises only when the object has
    an id, the statement fails and the connection cannot roll back
    either (closed or never opened); then nothing has changed.
    Otherwise it returns, and it answers [False] exactly when the object
    has no id (or the id 0) or the store cannot be reached; then the
    store is as it was.  After a successful delete the lookup by the id
    finds nothing, the lookups by another id are as before, every site
    has its former rows without the one of the id, and ids and names
    are still unique. *)
Theorem delete_then_lookup (w : World) (self : CustomPlaceholder) :
  match CustomPlaceholder_delete self w with
  | (Raise e, w') =>
      truthy_id self <> None /\
      reachable (db w) = false /\ connected (db w) = false /\
      e = DbError /\ w' = w
  | (Ok ok, w') =>
      (truthy_id self = None \/
       reachable (db w) = true \/ connected (db w) = true) /\
      (ok = false <-> truthy_id self = None \/ reachable (db w) = false) /\
      (ok = false -> db w' = db w) /\
      (ok = true ->
       forall i, truthy_id self = Some i ->
         (CustomPlaceholder_get_by_id i w').1 = Ok None /\
         (forall j, j <> i ->
            (CustomPlaceholder_get_by_id j w').1
            = (CustomPlaceholder_get_by_id j w).1) /\
         (forall site r,
            r ∈ rows_of_site (db w') site <->
            r ∈ rows_of_site (db w) site /\ id r <> Some i) /\
         (table_ok (db w) -> table_ok (db w')))
  end.
Proof.
  unfold CustomPlaceholder_delete.
  destruct (truthy_id self) as [i|] eqn:Hi.
  2:{ run_m. split; [by left|]. split; [|done]. split; auto. }
  unfold put_rows. run_m. destruct (reachable (db w)) eqn:Hr; cbn.
  - split; [by right; left|]. split; [|split; [done|]].
    { split; [done|]. by intros [?|?]. }
    intros _ i' [= <-].
    set (w' := {| conversations := conversations w;
                  db := set_custom_placeholders _ _ (db w);
                  log := log w; outbox := outbox w |}).
    assert (Hr' : reachable (db w') = true) by done.
    split; [|split; [|split]].
    + rewrite get_by_id_run by done. cbn. f_equal. apply find_filter_same.
    + intros j Hj. rewrite !get_by_id_run by done. cbn. f_equal.
      by apply find_filter_other.
    + intros site r. unfold rows_of_site. cbn.
      rewrite !elem_of_List_filter. unfold has_id.
      rewrite negb_true_iff, bool_decide_eq_false. tauto.
    + apply table_ok_filter.
  - rewrite Hr. cbn. destruct (connected (db w)) eqn:Hc; cbn.
    + split; [by right; right|]. split; [|done]. split; auto.
    + split; [done|]. by destruct w.
Qed.

(** [delete] on a closed connection: the rollback raises. *)
Lemma delete_raises_when_closed :
  let d := {| reachable := false; connected := false; users := [];
              sites := []; user_states := None; custom_placeholders := [];
              next_placeholder_id := 1 |} in
  let w := {| conversations := ∅; db := d; log := []; outbox := [] |} in
  let self := {| id := Some 3%Z; site_id := 4;
                 placeholder_name := str "AUTOR"; display_name := str "Autor";
                 placeholder_type := str "texto"; options := None |} in
  CustomPlaceholder_delete self w = (Raise DbError, w).
Proof. reflexivity. Qed.

Lemma map_update_absent (i : Z) (self : CustomPlaceholder)
    (l : list CustomPlaceholder) :
  (forall r, r ∈ l -> has_id i r = false) ->
  map (fun r => if has_id i r then self else r) l = l.
Proof.
  induction l as [|r l IH]; intros H; [done|]. cbn.
  rewrite (H r) by apply list_elem_of_here. f_equal.
  apply IH. intros r' Hr'. by apply H, list_elem_of_further.
Qed.

Lemma filter_absent (i : Z) (l : list CustomPlaceholder) :
  (forall r, r ∈ l -> has_id i r = false) ->
  List.filter (fun r => negb (has_id i r)) l = l.
Proof.
  induction l as [|r l IH]; intros H; [done|]. cbn.
  rewrite (H r) by apply list_elem_of_here. cbn. f_equal.
  apply IH. intros r' Hr'. by apply H, list_elem_of_further.
Qed.

Lemma existsb_has_id_false (i : Z) (l : list CustomPlaceholder) :
  existsb (has_id i) l = false <-> forall r, r ∈ l -> has_id i r = false.
Proof.
  induction l as [|r l IH]; cbn.
  - split; [by intros _ r ?%elem_of_nil|done].
  - rewrite orb_false_iff, IH. split.
    + intros [H1 H2] r' [->|?]%elem_of_cons; auto.
    + intros H. split; [apply H, list_elem_of_here|].
      intros r' Hr'. by apply H, list_elem_of_further.
Qed.

Lemma ids_update (i : Z) (self : CustomPlaceholder)
    (l : list CustomPlaceholder) :
  id self = Some i ->
  map id (map (fun r => if has_id i r then self else r) l) = map id l.
Proof.
  intros Hid. induction l as [|r l IH]; [done|]. cbn. rewrite IH. f_equal.
  destruct (has_id i r) eqn:E; [|done]. apply has_id_iff in E. congruence.
Qed.

Lemma keys_update (i : Z) (self : CustomPlaceholder)
    (l : list CustomPlaceholder) :
  NoDup (map id l) -> NoDup (map key_of l) ->
  key_of self ∉ map key_of (List.filter (fun r => negb (has_id i r)) l) ->
  NoDup (map key_of (map (fun r => if has_id i r then self else r) l)).
Proof.
  induction l as [|r l IH]; [done|]. cbn [map List.filter].
  intros [Hidr Hids]%NoDup_cons [Hkr Hkeys]%NoDup_cons.
  destruct (has_id i r) eqn:E; cbn [negb map].
  - assert (Habs : forall r', r' ∈ l -> has_id i r' = false).
    { intros r' Hr'. destruct (has_id i r') eqn:E'; [|done].
      apply has_id_iff in E, E'. destruct Hidr. rewrite E, <- E'.
      by apply (list_elem_of_fmap_2 id). }
    rewrite (filter_absent i l Habs), (map_update_absent i self l Habs).
    intros Hs. by apply NoDup_cons.
  - intros [Hne Hs]%not_elem_of_cons. apply NoDup_cons. split; [|by apply IH].
    intros (y & Hy & Hin)%list_elem_of_fmap.
    apply list_elem_of_fmap in Hin as (r' & -> & Hr').
    destruct (has_id i r'); [congruence|].
    apply Hkr. rewrite Hy. by apply (list_elem_of_fmap_2 key_of).
Qed.

Lemma table_ok_update (d : Db) (i : Z) (self : CustomPlaceholder) :
  table_ok d -> id self = Some i ->
  existsb (has_id i) (custom_placeholders d)
  && unique_conflict
       (List.filter (fun r => negb (has_id i r)) (custom_placeholders d))
       (site_id self) (placeholder_name self) = false ->
  table_ok (set_custom_placeholders
              (map (fun r => if has_id i r then self else r)
                 (custom_placeholders d))
              (next_placeholder_id d) d).
Proof.
  intros Hok Hid Hc.
  destruct (existsb (has_id i) (custom_placeholders d)) eqn:Ex.
  2:{ rewrite existsb_has_id_false in Ex.
      rewrite (map_update_absent i self _ Ex). by destruct d. }
  cbn in Hc. apply unique_conflict_false in Hc.
  destruct Hok as (Hpos & Hids & Hnd & Hkeys). unfold table_ok. cbn.
  split; [done|]. split; [|split].
  - rewrite Forall_forall in *.
    intros y (r & -> & Hr)%list_elem_of_fmap.
    destruct (has_id i r) eqn:E; [|by apply Hids].
    destruct (Hids r Hr) as (j & Hj & Hlt). apply has_id_iff in E.
    exists i. split; [done|]. congruence.
  - by rewrite ids_update.
  - by apply keys_update.
Qed.

Lemma find_update_other (i j : Z) (self : CustomPlaceholder)
    (l : list CustomPlaceholder) :
  id self = Some i -> j <> i ->
  List.find (has_id j) (map (fun r => if has_id i r then self else r) l)
  = List.find (has_id j) l.
Proof.
  intros Hid Hne. induction l as [|r l IH]; [done|]. cbn.
  destruct (has_id i r) eqn:E.
  - assert (has_id j self = false) as ->.
    { unfold has_id. apply bool_decide_eq_false_2. rewrite Hid. congruence. }
    assert (has_id j r = false) as ->; [|done].
    destruct (has_id j r) eqn:Ej; [|done].
    by rewrite (has_id_other i j r Hne Ej) in E.
  - by rewrite IH.
Qed.

Lemma find_update_same (i : Z) (self : CustomPlaceholder)
    (l : list CustomPlaceholder) :
  id self = Some i ->
  List.find (has_id i) (map (fun r => if has_id i r then self else r) l)
  = if existsb (has_id i) l then Some self else None.
Proof.
  intros Hid. induction l as [|r l IH]; [done|]. cbn.
  destruct (has_id i r) eqn:E; cbn.
  - by rewrite (proj2 (has_id_iff i self) Hid).
  - by rewrite E.
Qed.

Lemma truthy_id_Some (self : CustomPlaceholder) (i : Z) :
  truthy_id self = Some i -> id self = Some i /\ i <> 0%Z.
Proof.
  unfold truthy_id. destruct (id self) as [j|]; [|done].
  destruct (Z.eqb_spec j 0); [done|]. by intros [= <-].
Qed.

(** X18.  [CustomPlaceholder.save] on a reachable store with unique ids
    and names never raises.  It answers [False] exactly when another
    row holds the site and name of the object, and then object and
    store are as they were.  Saving an object without an id inserts it
    under the next id, which the object takes, and the lookup by that
    id returns the object.  Saving an object with an id leaves the
    object as it is and puts it in the place of the row of that id, so
    that the lookup by the id returns the object; when the table has no
    row of that id nothing is stored, yet the answer is [True].  The
    lookups by any other id are as before, and ids and names stay
    unique. *)
Theorem save_then_lookup (w : World) (self : CustomPlaceholder) :
  reachable (db w) = true ->
  table_ok (db w) ->
  exists ok self' w',
    let rows := custom_placeholders (db w) in
    CustomPlaceholder_save self w = (Ok (ok, self'), w') /\
    table_ok (db w') /\
    (ok = false <->
     match truthy_id self with
     | Some i =>
         existsb (has_id i) rows = true /\
         unique_conflict (List.filter (fun r => negb (has_id i r)) rows)
           (site_id self) (placeholder_name self) = true
     | None =>
         unique_conflict rows (site_id self) (placeholder_name self) = true
     end) /\
    (ok = false -> self' = self /\ db w' = db w) /\
    (ok = true ->
     match truthy_id self with
     | Some i =>
         self' = self /\
         (CustomPlaceholder_get_by_id i w').1
         = Ok (if existsb (has_id i) rows then Some self else None) /\
         (existsb (has_id i) rows = false ->
          custom_placeholders (db w') = rows) /\
         (forall j, j <> i ->
            (CustomPlaceholder_get_by_id j w').1
            = (CustomPlaceholder_get_by_id j w).1)
     | None =>
         self' = with_id (next_placeholder_id (db w)) self /\
         (CustomPlaceholder_get_by_id (next_placeholder_id (db w)) w').1
         = Ok (Some self') /\
         (forall j, j <> next_placeholder_id (db w) ->
            (CustomPlaceholder_get_by_id j w').1
            = (CustomPlaceholder_get_by_id j w).1)
     end).
Proof.
  intros Hr Hok. cbv zeta. unfold CustomPlaceholder_save, put_rows. run_m.
  rewrite Hr. cbn.
  destruct (truthy_id self) as [i|] eqn:Hi.
  - apply truthy_id_Some in Hi as [Hid Hnz].
    destruct (existsb (has_id i) (custom_placeholders (db w))
              && unique_conflict _ _ _) eqn:Hc; run_m; rewrite ?Hr; cbn [orb].
    + apply andb_true_iff in Hc as [Hc1 Hc2].
      eexists _, _, _. split; [reflexivity|]. cbn.
      split; [done|]. split; [done|]. split; [done|]. done.
    + eexists _, _, _. split; [reflexivity|]. cbn [db].
      set (w' := {| conversations := conversations w;
                    db := set_custom_placeholders _ _ (db w);
                    log := log w; outbox := outbox w |}).
      assert (Hr' : reachable (db w') = true) by done.
      split; [by apply table_ok_update|].
      split.
      { split; [done|]. intros [H1 H2]. by rewrite H1, H2 in Hc. }
      split; [done|]. intros _. split; [done|]. split; [|split].
      * rewrite get_by_id_run by done. cbn. f_equal.
        by apply find_update_same.
      * intros Ex. apply map_update_absent.
        by apply existsb_has_id_false.
      * intros j Hj. rewrite !get_by_id_run by done. cbn. f_equal.
        by apply find_update_other.
  - destruct (unique_conflict _ _ _) eqn:Hc; run_m; rewrite ?Hr; cbn [orb].
    + eexists _, _, _. split; [reflexivity|]. cbn. done.
    + eexists _, _, _. split; [reflexivity|]. cbn [db].
      set (w' := {| conversations := conversations w;
                    db := set_custom_placeholders _ _ (db w);
                    log := log w; outbox := outbox w |}).
      assert (Hr' : reachable (db w') = true) by done.
      assert (Hok' : table_ok (db w')) by by apply table_ok_insert.
      split; [done|]. split; [done|]. split; [done|]. intros _.
      split; [done|]. split.
      * rewrite get_by_id_run by done. cbn [fst]. f_equal.
        apply (find_unique id); [|apply Hok'|].
        -- intros y. by rewrite has_id_iff.
        -- cbn. apply elem_of_app. right. apply list_elem_of_here.
      * intros j Hj. rewrite !get_by_id_run by done. cbn [fst]. f_equal.
        cbn. rewrite find_app_r. cbn.
        destruct (List.find (has_id j) (custom_placeholders (db w)));
          [done|].
        unfold has_id at 1. cbn. rewrite bool_decide_eq_false_2; [done|].
        intros [= Heq]. congruence.
Qed.

(** X18, an instance: the row of id 1 gets a new display name. *)
Lemma save_then_lookup_witness :
  let old := {| id := Some 1%Z; site_id := 4; placeholder_name := str "AUTOR";
                display_name := str "Autor";
                placeholder_type := str "texto"; options := None |} in
  let new := {| id := Some 1%Z; site_id := 4; placeholder_name := str "AUTOR";
                display_name := str "Firma";
                placeholder_type := str "texto"; options := None |} in
  let d := {| reachable := true; connected := true; users := []; sites := [];
              user_states := None; custom_placeholders := [old];
              next_placeholder_id := 2 |} in
  let w := {| conversations := ∅; db := d; log := []; outbox := [] |} in
  exists w',
    CustomPlaceholder_save new w = (Ok (true, new), w') /\
    (CustomPlaceholder_get_by_id 1 w').1 = Ok (Some new).
Proof.
  intros old new d w.
  assert (Hok : table_ok (db w)).
  { split; [done|]. split; [|split].
    - constructor; [|constructor]. exists 1%Z. split; [done|]. cbn. lia.
    - cbn. apply NoDup_singleton.
    - cbn. apply NoDup_singleton. }
  destruct (save_then_lookup w new eq_refl Hok)
    as (ok & self' & w' & Hrun & _ & _ & _ & Htrue).
  cbv zeta in Hrun.
  assert (Heq : CustomPlaceholder_save new w
                = (Ok (true, new),
                   set_db (set_custom_placeholders [new] 2 d) w))
    by reflexivity.
  rewrite Heq in Hrun. injection Hrun as <- <- <-.
  eexists. split; [reflexivity|].
  destruct (Htrue eq_refl) as (_ & Hget & _). exact Hget.
Defined.
End Store.

(** ** models/site.py: the cached list of a site object *)

Section SiteCache.
Import HtmlProcessor Placeholder Runtime Models PlaceholderStore SiteModel.

Lemma create_fail (data : CustomPlaceholder) (w : World) :
  (reachable (db w) = false /\ connected (db w) = true) \/
  (reachable (db w) = true /\
   unique_conflict (custom_placeholders (db w)) (site_id data)
     (placeholder_name data) = true) ->
  exists w', CustomPlaceholder_create data w = (Ok None, w') /\ db w' = db w.
Proof.
  intros H. unfold CustomPlaceholder_create. run_m.
  destruct H as [[Hr Hc]|[Hr Hu]]; rewrite Hr; cbn.
  - rewrite Hr, Hc. cbn. by eexists.
  - rewrite Hu. run_m. rewrite Hr. cbn. by eexists.
Qed.

Lemma create_raise (data : CustomPlaceholder) (w : World) :
  reachable (db w) = false -> connected (db w) = false ->
  CustomPlaceholder_create data w = (Raise DbError, w).
Proof.
  intros Hr Hc. unfold CustomPlaceholder_create. run_m.
  rewrite Hr. cbn. rewrite Hr, Hc. cbn. by destruct w.
Qed.

Lemma get_by_id_unreachable (i : Z) (w : World) :
  reachable (db w) = false ->
  exists w', CustomPlaceholder_get_by_id i w = (Ok None, w') /\ db w' = db w.
Proof.
  intros Hr. unfold CustomPlaceholder_get_by_id. run_m. rewrite Hr. cbn.
  by eexists.
Qed.

Lemma find_Some_elem {A} (p : A -> bool) (l : list A) (x : A) :
  List.find p l = Some x -> x ∈ l /\ p x = true.
Proof.
  intros H. apply find_some in H as [H1 H2]. by rewrite list_elem_of_In.
Qed.

Lemma Permutation_List_filter {A} (f : A -> bool) (l1 l2 : list A) :
  l1 ≡ₚ l2 -> List.filter f l1 ≡ₚ List.filter f l2.
Proof.
  induction 1 as [|x l1 l2 H IH|x y l|l1 l2 l3 H1 IH1 H2 IH2]; cbn.
  - done.
  - destruct (f x); by rewrite IH.
  - destruct (f x), (f y); try done. apply perm_swap.
  - by rewrite IH1.
Qed.

Lemma replace_first_map (i : Z) (q : CustomPlaceholder)
    (l : list CustomPlaceholder) :
  NoDup (map id l) ->
  replace_first i q l = map (fun r => if has_id i r then q else r) l.
Proof.
  induction l as [|r l IH]; [done|]. cbn.
  intros [Hr Hl]%NoDup_cons. destruct (has_id i r) eqn:E.
  - f_equal. symmetry. apply map_update_absent.
    intros r' Hr'. destruct (has_id i r') eqn:E'; [|done].
    apply has_id_iff in E, E'. destruct Hr. rewrite E, <- E'.
    by apply (list_elem_of_fmap_2 id).
  - f_equal. by apply IH.
Qed.

Lemma setattr_keeps_place (kwargs : list Assign) :
  Forall keeps_place kwargs ->
  forall p, id (fold_left setattr kwargs p) = id p /\
            site_id (fold_left setattr kwargs p) = site_id p.
Proof.
  induction 1 as [|a kwargs Ha Hk IH]; intros p; [done|]. cbn.
  destruct (IH (setattr p a)) as [-> ->]. by destruct a.
Qed.

Lemma NoDup_map_eq {A B} (f : A -> B) (l : list A) (x y : A) :
  NoDup (map f l) -> x ∈ l -> y ∈ l -> f x = f y -> x = y.
Proof.
  induction l as [|z l IH]; cbn; [by intros _ ?%elem_of_nil|].
  intros [Hz Hl]%NoDup_cons [->|Hx]%elem_of_cons [->|Hy]%elem_of_cons Heq.
  - done.
  - destruct Hz. rewrite Heq. by apply (list_elem_of_fmap_2 f).
  - destruct Hz. rewrite <- Heq. by apply (list_elem_of_fmap_2 f).
  - by apply IH.
Qed.

Lemma filter_site_update (i site : Z) (q : CustomPlaceholder)
    (l : list CustomPlaceholder) :
  (forall r, r ∈ l -> has_id i r = true -> site_id q = site_id r) ->
  List.filter (fun r => (site_id r =? site)%Z)
    (map (fun r => if has_id i r then q else r) l)
  = map (fun r => if has_id i r then q else r)
      (List.filter (fun r => (site_id r =? site)%Z) l).
Proof.
  induction l as [|r l IH]; intros H; [done|]. cbn.
  rewrite IH by (intros r' Hr'; apply H; by apply list_elem_of_further).
  destruct (has_id i r) eqn:E.
  - rewrite (H r (list_elem_of_here _ _) E).
    destruct (site_id r =? site)%Z; cbn; [|done]. by rewrite E.
  - destruct (site_id r =? site)%Z; cbn; [|done]. by rewrite E.
Qed.

Lemma List_filter_comm {A} (f g : A -> bool) (l : list A) :
  List.filter f (List.filter g l) = List.filter g (List.filter f l).
Proof.
  induction l as [|x l IH]; [done|]. cbn.
  destruct (f x) eqn:Ef, (g x) eqn:Eg; cbn; rewrite ?Ef, ?Eg, ?IH; done.
Qed.

(** X20.  The cached list of a site object stays in step with the
    store.  On a table with unique ids and names, if the cache of the
    object is empty or holds the rows the store has for the site (in
    any order), this is still so after adding a placeholder through the
    object, after updating one through it with assignments that leave
    id and site alone, and after deleting one through it, whether the
    call succeeds or not; and ids and names stay unique.  Updating and
    deleting always return.  Adding raises exactly when the store can
    neither execute the statement nor roll back (a connection closed or
    never opened): the exception of [CustomPlaceholder.create] passes
    through, and object and store are as they were. *)
Theorem site_cache_stays_coherent (w : World) (self : Site) :
  table_ok (db w) ->
  cache_coherent self (db w) ->
  (forall name_ display type_ opts,
     match Site_add_custom_placeholder self name_ display type_ opts w with
     | (Ok (r, self'), w') =>
         (reachable (db w) = true \/ connected (db w) = true) /\
         cache_coherent self' (db w') /\ table_ok (db w')
     | (Raise e, w') =>
         reachable (db w) = false /\ connected (db w) = false /\
         e = DbError /\ w' = w
     end) /\
  (forall placeholder_id kwargs,
     Forall keeps_place kwargs ->
     exists r self' w',
       update_custom_placeholder self placeholder_id kwargs w
       = (Ok (r, self'), w') /\
       cache_coherent self' (db w') /\ table_ok (db w')) /\
  (forall placeholder_id,
     exists r self' w',
       delete_custom_placeholder self placeholder_id w
       = (Ok (r, self'), w') /\
       cache_coherent self' (db w') /\ table_ok (db w')).
Proof.
  intros Hok Hcoh. split; [|split].
  - intros name_ display type_ opts.
    unfold Site_add_custom_placeholder, add_custom_placeholder.
    set (data := {| id := None; site_id := s_id (site_row self);
                    placeholder_name := strip_delimiters name_;
                    display_name := display; placeholder_type := type_;
                    options := opts |}).
    destruct (reachable (db w)) eqn:Hr.
    2:{ destruct (connected (db w)) eqn:Hc.
        - destruct (create_fail data w (or_introl (conj Hr Hc)))
            as (w' & Hcr & Hdb).
          unfold mbind. rewrite Hcr. run_m.
          split; [by right|]. by rewrite Hdb.
        - unfold mbind. by rewrite (create_raise data w Hr Hc). }
    destruct (unique_conflict (custom_placeholders (db w)) (site_id data)
                (placeholder_name data)) eqn:Hu.
    { destruct (create_fail data w (or_intror (conj Hr Hu)))
        as (w' & Hc & Hdb).
      unfold mbind. rewrite Hc. run_m.
      split; [by left|]. by rewrite Hdb. }
    unfold mbind. rewrite (create_run data w Hr Hu).
    assert (Hok' := table_ok_insert (db w) data Hok Hu).
    unfold cache_coherent in *.
    destruct (_custom_placeholders self) as [l|] eqn:Hl; run_m.
    + split; [by left|]. split; [|done].
      cbn. unfold rows_of_site. cbn.
      rewrite List.filter_app. cbn. rewrite Z.eqb_refl.
      by apply Permutation_app.
    + split; [by left|]. split; [|done].
      by rewrite Hl.
  - intros pid kwargs Hkw. unfold update_custom_placeholder.
    destruct (reachable (db w)) eqn:Hr.
    2:{ destruct (get_by_id_unreachable pid w Hr) as (w' & Hg & Hdb).
        unfold mbind. rewrite Hg. run_m.
        eexists _, _, _. split; [reflexivity|]. by rewrite Hdb. }
    unfold mbind at 1. rewrite (get_by_id_run pid w Hr).
    destruct (List.find (has_id pid) (custom_placeholders (db w)))
      as [p|] eqn:Hfind; run_m; [|by eexists _, _, _].
    apply find_Some_elem in Hfind as [Hp Hpid]. apply has_id_iff in Hpid.
    destruct (Z.eqb_spec (site_id p) (s_id (site_row self))) as [Hsite|Hne];
      cbn; [|by eexists _, _, _].
    destruct (setattr_keeps_place kwargs Hkw p) as [Hid' Hsite'].
    set (p1 := fold_left setattr kwargs p) in *.
    assert (Hnz : pid <> 0%Z).
    { destruct Hok as (_ & Hids & _). rewrite Forall_forall in Hids.
      destruct (Hids p Hp) as (j & Hj & Hlt). assert (j = pid) by congruence.
      lia. }
    assert (Htid : truthy_id p1 = Some pid).
    { unfold truthy_id. rewrite Hid', Hpid.
      by destruct (Z.eqb_spec pid 0). }
    unfold CustomPlaceholder_save, put_rows. run_m. rewrite Hr. cbn.
    rewrite Htid.
    destruct (existsb (has_id pid) (custom_placeholders (db w))
              && unique_conflict _ _ _) eqn:Hc; run_m; rewrite ?Hr; cbn [orb].
    { eexists _, _, _. split; [reflexivity|]. done. }
    assert (Hok' := table_ok_update (db w) pid p1 Hok
                      (eq_trans Hid' Hpid) Hc).
    unfold cache_coherent in *.
    destruct (_custom_placeholders self) as [l|] eqn:Hl.
    + eexists _, _, _. split; [reflexivity|]. split; [|done].
      cbn. destruct Hok as (_ & _ & Hnd & _).
      rewrite filter_site_update.
      2:{ intros r Hin E. apply has_id_iff in E. rewrite Hsite'. f_equal.
          apply (NoDup_map_eq id (custom_placeholders (db w))); try done.
          congruence. }
      assert (Hndl : NoDup (map id l)).
      { rewrite Hcoh. by apply NoDup_map_filter. }
      rewrite (replace_first_map pid p1 l Hndl).
      by apply Permutation_map.
    + eexists _, _, _. split; [reflexivity|]. split; [|done].
      by rewrite Hl.
  - intros pid. unfold delete_custom_placeholder.
    destruct (reachable (db w)) eqn:Hr.
    2:{ destruct (get_by_id_unreachable pid w Hr) as (w' & Hg & Hdb).
        unfold mbind. rewrite Hg. run_m.
        eexists _, _, _. split; [reflexivity|]. by rewrite Hdb. }
    unfold mbind at 1. rewrite (get_by_id_run pid w Hr).
    destruct (List.find (has_id pid) (custom_placeholders (db w)))
      as [p|] eqn:Hfind; run_m; [|by eexists _, _, _].
    apply find_Some_elem in Hfind as [Hp Hpid]. apply has_id_iff in Hpid.
    destruct (Z.eqb_spec (site_id p) (s_id (site_row self))) as [Hsite|Hne];
      cbn; [|by eexists _, _, _].
    assert (Hnz : pid <> 0%Z).
    { destruct Hok as (_ & Hids & _). rewrite Forall_forall in Hids.
      destruct (Hids p Hp) as (j & Hj & Hlt). assert (j = pid) by congruence.
      lia. }
    assert (Htid : truthy_id p = Some pid).
    { unfold truthy_id. rewrite Hpid. by destruct (Z.eqb_spec pid 0). }
    unfold CustomPlaceholder_delete, put_rows. rewrite Htid. run_m.
    rewrite Hr. cbn.
    assert (Hok' := table_ok_filter (db w)
                      (fun r => negb (has_id pid r)) Hok).
    unfold cache_coherent in *.
    destruct (_custom_placeholders self) as [l|] eqn:Hl.
    + eexists _, _, _. split; [reflexivity|]. split; [|done].
      cbn. unfold rows_of_site. cbn. rewrite List_filter_comm.
      by apply Permutation_List_filter.
    + eexists _, _, _. split; [reflexivity|]. split; [|done].
      by rewrite Hl.
Qed.
(** X20, an instance: a first placeholder added through a site object
    whose cache is filled and empty. *)
Lemma site_cache_stays_coherent_witness :
  let d := {| reachable := true; connected := true; users := []; sites := [];
              user_states := None; custom_placeholders := [];
              next_placeholder_id := 1 |} in
  let w := {| conversations := ∅; db := d; log := []; outbox := [] |} in
  let self := {| site_row := {| s_id := 4; s_user_id := 1 |};
                 _custom_placeholders := Some [] |} in
  exists r self' w',
    Site_add_custom_placeholder self (str "{{AUTOR}}") (str "Autor")
      (str "texto") None w = (Ok (r, self'), w') /\
    cache_coherent self' (db w') /\ table_ok (db w').
Proof.
  intros d w self.
  assert (Hok : table_ok (db w)).
  { split; [done|]. split; [constructor|]. split; constructor. }
  assert (Hcoh : cache_coherent self (db w)).
  { unfold cache_coherent. cbn. reflexivity. }
  pose proof (proj1 (site_cache_stays_coherent w self Hok Hcoh)
                (str "{{AUTOR}}") (str "Autor") (str "texto") None) as H.
  destruct (Site_add_custom_placeholder self (str "{{AUTOR}}") (str "Autor")
              (str "texto") None w) as [[[r self']|e] w'].
  - exists r, self', w'. split; [reflexivity|]. exact (proj2 H).
  - destruct H as [Hr _]. discriminate Hr.
Defined.

(** X21.  A failed read is cached.  When the store cannot be reached,
    [get_custom_placeholders] on a site object with an empty cache
    returns the empty list and keeps it as the cached list: from then
    on every call without [force_refresh] returns the empty list
    without reading the store, whatever the store holds. *)
Theorem failed_read_is_cached (w : World) (self : Site) :
  reachable (db w) = false ->
  _custom_placeholders self = None ->
  exists self' w',
    get_custom_placeholders self false w = (Ok ([], self'), w') /\
    db w' = db w /\
    forall w2, get_custom_placeholders self' false w2 = (Ok ([], self'), w2).
Proof.
  intros Hr Hc. unfold get_custom_placeholders at 1. rewrite Hc.
  unfold CustomPlaceholder_get_by_site_id. run_m. rewrite Hr. cbn.
  eexists _, _. split; [reflexivity|]. split; [done|].
  intros w2. reflexivity.
Qed.

(** X21, an instance. *)
Lemma failed_read_is_cached_witness :
  let d := {| reachable := false; connected := false; users := []; sites := [];
              user_states := None; custom_placeholders := [];
              next_placeholder_id := 1 |} in
  let w := {| conversations := ∅; db := d; log := []; outbox := [] |} in
  let self := {| site_row := {| s_id := 4; s_user_id := 1 |};
                 _custom_placeholders := None |} in
  exists self' w',
    get_custom_placeholders self false w = (Ok ([], self'), w') /\
    db w' = db w /\
    forall w2, get_custom_placeholders self' false w2 = (Ok ([], self'), w2).
Proof.
  intros d w self. exact (failed_read_is_cached w self eq_refl eq_refl).
Defined.
Lemma strip_delimiters_token (N : text) : strip_delimiters (token N) = N.
Proof.
  unfold strip_delimiters.
  assert (startswith (str "{{") (token N) = true) as ->
    by (apply startswith_app; by eexists).
  assert (endswith (str "}}") (token N) = true) as ->.
  { unfold endswith, token. rewrite !rev_app_distr.
    apply startswith_app. eexists. by rewrite <- app_assoc. }
  cbn [andb]. unfold token. rewrite !length_app.
  change (str "{{") with ["{"; "{"]. change (str "}}") with ["}"; "}"].
  cbn [length app drop].
  replace (2 + (length N + 2) - 4) with (length N) by lia.
  rewrite drop_0. by rewrite take_app_length.
Qed.

(** X28.  Both spellings of a name reach the same row.  On a reachable
    store with unique ids and names, for a name that is not itself
    written between delimiters and is free at the site,
    [Site.add_custom_placeholder] called with the name or with its
    token stores the row under the bare name, and
    [Site.get_custom_placeholder_by_name] called with either spelling
    then returns that row. *)
Theorem add_then_get_by_name (w : World) (self : Site)
    (N display type_ : text) (opts : option text) :
  reachable (db w) = true ->
  table_ok (db w) ->
  strip_delimiters N = N ->
  unique_conflict (custom_placeholders (db w)) (s_id (site_row self)) N
  = false ->
  forall s1 s2,
    s1 = N \/ s1 = token N ->
    s2 = N \/ s2 = token N ->
    exists row self' w',
      Site_add_custom_placeholder self s1 display type_ opts w
      = (Ok (Some row, self'), w') /\
      placeholder_name row = N /\
      site_id row = s_id (site_row self) /\
      (get_custom_placeholder_by_name self' s2 w').1 = Ok (Some row).
Proof.
  intros Hr Hok HN Hu s1 s2 Hs1 Hs2.
  assert (H1 : strip_delimiters s1 = N)
    by (destruct Hs1 as [->| ->]; [done|apply strip_delimiters_token]).
  assert (H2 : strip_delimiters s2 = N)
    by (destruct Hs2 as [->| ->]; [done|apply strip_delimiters_token]).
  unfold Site_add_custom_placeholder, add_custom_placeholder. rewrite H1.
  set (data := {| id := None; site_id := s_id (site_row self);
                  placeholder_name := N; display_name := display;
                  placeholder_type := type_; options := opts |}).
  unfold mbind. rewrite (create_run data w Hr Hu).
  assert (Hok' := table_ok_insert (db w) data Hok Hu).
  set (row := with_id (next_placeholder_id (db w)) data) in *.
  assert (Hget : forall self' : Site,
            site_row self' = site_row self ->
            (get_custom_placeholder_by_name self' s2
               (set_db (set_custom_placeholders
                          (custom_placeholders (db w) ++ [row])
                          (next_placeholder_id (db w) + 1) (db w)) w)).1
            = Ok (Some row)).
  { intros self' Hrow. unfold get_custom_placeholder_by_name.
    rewrite H2, Hrow, get_by_placeholder_name_run by done. cbn [fst]. f_equal.
    apply (find_unique key_of); [|apply Hok'|].
    - intros y. by rewrite has_name_key.
    - cbn. apply elem_of_app. right. apply list_elem_of_here. }
  destruct (_custom_placeholders self) as [l|]; run_m.
  - eexists _, _, _. split; [reflexivity|]. split; [done|]. split; [done|].
    by apply Hget.
  - eexists _, _, _. split; [reflexivity|]. split; [done|]. split; [done|].
    by apply Hget.
Qed.

(** X28, an instance: stored with the token, found by the bare name. *)
Lemma add_then_get_by_name_witness :
  let d := {| reachable := true; connected := true; users := []; sites := [];
              user_states := None; custom_placeholders := [];
              next_placeholder_id := 1 |} in
  let w := {| conversations := ∅; db := d; log := []; outbox := [] |} in
  let self := {| site_row := {| s_id := 4; s_user_id := 1 |};
                 _custom_placeholders := None |} in
  exists row self' w',
    Site_add_custom_placeholder self (str "{{AUTOR}}") (str "Autor")
      (str "texto") None w = (Ok (Some row, self'), w') /\
    placeholder_name row = str "AUTOR" /\
    site_id row = 4%Z /\
    (get_custom_placeholder_by_name self' (str "AUTOR") w').1 = Ok (Some row).
Proof.
  intros d w self.
  assert (Hok : table_ok (db w)).
  { split; [done|]. split; [constructor|]. split; constructor. }
  exact (add_then_get_by_name w self (str "AUTOR") (str "Autor") (str "texto")
           None eq_refl Hok eq_refl eq_refl (str "{{AUTOR}}") (str "AUTOR")
           (or_intror eq_refl) (or_introl eq_refl)).
Defined.
End SiteCache.

(** ** html_processor.py: the catalog with the custom placeholders *)

Section Catalog2.
Import HtmlProcessor Placeholder Runtime Models PlaceholderStore.

Lemma dict_get_set {V} (d : dict V) (k k' : text) (v : V) :
  dict_get (dict_set d k v) k'
  = if decide (k = k') then Some v else dict_get d k'.
Proof.
  induction d as [|[k0 v0] d IH]; cbn.
  - by destruct (decide (k = k')).
  - destruct (decide (k0 = k)) as [->|Hne]; cbn.
    + by destruct (decide (k = k')).
    + rewrite IH. destruct (decide (k0 = k')) as [->|]; [|done].
      by destruct (decide (k = k')).
Qed.

Lemma dict_get_builtin (d : dict PlaceholderInfo) (k : text) :
  dict_get (map (fun kv => (kv.1, Builtin kv.2)) d) k
  = Builtin <$> dict_get d k.
Proof.
  induction d as [|[k0 v0] d IH]; [done|]. cbn.
  by destruct (decide (k0 = k)).
Qed.

Lemma fold_custom_other (l : list CustomPlaceholder) (k : text) :
  forall d0,
    (forall ph, ph ∈ l -> token (placeholder_name ph) <> k) ->
    dict_get (fold_left add_custom l d0) k = dict_get d0 k.
Proof.
  induction l as [|x l IH]; intros d0 H; [done|]. cbn.
  rewrite IH by (intros ph Hph; apply H; by apply list_elem_of_further).
  unfold add_custom. rewrite dict_get_set.
  destruct (decide _) as [Heq|]; [|done].
  by destruct (H x (list_elem_of_here _ _)).
Qed.

Lemma fold_custom_own (l : list CustomPlaceholder) (ph : CustomPlaceholder) :
  forall d0,
    NoDup (map placeholder_name l) -> ph ∈ l ->
    dict_get (fold_left add_custom l d0) (token (placeholder_name ph))
    = Some (custom_entry ph).
Proof.
  induction l as [|x l IH]; intros d0 Hnd Hph; [by apply elem_of_nil in Hph|].
  cbn in *. apply NoDup_cons in Hnd as [Hx Hnd].
  apply elem_of_cons in Hph as [->|Hph]; [|by apply IH].
  rewrite fold_custom_other.
  - unfold add_custom. rewrite dict_get_set. by destruct (decide _).
  - intros ph Hph Heq. apply token_inj in Heq. apply Hx. rewrite <- Heq.
    by apply (list_elem_of_fmap_2 placeholder_name).
Qed.

Lemma NoDup_site_names (d : Db) (site : Z) :
  NoDup (map key_of (custom_placeholders d)) ->
  NoDup (map placeholder_name (rows_of_site d site)).
Proof.
  unfold rows_of_site.
  induction (custom_placeholders d) as [|r l IH]; cbn; [constructor|].
  intros [Hr Hl]%NoDup_cons.
  destruct (Z.eqb_spec (site_id r) site) as [Hs|]; cbn; [|by apply IH].
  apply NoDup_cons. split; [|by apply IH].
  intros (y & Hy & [Hin Hsy]%elem_of_List_filter)%list_elem_of_fmap.
  apply Z.eqb_eq in Hsy. apply Hr.
  replace (key_of r) with (key_of y)
    by (unfold key_of; rewrite Hy; congruence).
  by apply (list_elem_of_fmap_2 key_of).
Qed.
Lemma fold_custom_mem (l : list CustomPlaceholder) (k : text) :
  forall d0,
    dict_mem d0 k = true -> dict_mem (fold_left add_custom l d0) k = true.
Proof.
  induction l as [|x l IH]; intros d0 H; [done|]. cbn. apply IH.
  unfold dict_mem, add_custom in *. rewrite dict_get_set.
  by destruct (decide _).
Qed.

(** X22.  [get_all_placeholders] never raises and does not change the
    store.  Every builtin name is a key of the result.  Without a site
    id (or with the id 0), or when the store cannot be reached, the
    result is the builtin table.  Otherwise, on a table with unique
    names, the entry under the token of a custom placeholder of the
    site is the record built from that placeholder, which is never
    required, also when a builtin has that name; and every other key
    has its builtin entry or none. *)
Theorem get_all_placeholders_lookup (w : World) (site : option Z) :
  exists all w',
    get_all_placeholders site w = (Ok all, w') /\
    db w' = db w /\
    (forall k, dict_mem PLACEHOLDERS k = true -> dict_mem all k = true) /\
    (site = None \/ site = Some 0%Z \/ reachable (db w) = false ->
     all = map (fun kv => (kv.1, Builtin kv.2)) PLACEHOLDERS) /\
    (forall i,
       site = Some i -> i <> 0%Z -> reachable (db w) = true ->
       table_ok (db w) ->
       (forall ph,
          ph ∈ rows_of_site (db w) i ->
          dict_get all (token (placeholder_name ph)) = Some (custom_entry ph) /\
          entry_required (custom_entry ph) = false) /\
       (forall k,
          (forall ph, ph ∈ rows_of_site (db w) i ->
                      token (placeholder_name ph) <> k) ->
          dict_get all k = Builtin <$> dict_get PLACEHOLDERS k)).
Proof.
  assert (Hmem0 : forall k, dict_mem PLACEHOLDERS k = true ->
            dict_mem (map (fun kv => (kv.1, Builtin kv.2)) PLACEHOLDERS) k
            = true).
  { intros k. unfold dict_mem. rewrite dict_get_builtin.
    by destruct (dict_get PLACEHOLDERS k). }
  unfold get_all_placeholders. cbv zeta.
  destruct site as [i|].
  2:{ run_m. eexists _, _. split; [reflexivity|]. split; [done|].
      split; [done|]. split; [done|]. by intros i [=]. }
  destruct (Z.eqb_spec i 0) as [->|Hnz].
  { run_m. eexists _, _. split; [reflexivity|]. split; [done|].
    split; [done|]. split; [done|]. by intros i [= <-]. }
  unfold CustomPlaceholder_get_by_site_id. run_m.
  destruct (reachable (db w)) eqn:Hr; cbn [fst snd].
  - eexists _, _. split; [reflexivity|]. split; [done|].
    split; [|split].
    + intros k Hk. by apply fold_custom_mem, Hmem0.
    + intros [?|[[= ?]|?]]; done.
    + intros i' [= <-] _ _ Hok. fold (rows_of_site (db w) i). split.
      * intros ph Hph. split; [|done]. apply fold_custom_own; [|done].
        apply NoDup_site_names, Hok.
      * intros k Hk. rewrite fold_custom_other by done.
        exact (dict_get_builtin PLACEHOLDERS k).
  - eexists _, _. split; [reflexivity|]. split; [done|].
    split; [done|]. split; [done|]. by intros i' _ _ [=].
Qed.
End Catalog2.

(** ** handlers.py: the check of an uploaded template *)

Section UploadCheck.
Import HtmlProcessor Handlers Upload.

Lemma contains_occurs (m t : text) : contains m t = true <-> occurs_in m t.
Proof.
  induction t as [|c t IH]; cbn [contains].
  - rewrite orb_false_r, startswith_app. split.
    + intros [rest H]. exists [], rest. done.
    + intros (pre & post & H). destruct pre; [|done]. exists post. done.
  - rewrite orb_true_iff, IH, startswith_app. split.
    + intros [[rest H]|(pre & post & H)].
      * exists [], rest. done.
      * exists (c :: pre), post. by rewrite H.
    + intros (pre & post & H). destruct pre as [|d pre].
      * left. by exists post.
      * right. injection H as _ H. by exists pre, post.
Qed.

Lemma builtin_found_occurs (t k : text) :
  k ∈ PLACEHOLDERS.*1 -> (k ∈ found_placeholders t <-> occurs_in k t).
Proof.
  intros Hk. rewrite elem_of_found_placeholders. split; [by intros [_ ?]|].
  intros Ho. split; [by apply builtin_is_token|done].
Qed.

Lemma sr_missing_found (t k : text) :
  k ∈ sr_missing (find_placeholders_in_template t) <->
  k ∈ PLACEHOLDERS.*1 /\ k ∉ found_placeholders t.
Proof.
  unfold find_placeholders_in_template.
  rewrite classify_found_missing, classify_builtin_missing. simpl.
  rewrite elem_of_nil. tauto.
Qed.

Lemma filter_ext_in {A} (f g : A -> bool) (l : list A) :
  (forall a, a ∈ l -> f a = g a) -> List.filter f l = List.filter g l.
Proof.
  induction l as [|x l IH]; intros H; cbn; [done|].
  rewrite (H x) by apply list_elem_of_here.
  rewrite IH; [done|]. intros a Ha. by apply H, list_elem_of_further.
Qed.

Lemma bool_eq_iff (a b : bool) : (a = true <-> b = true) -> a = b.
Proof. destruct a, b; intuition congruence. Qed.

(** X23.  The substring tests of the upload handlers agree with the
    scan of html_processor on the builtin names: the optional names the
    handler reports as present are the scan's [optional] list, a
    required name is reported missing by the handler exactly when it is
    one of its eight names and the scan lists it as [missing], and a
    generated name is reported present exactly when the scan lists it
    as [required].  An upload is refused for a missing name only if
    that name is one of the eight. *)
Theorem check_template_agrees_with_scan (t : text) :
  let c := check_template t in
  let r := find_placeholders_in_template t in
  present_optional c = sr_optional r /\
  missing_required c
  = List.filter (fun ph => bool_decide (ph ∈ sr_missing r))
      required_placeholders /\
  present_auto c
  = List.filter (fun ph => bool_decide (ph ∈ sr_required r))
      auto_placeholders /\
  (missing_required c = [] <->
   forall ph, ph ∈ required_placeholders -> occurs_in ph t).
Proof.
  cbv zeta.
  assert (Hreq : forall ph, ph ∈ required_placeholders -> ph ∈ PLACEHOLDERS.*1).
  { apply Forall_forall. apply (bool_decide_unpack _). vm_compute. exact I. }
  assert (Hopt : forall ph, ph ∈ optional_placeholders -> ph ∈ PLACEHOLDERS.*1).
  { apply Forall_forall. apply (bool_decide_unpack _). vm_compute. exact I. }
  assert (Hauto : forall ph, ph ∈ auto_placeholders ->
            ph ∈ keys_with_flag true /\ ph ∈ PLACEHOLDERS.*1).
  { apply Forall_forall.
    repeat (apply Forall_cons; split;
              [split; apply (bool_decide_unpack _); vm_compute; exact I|]).
    apply Forall_nil_2. }
  pose proof (find_placeholders_in_template_lists t) as (L1 & L2).
  split; [|split; [|split]].
  - cbn [check_template present_optional]. rewrite L2.
    change (keys_with_flag false) with optional_placeholders.
    apply filter_ext_in. intros ph Hph. apply bool_eq_iff.
    rewrite contains_occurs, bool_decide_eq_true.
    symmetry. by apply builtin_found_occurs, Hopt.
  - cbn [check_template missing_required].
    apply filter_ext_in. intros ph Hph. apply bool_eq_iff.
    rewrite negb_true_iff, bool_decide_eq_true, sr_missing_found.
    specialize (Hreq ph Hph).
    rewrite (builtin_found_occurs t ph Hreq).
    rewrite <- not_true_iff_false, contains_occurs. tauto.
  - cbn [check_template present_auto].
    apply filter_ext_in. intros ph Hph. apply bool_eq_iff.
    rewrite contains_occurs, bool_decide_eq_true, L1.
    rewrite elem_of_List_filter, bool_decide_eq_true.
    destruct (Hauto ph Hph) as [H1 H2].
    rewrite (builtin_found_occurs t ph H2). tauto.
  - cbn [check_template missing_required]. split.
    + intros Hnil ph Hph. apply contains_occurs.
      destruct (contains ph t) eqn:E; [done|].
      assert (ph ∈ List.filter (fun ph => negb (contains ph t))
                     required_placeholders) as Hin.
      { apply elem_of_List_filter. by rewrite E. }
      rewrite Hnil in Hin. by apply elem_of_nil in Hin.
    + intros Hall.
      destruct (List.filter _ required_placeholders) as [|x l] eqn:E; [done|].
      assert (x ∈ x :: l) as Hin by apply list_elem_of_here.
      rewrite <- E in Hin. apply elem_of_List_filter in Hin as [Hx Hc].
      apply negb_true_iff in Hc. apply Hall, contains_occurs in Hx.
      congruence.
Qed.







End UploadCheck.

(** ** handlers.py: the sub-flow while placeholders remain *)

Section Prompt.
Import Placeholder Runtime Models States Handlers.
Variable json_dumps : gmap string Value -> text.

(** X25.  While the index of the sub-flow points into the list of
    unknown placeholders, [configure_next_custom_placeholder] only asks
    about the placeholder at the index: it returns normally, the one
    message it sends is the prompt for that placeholder, the
    conversations and the store (the custom placeholders of the site
    among it) are as they were, and the log has gained the two debug
    lines of the [breadcrumb] decorator, one on entry and one on
    exit. *)
Theorem configure_next_prompts (w : World) (user_id : Z)
    (c : ConversationData) (names : list text) (i : Z) (name_ : text) :
  conversations w !! user_id = Some c ->
  conv_get_data c "custom_placeholders" VNone = VStrList names ->
  conv_get_data c "current_placeholder_index" VNone = VInt i ->
  (0 <= i)%Z ->
  names !! Z.to_nat i = Some name_ ->
  configure_next_custom_placeholder json_dumps user_id w
  = (Ok tt,
     {| conversations := conversations w; db := db w;
        log := log w
               ++ [(DEBUG, "➡️ configure_next_custom_placeholder"%string);
                   (DEBUG, "⬅️ configure_next_custom_placeholder"%string)];
        outbox := outbox w ++ [MsgPrompt name_] |}).
Proof.
  intros Hc Hnames Hidx Hpos Hname.
  assert (Hlen : (i < Z.of_nat (length names))%Z).
  { apply lookup_lt_Some in Hname. lia. }
  unfold configure_next_custom_placeholder.
  set (w0 := {| conversations := conversations w; db := db w;
                log := log w
                       ++ [(DEBUG, "➡️ configure_next_custom_placeholder"%string)];
                outbox := outbox w |}).
  assert (Hc0 : conversations w0 !! user_id = Some c) by exact Hc.
  erewrite (breadcrumb_run _ _ _ tt w
              {| conversations := conversations w; db := db w;
                 log := log w0; outbox := outbox w ++ [MsgPrompt name_] |});
    [cbn; by rewrite <- app_assoc|].
  fold w0. clear Hc. rename Hc0 into Hc.
  unfold mbind at 1. rewrite (get_data_lookup _ _ _ _ _ Hc), Hnames.
  unfold mbind at 1. rewrite (get_data_lookup _ _ _ _ _ Hc), Hidx.
  destruct names as [|n0 names']; [by rewrite lookup_nil in Hname|].
  cbn [is_true negb py_len py_ge]. run_m.
  assert ((Z.of_nat (length (n0 :: names')) <=? i)%Z = false) as ->
    by (apply Z.leb_gt; lia).
  unfold py_index. run_m.
  assert ((i <? 0)%Z = false) as -> by (apply Z.ltb_ge; lia).
  assert ((i <? 0)%Z = false) as Hi by (apply Z.ltb_ge; lia).
  by rewrite ?Hi, Hname.
Qed.

End Prompt.

Section PromptExample.
Import Placeholder Runtime Models States Handlers.

(** X25, an instance: the first of two names. *)
Lemma configure_next_prompts_witness :
  let c := {| state := CONFIGURING_CUSTOM_PLACEHOLDER;
              data := <["custom_placeholders"%string :=
                          VStrList [str "{{AUTOR}}"; str "{{FUENTE}}"]]>
                        (<["current_placeholder_index"%string := VInt 0]> ∅) |} in
  let d := {| reachable := true; connected := true; users := []; sites := [];
              user_states := None; custom_placeholders := [];
              next_placeholder_id := 1 |} in
  let w := {| conversations := <[7%Z := c]> ∅; db := d; log := [];
              outbox := [] |} in
  configure_next_custom_placeholder (fun _ => str "{}") 7 w
  = (Ok tt,
     {| conversations := conversations w; db := db w;
        log := [(DEBUG, "➡️ configure_next_custom_placeholder"%string);
                (DEBUG, "⬅️ configure_next_custom_placeholder"%string)];
        outbox := [MsgPrompt (str "{{AUTOR}}")] |}).
Proof.
  intros c d w.
  apply (configure_next_prompts (fun _ => str "{}") w 7 c
           [str "{{AUTOR}}"; str "{{FUENTE}}"] 0 (str "{{AUTOR}}")).
  - apply lookup_insert_eq.
  - reflexivity.
  - reflexivity.
  - lia.
  - reflexivity.
Defined.
End PromptExample.

(** ** states.py: start-up on a store that cannot be read *)

Section Startup.
Import Runtime Models States.
Variable json_loads : text -> option (gmap string Value).

(** X26.  Constructing the state manager never raises, whatever the
    store holds: a failure of the reload is logged and swallowed.  When
    the store cannot be reached the manager starts with no conversation
    and the store is as it was; when the store has no [user_states]
    table the table is created empty; when the table is empty nothing
    changes. *)
Theorem StateManager_init_never_raises (d : Db) :
  exists w,
    StateManager_init json_loads d = (Ok tt, w) /\
    (reachable d = false ->
     conversations w = ∅ /\ db w = d /\
     (ERROR, "Error al inicializar estados desde la base de datos"%string)
       ∈ log w) /\
    (reachable d = true -> user_states d = None ->
     conversations w = ∅ /\ db w = set_user_states (Some []) d) /\
    (reachable d = true -> user_states d = Some [] ->
     conversations w = ∅ /\ db w = d).
Proof.
  unfold StateManager_init, _initialize_from_db, try_except.
  destruct (_initialize_from_db_body json_loads (fresh_world d))
    as [[[]|e] w1] eqn:Hbody.
  - exists w1. split; [done|].
    unfold _initialize_from_db_body, fresh_world in Hbody. run_m.
    destruct (reachable d) eqn:Hr; [|done].
    split; [done|]. split.
    + intros _ Hn. rewrite Hn in Hbody. injection Hbody as <-. done.
    + intros _ Hn. rewrite Hn in Hbody. injection Hbody as <-.
      split; [done|]. by destruct d.
  - unfold logger. run_m. eexists. split; [reflexivity|].
    unfold _initialize_from_db_body, fresh_world in Hbody. run_m.
    destruct (reachable d) eqn:Hr.
    + split; [done|]. split.
      * intros _ Hn. by rewrite Hn in Hbody.
      * intros _ Hn. by rewrite Hn in Hbody.
    + injection Hbody as <- <-. split; [|done]. intros _. cbn.
      split; [done|]. split; [done|].
      apply list_elem_of_here.
Qed.
End Startup.

(** ** states.py: reads create the conversation *)

Section Reads.
Import Runtime Models States StatesSpec.

(** X27.  Reading is not free of effects.  [get_state] and [get_data]
    on a user that is not in memory answer the idle phase and the
    default, and leave a fresh idle conversation for the user in
    memory; the store is not written.  The user then counts as known:
    [reset_user], which does nothing for a user not in memory, after
    such a read deletes the row the store holds for the user. *)
Theorem reads_create_the_conversation (w : World) (uid : Z)
    (rows : list StateRow) :
  conversations w !! uid = None ->
  reachable (db w) = true ->
  user_states (db w) = Some rows ->
  let w1 := {| conversations := <[uid := new_conversation IDLE]> (conversations w);
               db := db w; log := log w; outbox := outbox w |} in
  get_state uid w = (Ok IDLE, w1) /\
  (forall key default, get_data uid key default w = (Ok default, w1)) /\
  (reset_user uid w).2 = w /\
  conversations (reset_user uid w1).2 = conversations w /\
  user_states (db (reset_user uid w1).2) = Some (rows_without uid rows).
Proof.
  intros Hc Hr Hrows. cbv zeta. split; [|split; [|split; [|split]]].
  - unfold get_state, get_conversation. run_m. by rewrite Hc.
  - intros key default. unfold get_data, get_conversation. run_m.
    rewrite Hc. run_m. unfold conv_get_data, new_conversation. cbn.
    by rewrite lookup_empty.
  - unfold reset_user. run_m. by rewrite Hc.
  - unfold reset_user, delete_state_row. run_m.
    rewrite lookup_insert_eq. run_m. rewrite Hr. cbn. rewrite Hrows. cbn.
    by apply delete_insert_id.
  - unfold reset_user, delete_state_row. run_m.
    rewrite lookup_insert_eq. run_m. rewrite Hr. cbn. rewrite Hrows. cbn.
    done.
Qed.

(** X27, an instance: a stored row of a user not in memory. *)
Lemma reads_create_the_conversation_witness :
  let d := {| reachable := true; connected := true; users := []; sites := [];
              user_states := Some [{| telegram_id := 7; state_enum := 3;
                                      state_data := None |}];
              custom_placeholders := []; next_placeholder_id := 1 |} in
  let w := {| conversations := ∅; db := d; log := []; outbox := [] |} in
  (reset_user 7 w).2 = w /\
  user_states (db (reset_user 7 (get_state 7 w).2).2) = Some [].
Proof.
  intros d w.
  destruct (reads_create_the_conversation w 7
              [{| telegram_id := 7; state_enum := 3; state_data := None |}]
              (lookup_empty _) eq_refl eq_refl)
    as (Hg & _ & Hreset & _ & Hrows).
  split; [exact Hreset|]. rewrite Hg. exact Hrows.
Defined.
End Reads.

(** ** The two renderers on a well-formed template *)

Section Agree.
Import PlaceholderBot HtmlProcessor HtmlSpec.

Lemma lazy_group_name (N rest : text) :
  brace_free N -> "010" ∉ N ->
  lazy_group (N ++ "}" :: "}" :: rest) = Some N.
Proof.
  induction N as [|c N IH]; intros HN Hnl; [done|].
  apply Forall_cons in HN as [[_ Hc] HN].
  apply not_elem_of_cons in Hnl as [Hc' Hnl].
  cbn [app lazy_group].
  assert (startswith (str "}}") (c :: N ++ "}" :: "}" :: rest) = false) as ->.
  { cbn. destruct (decide ("}" = c)); [congruence|done]. }
  destruct (decide (c = "010")); [done|]. by rewrite IH.
Qed.

Lemma PLACEHOLDER_PATTERN_token (N rest : text) :
  brace_free N -> "010" ∉ N ->
  PLACEHOLDER_PATTERN (token N ++ rest) = Some (N, 4 + length N).
Proof.
  intros HN Hnl. rewrite token_cons. unfold PLACEHOLDER_PATTERN.
  by rewrite lazy_group_name.
Qed.

Lemma scan_text (s rest : text) :
  no_open s ->
  scan_from PLACEHOLDER_PATTERN 0 (s ++ rest)
  = map Lit s ++ scan_from PLACEHOLDER_PATTERN 0 rest.
Proof.
  induction 1 as [|c s Hc Hs IH]; [done|].
  rewrite <- app_comm_cons. cbn [scan_from map app].
  assert (PLACEHOLDER_PATTERN (c :: s ++ rest) = None) as ->.
  { unfold PLACEHOLDER_PATTERN.
    destruct c as [[] [] [] [] [] [] [] []]; try done. }
  by rewrite IH.
Qed.

Lemma scan_token (N rest : text) :
  brace_free N -> "010" ∉ N ->
  scan_from PLACEHOLDER_PATTERN 0 (token N ++ rest)
  = Hit N (token N) :: scan_from PLACEHOLDER_PATTERN 0 rest.
Proof.
  intros HN Hnl.
  pose proof (PLACEHOLDER_PATTERN_token N rest HN Hnl) as Hp.
  pose proof (PLACEHOLDER_PATTERN_Some _ _ _ Hp) as [_ Htake].
  rewrite token_cons in *. cbn [scan_from]. rewrite Hp, Htake.
  fold (token N). f_equal. cbn [Nat.add pred scan_from].
  transitivity (scan_from PLACEHOLDER_PATTERN (length (N ++ ["}"; "}"]))
                  ((N ++ ["}"; "}"]) ++ rest));
    [|apply scan_from_skip_app].
  rewrite length_app, <- app_assoc. cbn [length app].
  by replace (length N + 2) with (S (S (length N))) by lia.
Qed.

Lemma finditer_items (items : list item) :
  Forall item_ok items -> Forall one_line items ->
  finditer PLACEHOLDER_PATTERN (unparse items) = flat_map item_pieces items.
Proof.
  unfold finditer, unparse.
  induction items as [|i items IH]; intros Hok Hl; [done|].
  apply Forall_cons in Hok as [Hi Hok]. apply Forall_cons in Hl as [Hli Hl].
  cbn [flat_map]. destruct i as [s|N]; cbn [item_text item_pieces].
  - rewrite scan_text by done. by rewrite IH.
  - rewrite scan_token by done. by rewrite IH.
Qed.

Lemma hits_items (items : list item) (n : text) :
  n ∈ hits (flat_map item_pieces items) -> Tok n ∈ items.
Proof.
  induction items as [|i items IH]; cbn [flat_map]; [by intros ?%elem_of_nil|].
  destruct i as [s|N]; cbn [item_pieces].
  - assert (Hs : forall ps, hits (map Lit s ++ ps) = hits (A:=text) ps)
      by (intros ps; induction s as [|c s IHs]; [done|exact IHs]).
    rewrite Hs. intros H. by apply list_elem_of_further, IH.
  - cbn. intros [->|H]%elem_of_cons; [apply list_elem_of_here|].
    by apply list_elem_of_further, IH.
Qed.

Lemma value_for_plain_keys (d : dict PyVal) (N : text) :
  Forall (fun kv => brace_free kv.1) d ->
  brace_free N ->
  value_for d N = dict_get d N.
Proof.
  intros Hd HN. unfold value_for.
  induction Hd as [|[k v] d Hk Hd IH]; [done|]. cbn [List.find dict_get fst].
  rewrite (wrap_key_for k k (conj Hk (or_introl eq_refl))).
  destruct (decide (k = N)) as [->|Hne].
  - by rewrite bool_decide_eq_true_2.
  - rewrite bool_decide_eq_false_2; [done|]. by intros ?%token_inj.
Qed.

Lemma convertible_get (d : dict PyVal) (n : text) (v : PyVal) :
  convertible d -> dict_get d n = Some v -> str_value v = Ok (py_str v).
Proof.
  intros Hc Hv. induction Hc as [|[k v'] d Hk Hc IH]; [done|].
  cbn in Hv. destruct (decide (k = n)); [|by apply IH].
  injection Hv as ->. cbn in Hk. by destruct v.
Qed.

(** X29.  The strict and the lenient renderer agree on well-formed
    input.  For a template made of stretches without an opening brace
    and of tokens of brace-free one-line names, and a mapping whose
    keys are bare brace-free names, whose values are not [None], have a
    text that can be built (no integer of more than 4300 digits, used
    by the template or not) without an opening brace in it, and which
    has a key for every token of the template, [fill_template] and
    [replace_placeholders] both return, and return the same text: every
    token replaced by the text of its value. *)
Theorem renderers_agree (items : list item) (d : dict PyVal) :
  Forall item_ok items ->
  Forall one_line items ->
  Forall (fun kv => brace_free kv.1 /\ kv.2 <> PyNone
                    /\ no_open (value_text kv.2)) d ->
  convertible d ->
  (forall N, Tok N ∈ items -> dict_mem d N = true) ->
  fill_template (unparse items) d = replace_placeholders (unparse items) d /\
  replace_placeholders (unparse items) d
  = Ok (flat_map (render_item d) items).
Proof.
  intros Hok Hl Hd Hconv Hkeys.
  assert (Hplain : Forall (fun kv => brace_free kv.1) d)
    by (eapply Forall_impl; [exact Hd|]; by intros kv [? _]).
  assert (Hrp : replace_placeholders (unparse items) d
                = Ok (flat_map (render_item d) items)).
  { rewrite replace_placeholders_convertible by done. f_equal.
    apply replaced_items; [done|].
    eapply Forall_impl; [exact Hd|]. intros [k v] (Hk & _ & Hv).
    split; [|done]. exists k. split; [done|by left]. }
  split; [|exact Hrp]. rewrite Hrp.
  assert (Hall : forall n, n ∈ detect_placeholders (unparse items) ->
                           dict_mem d n = true).
  { intros n. unfold detect_placeholders. rewrite finditer_items by done.
    intros Hn. by apply Hkeys, hits_items. }
  unfold fill_template.
  destruct (filter _ (detect_placeholders (unparse items))) as [|x l] eqn:F.
  2:{ assert (x ∈ x :: l) as Hin by apply list_elem_of_here.
      rewrite <- F in Hin. apply list_elem_of_filter in Hin as [Hx1 Hx2].
      by rewrite (Hall x Hx2) in Hx1. }
  assert (Hsub : exists out,
            sub_pieces (replacer d)
              (finditer PLACEHOLDER_PATTERN (unparse items)) = Ok out).
  { apply sub_pieces_Ok_iff. intros a Ha. apply replacer_Ok_iff.
    pose proof (Hall a Ha) as Hm. unfold dict_mem in Hm.
    destruct (dict_get d a) as [v|] eqn:Hv; [|done].
    exists v. split; [done|]. by apply (convertible_get d a). }
  destruct Hsub as [out Hout]. rewrite Hout. f_equal.
  apply sub_pieces_replacer in Hout. rewrite Hout, finditer_items by done.
  clear F Hout Hall Hrp. induction items as [|i items IH]; [done|].
  apply Forall_cons in Hok as [Hi Hok]. apply Forall_cons in Hl as [Hli Hl].
  cbn [flat_map]. rewrite flat_map_app.
  rewrite IH; [|done|done|].
  2:{ intros N HN. by apply Hkeys, list_elem_of_further. }
  f_equal. destruct i as [s|N]; cbn [item_pieces render_item].
  - clear. induction s as [|c s IHs]; [done|]. cbn. by rewrite IHs.
  - cbn [flat_map render_piece]. rewrite app_nil_r.
    rewrite (value_for_plain_keys d N Hplain Hi).
    pose proof (Hkeys N (list_elem_of_here _ _)) as Hmem.
    unfold dict_mem in Hmem.
    destruct (dict_get d N) as [v|] eqn:Hv; [|done].
    assert (Hne : v <> PyNone).
    { clear -Hd Hv. induction Hd as [|[k v'] d (_ & Hne & _) Hd IH]; [done|].
      cbn in Hv. destruct (decide (k = N)); [|by apply IH].
      by injection Hv as <-. }
    by destruct v.
Qed.

(** X29, an instance. *)
Lemma renderers_agree_witness :
  fill_template (str "Hola {{nombre}}, bienvenido a {{sitio}}")
    [(str "nombre", PyStr (str "Ana")); (str "sitio", PyInt 7)]
  = replace_placeholders (str "Hola {{nombre}}, bienvenido a {{sitio}}")
      [(str "nombre", PyStr (str "Ana")); (str "sitio", PyInt 7)] /\
  replace_placeholders (str "Hola {{nombre}}, bienvenido a {{sitio}}")
    [(str "nombre", PyStr (str "Ana")); (str "sitio", PyInt 7)]
  = Ok (str "Hola Ana, bienvenido a 7").
Proof.
  apply (renderers_agree
           [Text (str "Hola "); Tok (str "nombre");
            Text (str ", bienvenido a "); Tok (str "sitio")]
           [(str "nombre", PyStr (str "Ana")); (str "sitio", PyInt 7)]).
  - repeat (apply Forall_cons; split;
              [cbn [item_ok]; unfold no_open, brace_free;
               apply (bool_decide_unpack _); vm_compute; exact I|]).
    apply Forall_nil_2.
  - repeat (apply Forall_cons; split;
              [cbn [one_line]; try exact I;
               apply (bool_decide_unpack _); vm_compute; exact I|]).
    apply Forall_nil_2.
  - repeat (apply Forall_cons; split;
              [cbn [fst snd]; split; [|split; [discriminate|]];
               unfold no_open, brace_free;
               apply (bool_decide_unpack _); vm_compute; exact I|]).
    apply Forall_nil_2.
  - by repeat constructor.
  - intros N HN.
    repeat (apply elem_of_cons in HN as [HN|HN];
            [try discriminate; injection HN as ->; reflexivity|]).
    by apply elem_of_nil in HN.
Defined.
End Agree.

(** ** states.py: reset and restart *)

Section ResetRestart.
Import Runtime Models States StatesSpec.
Variable json_loads : text -> option (gmap string Value).

(** X30.  A reset holds across a restart only if the store could be
    reached.  After [reset_user] for a user in memory on a reachable
    store (rows readable, one per user), a state manager started on the
    resulting store has no conversation for the user.  When the store
    cannot be reached during the reset the row stays, and a state
    manager started on the store once it is reachable again restores
    the conversation of that row for an active user. *)
Theorem reset_then_restart (w : World) (uid : Z) (c : ConversationData)
    (rows : list StateRow) :
  conversations w !! uid = Some c ->
  user_states (db w) = Some rows ->
  Forall (row_wellformed json_loads) rows ->
  NoDup (map telegram_id rows) ->
  (reachable (db w) = true ->
   conversations
     (StateManager_init json_loads (db (reset_user uid w).2)).2 !! uid
   = None) /\
  (reachable (db w) = false ->
   db (reset_user uid w).2 = db w /\
   conversations (reset_user uid w).2 !! uid = None /\
   forall row,
     row ∈ rows -> telegram_id row = uid -> active_user (db w) uid = true ->
     conversations
       (StateManager_init json_loads (back_online (db w))).2 !! uid
     = restored json_loads row /\
     is_Some (restored json_loads row)).
Proof.
  intros Hc Hrows Hwf Hnd. split.
  - intros Hr.
    assert (db (reset_user uid w).2
            = set_user_states (Some (rows_without uid rows)) (db w)) as ->.
    { unfold reset_user, delete_state_row. run_m.
      rewrite Hc. run_m. rewrite Hr. cbn. by rewrite Hrows. }
    destruct (NoDup_ids_rows_without uid rows Hnd) as [Hnd' Hnot].
    destruct (reload_run json_loads
                (set_user_states (Some (rows_without uid rows)) (db w))
                (rows_without uid rows))
      as (w2 & rows' & -> & _ & _ & Hout & _); [done|done| |done|].
    + rewrite Forall_forall in Hwf. apply Forall_forall.
      intros x [Hx _]%elem_of_List_filter. by apply Hwf.
    + cbn [snd]. by apply Hout.
  - intros Hr.
    assert (reset_user uid w
            = (Ok tt,
               {| conversations := delete uid (conversations w); db := db w;
                  log := log w
                         ++ [(ERROR,
                              "Error al eliminar estado de la base de datos"%string)];
                  outbox := outbox w |})) as ->.
    { unfold reset_user, delete_state_row. run_m.
      rewrite Hc. run_m. by rewrite Hr. }
    cbn [snd db conversations]. split; [done|].
    split; [apply lookup_delete_eq|].
    intros row Hin Hid Ha.
    destruct (reload_run json_loads (back_online (db w)) rows)
      as (w2 & rows' & -> & _ & _ & _ & Hrow); [done|done|done|done|].
    cbn [snd]. specialize (Hrow row Hin). rewrite Hid in Hrow.
    change (active_user (back_online (db w)) uid)
      with (active_user (db w) uid) in Hrow.
    rewrite Ha in Hrow. split; [done|].
    rewrite Forall_forall in Hwf. specialize (Hwf row Hin).
    apply row_wellformed_decoded in Hwf as [[sd Hsd] [st Hst]].
    unfold restored. rewrite Hst, Hsd. by eexists.
Qed.

End ResetRestart.

Section ResetRestartExample.
Import Runtime Models States StatesSpec.

(** X30, an instance: the store is down while the user is reset. *)
Lemma reset_then_restart_witness :
  let row := {| telegram_id := 100; state_enum := 5; state_data := None |} in
  let d := {| reachable := false; connected := false;
              users := [{| u_id := 1; u_telegram_id := 100;
                           u_status := str "active" |}];
              sites := []; user_states := Some [row];
              custom_placeholders := []; next_placeholder_id := 1 |} in
  let w := {| conversations := <[100%Z := new_conversation IDLE]> ∅;
              db := d; log := []; outbox := [] |} in
  let loads := fun _ : text => Some (∅ : gmap string Value) in
  conversations (reset_user 100 w).2 !! 100%Z = None /\
  conversations (StateManager_init loads (back_online d)).2 !! 100%Z
  = restored loads row.
Proof.
  intros row d w loads.
  assert (Hwf : Forall (row_wellformed loads) [row]).
  { repeat constructor; by eexists. }
  assert (Hnd : NoDup (map telegram_id [row])).
  { apply (bool_decide_unpack _). vm_compute. exact I. }
  destruct (reset_then_restart loads w 100 (new_conversation IDLE) [row]
              (lookup_insert_eq _ _ _) eq_refl Hwf Hnd) as [_ Hdown].
  destruct (Hdown eq_refl) as (_ & Hnone & Hback).
  split; [exact Hnone|].
  exact (proj1 (Hback row (list_elem_of_here _ _) eq_refl eq_refl)).
Defined.
End ResetRestartExample.
(** ** placeholder_bot.py: when the strict renderer returns *)

Section FillTemplateExact.
Import PlaceholderBot HtmlProcessor HtmlSpec.

Lemma sub_pieces_Raise {A} (repl : A -> result text) (ps : list (@piece A))
    (e : exn) :
  sub_pieces repl ps = Raise e -> exists a, a ∈ hits ps /\ repl a = Raise e.
Proof.
  induction ps as [|[c|a m] ps IH]; simpl; [done| |].
  - destruct (sub_pieces repl ps) as [out|e']; [done|]. simpl.
    intros [= ->]. by apply IH.
  - destruct (repl a) as [r|e'] eqn:Ha; simpl.
    + destruct (sub_pieces repl ps) as [out|e'']; [done|]. simpl.
      intros [= ->]. destruct (IH eq_refl) as (a' & Hin & Ha').
      exists a'. split; [by apply list_elem_of_further|done].
    + intros [= ->]. exists a. split; [apply list_elem_of_here|done].
Qed.

Lemma str_value_Raise (v : PyVal) (e : exn) :
  str_value v = Raise e ->
  exists z, v = PyInt z /\ (int_max_str_digits < int_digits z)%nat /\
    e = ValueError
          (str "Exceeds the limit (4300 digits) for integer string conversion").
Proof.
  destruct v as [|x|z]; cbn [str_value]; [done|done|].
  destruct (int_max_str_digits <? int_digits z)%nat eqn:E; [|done].
  intros [= <-]. exists z. split; [done|]. split; [|done].
  by apply Nat.ltb_lt.
Qed.

Lemma hits_item_pieces (items : list item) :
  hits (flat_map item_pieces items) = tok_names items.
Proof.
  unfold tok_names.
  induction items as [|i items IH]; cbn [flat_map]; [done|].
  destruct i as [s|N]; cbn [item_pieces].
  - assert (Hs : forall ps, hits (map Lit s ++ ps) = hits (A:=text) ps)
      by (intros ps; induction s as [|c s IHs]; [done|exact IHs]).
    by rewrite Hs.
  - cbn. by rewrite IH.
Qed.

Lemma detect_placeholders_occurs (t n : text) :
  n ∈ detect_placeholders t -> occurs_in (token n) t.
Proof.
  unfold detect_placeholders. intros [m Hm]%elem_of_hits.
  pose proof (finditer_hit_occurs _ PLACEHOLDER_PATTERN_pos _ _ _ Hm) as Hocc.
  apply scan_from_hit in Hm as (s' & k & Hp & ->).
  pose proof (PLACEHOLDER_PATTERN_Some _ _ _ Hp) as [_ Htake].
  by rewrite Htake in Hocc.
Qed.

(** C1, as amended.  The names [fill_template] looks up are those
    [detect_placeholders] finds: each of them stands in the template
    between the delimiters, and on a template made of stretches without
    an opening brace and of tokens of brace-free one-line names they are
    the names of the tokens, in order.  [fill_template] returns a text
    exactly when every such name is a key whose value has a text (an
    integer of more than 4300 digits has none).  When some name has no
    key, it raises the [ValueError] whose message joins the list of the
    detected names that are not keys, all of them and no other.  When
    every name is a key, the only failure is the conversion error of
    the value of a detected name. *)
Theorem fill_template_missing_exact (t : text) (data : dict PyVal) :
  let missing :=
    filter (fun ph => dict_mem data ph = false) (detect_placeholders t) in
  ((exists out, fill_template t data = Ok out) <->
     (forall n, n ∈ detect_placeholders t ->
        exists v, dict_get data n = Some v /\
                  str_value v = Ok (py_str v))) /\
  ((exists n, n ∈ detect_placeholders t /\ dict_mem data n = false) ->
   fill_template t data
   = Raise (ValueError
              (str "Faltan datos para: " ++ join (str ", ") missing))) /\
  (forall n, n ∈ missing <->
     n ∈ detect_placeholders t /\ dict_mem data n = false) /\
  ((forall n, n ∈ detect_placeholders t -> dict_mem data n = true) ->
   forall e, fill_template t data = Raise e ->
     exists n z,
       n ∈ detect_placeholders t /\ dict_get data n = Some (PyInt z) /\
       (int_max_str_digits < int_digits z)%nat /\
       e = ValueError
             (str "Exceeds the limit (4300 digits) for integer string conversion")) /\
  (forall n, n ∈ detect_placeholders t -> occurs_in (token n) t) /\
  (forall items,
     t = unparse items -> Forall item_ok items -> Forall one_line items ->
     detect_placeholders t = tok_names items).
Proof.
  cbv zeta.
  assert (Hmiss : forall n,
            n ∈ filter (fun ph => dict_mem data ph = false)
                  (detect_placeholders t) <->
            n ∈ detect_placeholders t /\ dict_mem data n = false).
  { intros n. rewrite list_elem_of_filter. tauto. }
  assert (Hnil : filter (fun ph => dict_mem data ph = false)
                   (detect_placeholders t) = [] ->
                 forall n, n ∈ detect_placeholders t -> dict_mem data n = true).
  { intros F n Hn. destruct (dict_mem data n) eqn:E; [done|].
    assert (n ∈ filter (fun ph => dict_mem data ph = false)
                 (detect_placeholders t)) as Hin by by apply Hmiss.
    rewrite F in Hin. by apply elem_of_nil in Hin. }
  split_and!.
  - unfold fill_template.
    destruct (filter _ (detect_placeholders t)) as [|x l] eqn:F.
    + rewrite sub_pieces_Ok_iff. split.
      * intros H n Hn. apply replacer_Ok_iff. by apply H.
      * intros H n Hn. apply replacer_Ok_iff. by apply H.
    + split; [by intros [out ?]|]. intros Hall.
      assert (x ∈ x :: l) as Hin by apply list_elem_of_here.
      rewrite <- F in Hin. apply list_elem_of_filter in Hin as [Hx2 Hx1].
      destruct (Hall x Hx1) as (v & Hv & _).
      unfold dict_mem in Hx2. by rewrite Hv in Hx2.
  - intros (n & Hn1 & Hn2). unfold fill_template.
    destruct (filter _ (detect_placeholders t)) as [|x l] eqn:F; [|done].
    by rewrite (Hnil eq_refl n Hn1) in Hn2.
  - exact Hmiss.
  - intros Hall e. unfold fill_template.
    destruct (filter _ (detect_placeholders t)) as [|x l] eqn:F.
    + intros (n & Hn & Hre)%sub_pieces_Raise. unfold replacer in Hre.
      pose proof (Hall n Hn) as Hm. unfold dict_mem in Hm.
      destruct (dict_get data n) as [v|] eqn:Hv; [|done].
      apply str_value_Raise in Hre as (z & -> & Hz & ->).
      by exists n, z.
    + assert (x ∈ x :: l) as Hin by apply list_elem_of_here.
      rewrite <- F in Hin. apply list_elem_of_filter in Hin as [Hx2 Hx1].
      by rewrite (Hall x Hx1) in Hx2.
  - apply detect_placeholders_occurs.
  - intros items -> Hok Hl. unfold detect_placeholders.
    rewrite finditer_items by done. apply hits_item_pieces.
Qed.

(** C1, counterexample.  The one name of the template is a key of the
    mapping, and [fill_template] raises all the same: the value is an
    integer of 4301 digits, of which [str] builds no text. *)
Lemma fill_template_unconvertible_value :
  let data := [(str "a", PyInt (10 ^ 4300))] in
  detect_placeholders (str "{{a}}") = [str "a"] /\
  dict_mem data (str "a") = true /\
  fill_template (str "{{a}}") data
  = Raise (ValueError
             (str "Exceeds the limit (4300 digits) for integer string conversion")).
Proof. cbv zeta. repeat split; vm_compute; reflexivity. Qed.
End FillTemplateExact.
